(** * pr-reviewer-stats: the ingestion and aggregation pipeline

    A shallow embedding of the TypeScript sources

    - [fetch-pr-velocity.ts] (the fetcher: [fetchPRData] with its nested
      [getPRChangeStats], the pagination loop and the CSV encoder), and
    - [src/utils/dataProcessing.ts] ([parseCSV], [processData],
      [processImpactData], [calculateMovingAverage], [getStats],
      [getImpactStats], [removeOutliers]),

    together with the properties the specification states about them, and

    - the code around them: [filterByRange], [getFirstName], the series of
      the velocity chart and of the impact chart (the [VelocityChart]
      component), the views that the [Dashboard] component derives from the
      loaded records and the read loop of its [handleRefresh], the loop of
      [fetchPRData] over the repositories, its sort, its export and its
      summary, and the encoder of the earlier fetcher,

    with further properties read off that code.

    Conventions of the embedding.
    - JavaScript strings are [string]; a JavaScript object used as a
      dictionary is a [gmap string _]; arrays are lists.  The keys of a
      dictionary are taken to be none of the names that every object
      inherits ([constructor], [toString] and the like).
    - Integer valued JavaScript numbers (counts, line totals, identifiers,
      the smoothing window, the percentile) are [Z] and their arithmetic is
      exact.  The series smoothed by [calculateMovingAverage] ranges over an
      arbitrary number type with its own addition and division, so that the
      results about it hold for IEEE doubles as well as for rationals.
    - An instant of the upstream is a number of milliseconds since the epoch.
      The [Date] built from a [YYYY-MM-DD] text is midnight UTC of that day and
      is represented by its day number; [setDate(getDate() + 1)] advances it
      by one day, as it does in UTC and in every time zone without clock
      changes; dates are printed in UTC, as [toISOString] does.
    - A network call is a value of [Response]: it throws, answers with a
      non-success status, or answers with a body.  The upstream is a record of
      functions from the request to its response. *)

From Stdlib Require Import ZArith QArith Lia String Ascii DecimalString DecimalZ.
From stdpp Require Import gmap strings list sorting.

Local Open Scope Z_scope.

(** The sum of a list of integers. *)
Definition sumList (l : list Z) : Z := foldr Z.add 0 l.

(** ** calculateMovingAverage *)

Module MovingAverage.
Section Generic.
(** The number type of the series.  [zero] is the literal [0], [add] is
    [+], [div] is [/] and [ofZ] injects a loop counter. *)
Context {num : Type}.
Variable zero : num.
Variable add : num → num → num.
Variable div : num → num → num.
Variable ofZ : Z → num.

(** One iteration of the inner loop at index [j]: the element is added
    when [j >= 0 && j < data.length] (the elements of a [number[]] are
    never [null] or [undefined]). *)
Definition windowStep (data : list num) (acc : num * Z) (j : Z) : num * Z :=
  if (0 <=? j) && (j <? Z.of_nat (length data)) then
    match data !! Z.to_nat j with
    | Some x => (add (fst acc) x, snd acc + 1)
    | None => acc
    end
  else acc.

(** [for (let j = i - halfWindow; j <= i + halfWindow; j++)] *)
Definition windowLoop (data : list num) (halfWindow i : Z) : num * Z :=
  foldl (windowStep data) (zero, 0)
        (seqZ (i - halfWindow) (i + halfWindow - (i - halfWindow) + 1)).

(** [result.push(count > 0 ? sum / count : 0)] *)
Definition smoothedAt (data : list num) (halfWindow i : Z) : num :=
  let '(sum, count) := windowLoop data halfWindow i in
  if 0 <? count then div sum (ofZ count) else zero.

Definition calculateMovingAverage (data : list num) (windowSize : Z) : list num :=
  if windowSize <=? 1 then data
  else
    let halfWindow := windowSize / 2 in
    (λ i, smoothedAt data halfWindow i) <$> seqZ 0 (Z.of_nat (length data)).

(** The specification's reading: the elements whose index lies in
    [lo, hi] and inside the series, and their arithmetic mean. *)
Definition inBounds (data : list num) (lo hi : Z) : list num :=
  take (Z.to_nat (Z.min hi (Z.of_nat (length data) - 1) - Z.max lo 0 + 1))
       (drop (Z.to_nat (Z.max lo 0)) data).

Definition mean (l : list num) : num :=
  div (foldl add zero l) (ofZ (Z.of_nat (length l))).
End Generic.

(** The series 1, 2, 4, 8 over the rationals, for the examples. *)
Definition sampleSeries : list Q := inject_Z <$> [1; 2; 4; 8].
End MovingAverage.

(** ** The JavaScript runtime functions the sources call *)

Module JS.

(** *** Strings *)

(** [WhiteSpace] and [LineTerminator] among the code units below 256:
    what [String.prototype.trim] strips and [parseInt] skips. *)
Definition isWhiteSpace (c : ascii) : bool :=
  let n := N_of_ascii c in
  ((9 <=? n) && (n <=? 13) || (n =? 32) || (n =? 160))%N.

Fixpoint trimStart (s : string) : string :=
  match s with
  | String c s' => if isWhiteSpace c then trimStart s' else s
  | EmptyString => EmptyString
  end.

(** [trimEnd] keeps a character when it is not white space or when
    something is left after it. *)
Fixpoint trimEnd (s : string) : string :=
  match s with
  | String c s' =>
      match trimEnd s' with
      | EmptyString => if isWhiteSpace c then EmptyString else String c EmptyString
      | t => String c t
      end
  | EmptyString => EmptyString
  end.

Definition trim (s : string) : string := trimEnd (trimStart s).

(** [s.split(sep)] for a one character separator: the pieces between the
    separators, at least one piece. *)
Fixpoint split (sep : ascii) (s : string) : list string :=
  match s with
  | EmptyString => [EmptyString]
  | String c s' =>
      if Ascii.eqb c sep then EmptyString :: split sep s'
      else match split sep s' with
           | piece :: rest => String c piece :: rest
           | [] => [String c EmptyString]
           end
  end.

(** [pieces.join(sep)] *)
Fixpoint join (sep : string) (pieces : list string) : string :=
  match pieces with
  | [] => EmptyString
  | [p] => p
  | p :: rest => p +:+ sep +:+ join sep rest
  end.

(** [s.replace(/c/g, by)] for a one character pattern. *)
Fixpoint replaceAll (c : ascii) (by_ : string) (s : string) : string :=
  match s with
  | EmptyString => EmptyString
  | String x s' =>
      if Ascii.eqb x c then by_ +:+ replaceAll c by_ s'
      else String x (replaceAll c by_ s')
  end.

(** *** Numbers and their text *)

(** [`${n}`] for an integer valued number: its decimal digits, with a
    minus sign when negative. *)
Definition numberToString (n : Z) : string :=
  DecimalString.NilZero.string_of_int (Z.to_int n).

Definition digitValue (radix : Z) (c : ascii) : option Z :=
  let n := Z.of_N (N_of_ascii c) in
  let v := if (48 <=? n) && (n <=? 57) then Some (n - 48)
           else if (97 <=? n) && (n <=? 122) then Some (n - 87)
           else if (65 <=? n) && (n <=? 90) then Some (n - 55)
           else None in
  match v with
  | Some d => if d <? radix then Some d else None
  | None => None
  end.

(** The longest prefix of digits, read most significant first; [None]
    when the first character is no digit. *)
Fixpoint readDigits (radix : Z) (acc : option Z) (s : string) : option Z :=
  match s with
  | EmptyString => acc
  | String c s' =>
      match digitValue radix c with
      | Some d => readDigits radix (Some (radix * default 0 acc + d)) s'
      | None => acc
      end
  end.

(** The digits behind the sign: [0x] or [0X] selects base sixteen. *)
Definition parseMagnitude (s : string) : option Z :=
  let '(radix, digits) :=
    match s with
    | String "0" (String "x" r) | String "0" (String "X" r) => (16, r)
    | _ => (10, s)
    end in
  readDigits radix None digits.

(** [parseInt(s)] without a radix: leading white space is skipped, a sign
    is read, and the digits are read as far as they go.  [None] is [NaN]. *)
Definition parseInt (s : string) : option Z :=
  let s1 := trimStart s in
  let '(sign, s2) :=
    match s1 with
    | String "-" r => (-1, r)
    | String "+" r => (1, r)
    | _ => (1, s1)
    end in
  (λ v, sign * v) <$> parseMagnitude s2.

(** [parseInt(v) || 0] where [v] may be [undefined]: [NaN] and [0] give 0. *)
Definition parseIntOr0 (v : option string) : Z :=
  match v with
  | Some s => default 0 (parseInt s)
  | None => 0
  end.

(** *** Dates *)

Definition msPerDay : Z := 86400000.

(** [DayFromYear(y)] of ECMA-262: the day number of the first of January. *)
Definition dayFromYear (y : Z) : Z :=
  365 * (y - 1970) + (y - 1969) / 4 - (y - 1901) / 100 + (y - 1601) / 400.

Definition isLeapYear (y : Z) : bool :=
  (y mod 4 =? 0) && (negb (y mod 100 =? 0) || (y mod 400 =? 0)).

Definition daysInYear (y : Z) : Z := if isLeapYear y then 366 else 365.

Definition daysInMonth (y m : Z) : Z :=
  if m =? 2 then (if isLeapYear y then 29 else 28)
  else if (m =? 4) || (m =? 6) || (m =? 9) || (m =? 11) then 30
  else 31.

(** The days of the year before the first of month [m] (1 to 12). *)
Definition daysBeforeMonth (y m : Z) : Z :=
  let leap := if isLeapYear y then 1 else 0 in
  if m <=? 1 then 0
  else if m =? 2 then 31
  else if m =? 3 then 59 + leap
  else if m =? 4 then 90 + leap
  else if m =? 5 then 120 + leap
  else if m =? 6 then 151 + leap
  else if m =? 7 then 181 + leap
  else if m =? 8 then 212 + leap
  else if m =? 9 then 243 + leap
  else if m =? 10 then 273 + leap
  else if m =? 11 then 304 + leap
  else 334 + leap.

(** A month from 1 to 12 and a day of that month. *)
Definition validCivil (y m d : Z) : Prop :=
  1 ≤ m ≤ 12 ∧ 1 ≤ d ≤ daysInMonth y m.

(** [MakeDay]: the day number of a calendar date. *)
Definition dayOfCivil (y m d : Z) : Z :=
  dayFromYear y + daysBeforeMonth y m + (d - 1).

(** [YearFromTime]: the year [y] with
    [dayFromYear y <= day < dayFromYear (y + 1)]. *)
Definition yearFromDay (day : Z) : Z :=
  let g := 1970 + (400 * day) / 146097 in
  if dayFromYear (g + 1) <=? day then g + 1
  else if dayFromYear g <=? day then g
  else g - 1.

(** [MonthFromTime], counted from 1, given the day within the year. *)
Definition monthFromDayInYear (y dayInYear : Z) : Z :=
  if dayInYear <? daysBeforeMonth y 2 then 1
  else if dayInYear <? daysBeforeMonth y 3 then 2
  else if dayInYear <? daysBeforeMonth y 4 then 3
  else if dayInYear <? daysBeforeMonth y 5 then 4
  else if dayInYear <? daysBeforeMonth y 6 then 5
  else if dayInYear <? daysBeforeMonth y 7 then 6
  else if dayInYear <? daysBeforeMonth y 8 then 7
  else if dayInYear <? daysBeforeMonth y 9 then 8
  else if dayInYear <? daysBeforeMonth y 10 then 9
  else if dayInYear <? daysBeforeMonth y 11 then 10
  else if dayInYear <? daysBeforeMonth y 12 then 11
  else 12.

Definition civilOfDay (day : Z) : Z * Z * Z :=
  let y := yearFromDay day in
  let dayInYear := day - dayFromYear y in
  let m := monthFromDayInYear y dayInYear in
  (y, m, dayInYear - daysBeforeMonth y m + 1).

Definition isDigit (c : ascii) : bool :=
  let n := N_of_ascii c in ((48 <=? n) && (n <=? 57))%N.

Definition digitOf (c : ascii) : Z := Z.of_N (N_of_ascii c) - 48.

Definition digitChar (d : Z) : ascii := ascii_of_N (Z.to_N (48 + d)).

(** [new Date(s)] for the date-only form [YYYY-MM-DD] of the ISO format,
    which is read as midnight UTC; the result is the day number.  [None]
    is the invalid date.  Only this form, with a month from 01 to 12 and a
    day of that month, is read; what an engine makes of any other text is
    left to the engine by the language and is taken as invalid here. *)
Definition parseISODate (s : string) : option Z :=
  match s with
  | String y1 (String y2 (String y3 (String y4 (String h1
      (String m1 (String m2 (String h2 (String d1 (String d2 EmptyString))))))))) =>
      if forallb isDigit [y1; y2; y3; y4; m1; m2; d1; d2]
         && Ascii.eqb h1 "-" && Ascii.eqb h2 "-" then
        let y := 1000 * digitOf y1 + 100 * digitOf y2 + 10 * digitOf y3 + digitOf y4 in
        let m := 10 * digitOf m1 + digitOf m2 in
        let d := 10 * digitOf d1 + digitOf d2 in
        if (1 <=? m) && (m <=? 12) && (1 <=? d) && (d <=? daysInMonth y m)
        then Some (dayOfCivil y m d)
        else None
      else None
  | _ => None
  end.

(** The decimal digits of [n], padded with zeros to [width] digits. *)
Fixpoint padDigits (width : nat) (n : Z) (acc : string) : string :=
  match width with
  | O => acc
  | S w => padDigits w (n / 10) (String (digitChar (n mod 10)) acc)
  end.

(** [d.toISOString().split('T')[0]] for the date at day number [day]:
    four digits for the years 0 to 9999, a sign and six digits otherwise. *)
Definition toISODate (day : Z) : string :=
  let '(y, m, d) := civilOfDay day in
  let year :=
    if (0 <=? y) && (y <=? 9999) then padDigits 4 y EmptyString
    else String (if y <? 0 then "-"%char else "+"%char) (padDigits 6 (Z.abs y) EmptyString) in
  year +:+ "-" +:+ padDigits 2 m EmptyString +:+ "-" +:+ padDigits 2 d EmptyString.
End JS.

(** The characters of a string. *)
Fixpoint chars (s : string) : list ascii :=
  match s with
  | EmptyString => []
  | String c s' => c :: chars s'
  end.

(** ** The canonical record and its text format *)

Record PRRecord : Type := mkPRRecord {
  author : string;
  authorEmail : string;
  project : string;
  repository : string;
  closedDate : string;
  prId : Z;
  title : string;
  linesAdded : Z;
  linesDeleted : Z
}.

Module Codec.

Definition comma : ascii := ","%char.
Definition dquote : ascii := "034"%char.
Definition newline : ascii := "010"%char.
Definition str (c : ascii) : string := String c EmptyString.

(** *** The encoder at the end of [fetchPRData] *)

Definition csvHeader : string :=
  "Author,AuthorEmail,Project,Repository,ClosedDate,PRId,Title,LinesAdded,LinesDeleted".

(** The title between double quotes, every double quote inside it
    replaced by two. *)
Definition escapedTitle (r : PRRecord) : string :=
  str dquote +:+ JS.replaceAll dquote (String dquote (str dquote)) (title r) +:+ str dquote.

Definition csvLine (r : PRRecord) : string :=
  author r +:+ "," +:+ authorEmail r +:+ "," +:+ project r +:+ "," +:+
  repository r +:+ "," +:+ closedDate r +:+ "," +:+
  JS.numberToString (prId r) +:+ "," +:+ escapedTitle r +:+ "," +:+
  JS.numberToString (linesAdded r) +:+ "," +:+ JS.numberToString (linesDeleted r).

(** [csvLines] joined by line feeds, the header first. *)
Definition encodeCSV (records : list PRRecord) : string :=
  JS.join (str newline) (csvHeader :: (csvLine <$> records)).

(** *** parseCSV *)

(** The character loop over one line: [current] is the field being read,
    [inQuotes] the quote state; the result is [values] after the final
    [values.push(current)]. *)
Fixpoint scanLine (line : string) (current : string) (inQuotes : bool) : list string :=
  match line with
  | EmptyString => [current]
  | String char rest =>
      if Ascii.eqb char dquote then scanLine rest current (negb inQuotes)
      else if Ascii.eqb char comma && negb inQuotes then
        current :: scanLine rest EmptyString inQuotes
      else scanLine rest (current +:+ str char) inQuotes
  end.

(** [values[6] || ''] *)
Definition orEmpty (v : option string) : string := default EmptyString v.

(** The body of the loop over the lines: a line with fewer than five
    values gives no record. *)
Definition parseLine (line : string) : option PRRecord :=
  let values := scanLine line EmptyString false in
  match values with
  | v0 :: v1 :: v2 :: v3 :: v4 :: _ =>
      Some {| author := v0; authorEmail := v1; project := v2; repository := v3;
              closedDate := v4;
              prId := JS.parseIntOr0 (values !! 5%nat);
              title := orEmpty (values !! 6%nat);
              linesAdded := JS.parseIntOr0 (values !! 7%nat);
              linesDeleted := JS.parseIntOr0 (values !! 8%nat) |}
  | _ => None
  end.

(** The lines are those of the trimmed text; the loop starts at index 1,
    behind the header. *)
Definition parseCSV (text : string) : list PRRecord :=
  omap parseLine (drop 1 (JS.split newline (JS.trim text))).

(** What the reader makes of a title: its characters without the double
    quotes. *)
Fixpoint withoutQuotes (s : string) : string :=
  match s with
  | EmptyString => EmptyString
  | String c s' => if Ascii.eqb c dquote then withoutQuotes s' else String c (withoutQuotes s')
  end.

(** A field without separator, quote or line feed. *)
Definition plain (s : string) : Prop :=
  Forall (λ c, c ≠ comma ∧ c ≠ dquote ∧ c ≠ newline) (chars s).

Definition oneLine (s : string) : Prop := Forall (λ c, c ≠ newline) (chars s).

(** The fields of a record as section 3 of the specification has them: the
    title may hold commas and quotes, the other text fields hold neither,
    and no field holds a line feed. *)
Definition wellFormed (r : PRRecord) : Prop :=
  plain (author r) ∧ plain (authorEmail r) ∧ plain (project r) ∧
  plain (repository r) ∧ plain (closedDate r) ∧ oneLine (title r).

(** What [parseCSV] reads back for a record. *)
Definition decoded (r : PRRecord) : PRRecord :=
  {| author := author r; authorEmail := authorEmail r; project := project r;
     repository := repository r; closedDate := closedDate r; prId := prId r;
     title := withoutQuotes (title r);
     linesAdded := linesAdded r; linesDeleted := linesDeleted r |}.

Definition sampleRecord (t : string) : PRRecord :=
  {| author := "Ada Lovelace"; authorEmail := "ada@example.org"; project := "Engine";
     repository := "notes"; closedDate := "2024-01-03"; prId := 17; title := t;
     linesAdded := 120; linesDeleted := 0 |}.

(** A title with two double quotes and a comma: say, then hi between
    double quotes, then a comma and all. *)
Definition quotedTitle : string :=
  "say " +:+ str dquote +:+ "hi" +:+ str dquote +:+ ", all".
End Codec.

(** ** The fetcher: change statistics and pagination *)

Module Fetcher.

(** The outcome of [await fetch(url)] followed by [response.json()]: the
    call throws (a network or a parse error), or the response is not
    [ok], or it is [ok] and carries a body. *)
Inductive Response (A : Type) : Type :=
| Throws
| NotOk
| Ok (body : A).
Arguments Throws {A}.
Arguments NotOk {A}.
Arguments Ok {A} body.

Record ChangeCounts : Type := {
  Add : option Z;
  Edit : option Z;
  Delete : option Z
}.

Record CommitDetail : Type := { changeCounts : option ChangeCounts }.

Record Commit : Type := { commitId : string }.

Record Identity : Type := {
  displayName : option string;
  uniqueName : option string
}.

(** An item of the pull request list.  [prClosedDate] is the instant, in
    milliseconds, that [new Date(pr.closedDate)] denotes; [None] when the
    field is missing or empty (and also when it is no date, which the
    comparison with the cutoff rejects in the same way). *)
Record PullRequest : Type := {
  pullRequestId : option Z;
  prTitle : option string;
  createdBy : option Identity;
  prClosedDate : option Z
}.

(** The upstream API, one function per endpoint the fetcher calls; the
    body of a list endpoint is its [value] field, which may be missing. *)
Record Upstream : Type := {
  listPullRequests : string → string → Z → Z → Response (option (list PullRequest));
  listCommits : string → string → Z → Response (option (list Commit));
  getCommit : string → string → string → Response CommitDetail
}.

Section WithUpstream.
Variable api : Upstream.

(** *** getPRChangeStats *)

(** [x || 0] on an optional count. *)
Definition or0 (x : option Z) : Z := default 0 x.

(** The body of the loop over the commits; [None] when the fetch
    throws, which leaves the [try] block. *)
Definition commitStep (projectName repoId : string) (totals : Z * Z) (commit : Commit)
  : option (Z * Z) :=
  match getCommit api projectName repoId (commitId commit) with
  | Throws => None
  | NotOk => Some totals
  | Ok commitData =>
      match changeCounts commitData with
      | Some counts =>
          let adds := or0 (Add counts) in
          let edits := or0 (Edit counts) in
          let deletes := or0 (Delete counts) in
          Some (fst totals + (adds * 50 + edits * 15),
                snd totals + (deletes * 30 + edits * 5))
      | None => Some totals
      end
  end.

Fixpoint commitLoop (projectName repoId : string) (totals : Z * Z) (commits : list Commit)
  : option (Z * Z) :=
  match commits with
  | [] => Some totals
  | commit :: rest =>
      match commitStep projectName repoId totals commit with
      | Some totals' => commitLoop projectName repoId totals' rest
      | None => None
      end
  end.

(** The result is the pair [(added, deleted)]; the [catch] turns every
    exception into [(0, 0)]. *)
Definition getPRChangeStats (projectName repoId : string) (prId : Z) : Z * Z :=
  match listCommits api projectName repoId prId with
  | Throws => (0, 0)
  | NotOk => (0, 0)
  | Ok value =>
      let commits := default [] value in
      match commitLoop projectName repoId (0, 0) commits with
      | Some totals => totals
      | None => (0, 0)
      end
  end.




(** *** The pagination loop of one repository *)

Definition top : Z := 1000.

(** [s || d] on an optional string: the empty string is falsy too. *)
Definition orString (s : option string) (d : string) : string :=
  match s with
  | Some (String c r) => String c r
  | _ => d
  end.

Variable cutoffDate : Z.
Variable fetchLOCStats : bool.

(** The body of [for (const pr of prs)]: the record pushed for [pr],
    if any. *)
Definition recordOf (projectName repoName repoId : string) (pr : PullRequest)
  : option PRRecord :=
  match prClosedDate pr with
  | None => None
  | Some closed =>
      if cutoffDate <=? closed then
        let stats :=
          if fetchLOCStats
          then getPRChangeStats projectName repoId (or0 (pullRequestId pr))
          else (0, 0) in
        Some {| author := orString (createdBy pr ≫= displayName) "Unknown";
                authorEmail := orString (createdBy pr ≫= uniqueName) EmptyString;
                project := projectName;
                repository := repoName;
                closedDate := JS.toISODate (closed / JS.msPerDay);
                prId := or0 (pullRequestId pr);
                title := orString (prTitle pr) EmptyString;
                linesAdded := stats.1;
                linesDeleted := stats.2 |}
      else None
  end.

(** [while (hasMore)]: one iteration per unit of fuel.  The state is the
    offset [skip], the records gathered so far and the offsets requested
    so far; [None] means that the loop has not ended within the fuel. *)
Fixpoint pageLoop (fuel : nat) (projectName repoName repoId : string)
    (skip : Z) (allRecords : list PRRecord) (requested : list Z)
  : option (list PRRecord * list Z) :=
  match fuel with
  | O => None
  | S fuel' =>
      let requested' := requested ++ [skip] in
      match listPullRequests api projectName repoId top skip with
      | Throws => Some (allRecords, requested')
      | NotOk => Some (allRecords, requested')
      | Ok value =>
          let prs := default [] value in
          if Z.of_nat (length prs) =? 0 then Some (allRecords, requested')
          else
            let allRecords' :=
              allRecords ++ omap (recordOf projectName repoName repoId) prs in
            if Z.of_nat (length prs) <? top then Some (allRecords', requested')
            else pageLoop fuel' projectName repoName repoId (skip + top)
                          allRecords' requested'
      end
  end.

(** One repository, from [skip = 0]. *)
Definition fetchRepository (fuel : nat) (projectName repoName repoId : string)
  : option (list PRRecord * list Z) :=
  pageLoop fuel projectName repoName repoId 0 [] [].

(** The upstream serves [pages] from offset [skip] on: the request at the
    offset of the [i]-th page succeeds with that page. *)
Definition servesFrom (projectName repoId : string) (skip : Z)
    (pages : list (list PullRequest)) : Prop :=
  ∀ (i : nat) (page : list PullRequest),
    pages !! i = Some page →
    ∃ value, listPullRequests api projectName repoId top (skip + Z.of_nat i * top) = Ok value ∧
             default [] value = page.

(** Every page but the last holds at least [top] items and the last one
    holds fewer (it may be empty). *)
Definition endsWithShortPage (pages : list (list PullRequest)) : Prop :=
  (∀ (i : nat) (page : list PullRequest),
     pages !! i = Some page → (S i < length pages)%nat → top ≤ Z.of_nat (length page)) ∧
  ∃ lastPage, last pages = Some lastPage ∧ Z.of_nat (length lastPage) < top.

(** The offsets of the first [n] requests from [skip]. *)
Definition offsetsFrom (skip : Z) (n : nat) : list Z :=
  (λ i, skip + i * top) <$> seqZ 0 (Z.of_nat n).
End WithUpstream.

(** An upstream for the examples: pull request 7 has three commits; the
    first changes files, the detail of the second is answered with a failure
    status, the third carries no change counts.  Pull request 8 has a commit
    whose fetch throws, and the commit list of every other one fails. *)
Definition sampleUpstream : Upstream :=
  {| listPullRequests := λ _ _ _ _, NotOk;
     listCommits := λ _ _ prId,
       if prId =? 7 then
         Ok (Some [ {| commitId := "c1" |}; {| commitId := "c2" |}; {| commitId := "c3" |} ])
       else if prId =? 8 then
         Ok (Some [ {| commitId := "c1" |}; {| commitId := "c4" |} ])
       else NotOk;
     getCommit := λ _ _ id,
       if String.eqb id "c1" then
         Ok {| changeCounts := Some {| Add := Some 2; Edit := Some 3; Delete := None |} |}
       else if String.eqb id "c3" then Ok {| changeCounts := None |}
       else if String.eqb id "c4" then Throws
       else NotOk |}.

(** Pull requests for the examples, closed at the given instant. *)
Definition closedAt (id closed : Z) : PullRequest :=
  {| pullRequestId := Some id; prTitle := Some "change";
     createdBy := Some {| displayName := Some "Ada Lovelace"; uniqueName := None |};
     prClosedDate := Some closed |}.

Definition neverClosed (id : Z) : PullRequest :=
  {| pullRequestId := Some id; prTitle := None; createdBy := None; prClosedDate := None |}.

(** Three pages of 1000, 1000 and 400 items for a cutoff at instant 5000:
    the first page is older than the cutoff throughout, the second is
    recent, the third mixes recent items, old ones and items never closed. *)
Definition samplePages : list (list PullRequest) :=
  [ replicate 1000 (closedAt 1 4999);
    replicate 1000 (closedAt 2 5000);
    replicate 100 (closedAt 3 86400000) ++ replicate 200 (neverClosed 4) ++
    replicate 100 (closedAt 5 0) ].

(** An upstream that serves the given pages of pull requests in order,
    one per [top] items of offset, and nothing behind them. *)
Definition pagedUpstream (pages : list (list PullRequest)) : Upstream :=
  {| listPullRequests := λ _ _ _ skip,
       Ok (Some (default [] (pages !! Z.to_nat (skip / top))));
     listCommits := λ _ _ _, NotOk;
     getCommit := λ _ _ _, NotOk |}.
End Fetcher.

(** ** Aggregation by day, author and project *)

Module Aggregation.

(** [Object.keys(m).sort()]: the keys in ascending order of their code
    units. *)
Definition sortedKeys {V : Type} (m : gmap string V) : list string :=
  merge_sort String.le (elements (dom m)).

(** [Array.prototype.sort] with a comparator, which is stable: insertion
    from the right keeps equal elements in their order.  [before a b] says
    that the comparator does not put [b] before [a]. *)
Fixpoint insertSorted {A : Type} (before : A → A → bool) (x : A) (l : list A) : list A :=
  match l with
  | [] => [x]
  | y :: l' => if before x y then x :: l else y :: insertSorted before x l'
  end.

Definition stableSort {A : Type} (before : A → A → bool) (l : list A) : list A :=
  foldr (insertSorted before) [] l.

(** The comparator [(a, b) => key(a) - key(b)]. *)
Definition ascendingBy {A : Type} (key : A → Z) (a b : A) : bool := key a - key b <=? 0.

(** [authors.add(a)] on a [Set], which iterates in insertion order. *)
Definition setAdd (authors : list string) (a : string) : list string :=
  if decide (a ∈ authors) then authors else authors ++ [a].

(** [for (d = start; d <= end; d.setDate(d.getDate() + 1))] over the
    keys [days] of [byDay], run only when there is more than one key:
    every date of the range that has no bucket gets the bucket [zero].
    The dates are day numbers; an invalid date compares false and
    leaves the loop without an iteration. *)
Definition fillStep {V : Type} (zero : V) (byDay : gmap string V) (d : Z) : gmap string V :=
  let dayStr := JS.toISODate d in
  match byDay !! dayStr with
  | Some _ => byDay
  | None => <[dayStr := zero]> byDay
  end.

Definition fillGaps {V : Type} (zero : V) (byDay : gmap string V) : gmap string V :=
  let days := sortedKeys byDay in
  if (1 <? length days)%nat then
    match head days ≫= JS.parseISODate, last days ≫= JS.parseISODate with
    | Some startDate, Some endDate =>
        foldl (fillStep zero) byDay (seqZ startDate (endDate - startDate + 1))
    | _, _ => byDay
    end
  else byDay.

(** *** processData (velocity) *)

(** A day bucket is one object holding the count of every author under
    the author's name and the day's count under the key [total]. *)
Definition totalKey : string := "total".

Definition emptyBucket : gmap string Z := {[ totalKey := 0 ]}.

(** [o[k]++] on a number valued property that is present. *)
Definition increment (o : gmap string Z) (k : string) : gmap string Z :=
  <[k := default 0 (o !! k) + 1]> o.

Definition bumpBucket (bucket : gmap string Z) (a : string) : gmap string Z :=
  let b1 := match bucket !! a with
            | Some n => if n =? 0 then <[a := 0]> bucket else bucket
            | None => <[a := 0]> bucket
            end in
  increment (increment b1 a) totalKey.

(** [m[k] = (m[k] || 0) + 1] *)
Definition countUp (m : gmap string Z) (k : string) : gmap string Z :=
  <[k := default 0 (m !! k) + 1]> m.

Record PassState : Type := {
  psByDay : gmap string (gmap string Z);
  psByAuthor : gmap string Z;
  psByProject : gmap string Z;
  psAuthors : list string
}.

(** The body of [for (const r of records)]. *)
Definition passStep (st : PassState) (r : PRRecord) : PassState :=
  let day := closedDate r in
  let bucket := default emptyBucket (psByDay st !! day) in
  {| psAuthors := setAdd (psAuthors st) (author r);
     psByDay := <[day := bumpBucket bucket (author r)]> (psByDay st);
     psByAuthor := countUp (psByAuthor st) (author r);
     psByProject := countUp (psByProject st) (project r) |}.

Definition passInit : PassState :=
  {| psByDay := ∅; psByAuthor := ∅; psByProject := ∅; psAuthors := [] |}.

Record ProcessedData : Type := {
  byDay : gmap string (gmap string Z);
  byAuthor : gmap string Z;
  byProject : gmap string Z;
  days : list string;
  authorList : list string;
  totalPRs : Z
}.

Definition processData (records : list PRRecord) : ProcessedData :=
  let st := foldl passStep passInit records in
  let filled := fillGaps emptyBucket (psByDay st) in
  let count a := default 0 (psByAuthor st !! a) in
  {| byDay := filled;
     byAuthor := psByAuthor st;
     byProject := psByProject st;
     days := sortedKeys filled;
     authorList := stableSort (λ a b, count b - count a <=? 0) (psAuthors st);
     totalPRs := Z.of_nat (length records) |}.

(** [byDay[d].total], 0 when there is none. *)
Definition dayTotal (byDay : gmap string (gmap string Z)) (d : string) : Z :=
  default 0 (byDay !! d ≫= (.!! totalKey)).

(** The sum of [f] over the values of a map. *)
Definition sumOver {V : Type} (f : V → Z) (m : gmap string V) : Z :=
  sumList ((f ∘ snd) <$> map_to_list m).

(** The sum of the values of a map of counts. *)
Definition sumValues (m : gmap string Z) : Z :=
  sumList (snd <$> map_to_list m).


(** *** processImpactData (impact) *)

(** The values a property of an impact day bucket can hold: a number (the
    two totals), an [{added, deleted}] pair (an author), or the text that
    [+=] produces when a total has been overwritten by a pair. *)
Inductive ImpactValue : Type :=
| Num (n : Z)
| Tally (added deleted : Z)
| Text.

Definition totalAddedKey : string := "totalAdded".
Definition totalDeletedKey : string := "totalDeleted".

Definition emptyImpactBucket : gmap string ImpactValue :=
  <[totalAddedKey := Num 0]> {[ totalDeletedKey := Num 0 ]}.

Definition truthy (v : option ImpactValue) : bool :=
  match v with
  | Some (Num n) => negb (n =? 0)
  | Some (Tally _ _) => true
  | Some Text => true
  | None => false
  end.

(** [o[k] += x] on a total. *)
Definition addTo (o : gmap string ImpactValue) (k : string) (x : Z) : gmap string ImpactValue :=
  match o !! k with
  | Some (Num n) => <[k := Num (n + x)]> o
  | _ => <[k := Text]> o
  end.

(** The updates of one day bucket.  [None] is the [TypeError] of strict
    mode for [.added += x] on a property that holds a number or a text. *)
Definition bumpImpactBucket (bucket : gmap string ImpactValue) (a : string) (la ld : Z)
  : option (gmap string ImpactValue) :=
  let b1 := if truthy (bucket !! a) then bucket else <[a := Tally 0 0]> bucket in
  match b1 !! a with
  | Some (Tally added deleted) =>
      let b2 := <[a := Tally (added + la) (deleted + ld)]> b1 in
      Some (addTo (addTo b2 totalAddedKey la) totalDeletedKey ld)
  | _ => None
  end.

(** [m[k].added += la; m[k].deleted += ld], from [{added: 0, deleted: 0}]
    when [k] is new. *)
Definition tallyUp (m : gmap string (Z * Z)) (k : string) (la ld : Z) : gmap string (Z * Z) :=
  let '(a, d) := default (0, 0) (m !! k) in <[k := (a + la, d + ld)]> m.

Record ImpactPassState : Type := {
  ipByDay : gmap string (gmap string ImpactValue);
  ipByAuthor : gmap string (Z * Z);
  ipByProject : gmap string (Z * Z);
  ipAuthors : list string
}.

Definition impactPassStep (st : ImpactPassState) (r : PRRecord) : option ImpactPassState :=
  let day := closedDate r in
  let bucket := default emptyImpactBucket (ipByDay st !! day) in
  bucket' ← bumpImpactBucket bucket (author r) (linesAdded r) (linesDeleted r);
  Some {| ipAuthors := setAdd (ipAuthors st) (author r);
          ipByDay := <[day := bucket']> (ipByDay st);
          ipByAuthor := tallyUp (ipByAuthor st) (author r) (linesAdded r) (linesDeleted r);
          ipByProject := tallyUp (ipByProject st) (project r) (linesAdded r) (linesDeleted r) |}.

Fixpoint impactPass (st : ImpactPassState) (records : list PRRecord) : option ImpactPassState :=
  match records with
  | [] => Some st
  | r :: rest => st' ← impactPassStep st r; impactPass st' rest
  end.

Definition impactPassInit : ImpactPassState :=
  {| ipByDay := ∅; ipByAuthor := ∅; ipByProject := ∅; ipAuthors := [] |}.

Record ImpactData : Type := {
  impByDay : gmap string (gmap string ImpactValue);
  impByAuthor : gmap string (Z * Z);
  impByProject : gmap string (Z * Z);
  impDays : list string;
  impAuthorList : list string;
  totalLinesAdded : Z;
  totalLinesDeleted : Z
}.

Definition processImpactData (records : list PRRecord) : option ImpactData :=
  st ← impactPass impactPassInit records;
  let filled := fillGaps emptyImpactBucket (ipByDay st) in
  let touched a := let '(x, y) := default (0, 0) (ipByAuthor st !! a) in x + y in
  Some {| impByDay := filled;
          impByAuthor := ipByAuthor st;
          impByProject := ipByProject st;
          impDays := sortedKeys filled;
          impAuthorList := stableSort (λ a b, touched b - touched a <=? 0) (ipAuthors st);
          totalLinesAdded := foldr Z.add 0 ((fst ∘ snd) <$> map_to_list (ipByAuthor st));
          totalLinesDeleted := foldr Z.add 0 ((snd ∘ snd) <$> map_to_list (ipByAuthor st)) |}.


(** *** Records for the examples *)

Definition pr (a day proj : string) (added deleted : Z) : PRRecord :=
  {| author := a; authorEmail := a +:+ "@example.org"; project := proj;
     repository := "repo"; closedDate := day; prId := 1; title := "change";
     linesAdded := added; linesDeleted := deleted |}.

(** Alice and Bob on the first of January, Alice again on the third. *)
Definition scenario : list PRRecord :=
  [ pr "alice" "2024-01-01" "A" 10 2;
    pr "bob" "2024-01-01" "A" 5 5;
    pr "alice" "2024-01-03" "B" 1 0 ].

(** One pull request of an author whose name is the key of the day total. *)
Definition authorNamedTotal : list PRRecord := [ pr "total" "2024-01-01" "A" 0 0 ].
End Aggregation.

(** ** Summary statistics *)

Module Stats.

(** [records.filter(r => r.author === author)] when [author] is a
    non-empty string, [records] when it is [null] or empty. *)
Definition filterAuthor (records : list PRRecord) (a : option string) : list PRRecord :=
  match a with
  | Some (String c s) => filter (λ r, author r = String c s) records
  | _ => records
  end.

(** [Math.max(1, Math.ceil((lastDate - firstDate) / (7 days)))] for the
    first and the last of the sorted dates; [None] is [NaN], the result
    when one of the two is an invalid date. *)
Definition weekSpanOf (closedDates : list string) : option Z :=
  let dates := merge_sort String.le closedDates in
  firstDate ← head dates ≫= JS.parseISODate;
  lastDate ← last dates ≫= JS.parseISODate;
  Some (Z.max 1 (- ((firstDate - lastDate) / 7))).

(** [m[k] = (m[k] || 0) + x] on an object whose keys are listed in the
    order of their insertion, as [Object.entries] gives them (for keys
    that are not array indices). *)
Fixpoint bump (m : list (string * Z)) (k : string) (x : Z) : list (string * Z) :=
  match m with
  | [] => [(k, 0 + x)]
  | (k', v) :: m' => if decide (k' = k) then (k', v + x) :: m' else (k', v) :: bump m' k x
  end.

(** [Object.entries(byAuthor).sort((a, b) => b[1] - a[1])[0]], then
    [top ? top[0] : 'N/A']. *)
Definition topOf (byAuthor : list (string * Z)) : string :=
  match Aggregation.stableSort (λ a b, b.2 - a.2 <=? 0) byAuthor with
  | top :: _ => top.1
  | [] => "N/A"
  end.

Record Stats : Type := {
  total : Z;
  avgPerWeek : string;
  topContributor : string;
  weeks : option Z
}.

Module Impact.
Record ImpactStats : Type := {
  totalAdded : Z;
  totalDeleted : Z;
  netChange : Z;
  avgPerWeek : string;
  topContributor : string;
  weeks : option Z
}.
End Impact.

Section WithToFixed.
(** [(n / d).toFixed(digits)]: the quotient of two integers printed
    with the given number of decimals. *)
Variable toFixed : Z → Z → nat → string.

Definition average (n : Z) (weekSpan : option Z) (digits : nat) : string :=
  match weekSpan with
  | Some w => toFixed n w digits
  | None => "NaN"
  end.

Definition getStats (records : list PRRecord) (a : option string) : Stats :=
  let filtered := filterAuthor records a in
  let total := Z.of_nat (length filtered) in
  if total =? 0 then
    {| total := 0; avgPerWeek := "0"; topContributor := "N/A"; weeks := Some 0 |}
  else
    let weekSpan := weekSpanOf (closedDate <$> filtered) in
    let topContributor :=
      match a with
      | Some (String c s) => String c s
      | _ => topOf (foldl (λ m r, bump m (author r) 1) [] filtered)
      end in
    {| total := total; avgPerWeek := average total weekSpan 1;
       topContributor := topContributor; weeks := weekSpan |}.

Definition getImpactStats (records : list PRRecord) (a : option string)
  : Impact.ImpactStats :=
  let filtered := filterAuthor records a in
  if Z.of_nat (length filtered) =? 0 then
    {| Impact.totalAdded := 0; Impact.totalDeleted := 0; Impact.netChange := 0;
       Impact.avgPerWeek := "0"; Impact.topContributor := "N/A";
       Impact.weeks := Some 0 |}
  else
    let totalAdded := foldl (λ sum r, sum + linesAdded r) 0 filtered in
    let totalDeleted := foldl (λ sum r, sum + linesDeleted r) 0 filtered in
    let netChange := totalAdded - totalDeleted in
    let weekSpan := weekSpanOf (closedDate <$> filtered) in
    let topContributor :=
      match a with
      | Some (String c s) => String c s
      | _ => topOf (foldl (λ m r, bump m (author r) (linesAdded r + linesDeleted r))
                          [] filtered)
      end in
    {| Impact.totalAdded := totalAdded; Impact.totalDeleted := totalDeleted;
       Impact.netChange := netChange;
       Impact.avgPerWeek := average netChange weekSpan 0;
       Impact.topContributor := topContributor; Impact.weeks := weekSpan |}.
End WithToFixed.
End Stats.

(** ** The outlier filter *)

Module Outliers.

(** [a[i]] for a number [i]: [undefined] below zero and past the end. *)
Definition at_ {A : Type} (l : list A) (i : Z) : option A :=
  if i <? 0 then None else l !! Z.to_nat i.

Definition totalLines (r : PRRecord) : Z := linesAdded r + linesDeleted r.

(** [None] is the [TypeError] of reading [totalLines] from [undefined],
    when the index computed from the percentile is negative. *)
Definition removeOutliers (records : list PRRecord) (percentile : Z)
  : option (list PRRecord) :=
  if Z.of_nat (length records) =? 0 then Some records
  else
    let recordsWithTotal := (λ r, (r, linesAdded r + linesDeleted r)) <$> records in
    let sorted := Aggregation.stableSort (λ a b, a.2 - b.2 <=? 0) recordsWithTotal in
    let percentileIndex := Z.of_nat (length sorted) * percentile / 100 in
    match at_ sorted (Z.min percentileIndex (Z.of_nat (length sorted) - 1)) with
    | Some entry =>
        let threshold := entry.2 in
        Some (fst <$> filter (λ e, e.2 ≤ threshold) recordsWithTotal)
    | None => None
    end.

(** The specification's reading of the threshold: the totals in ascending
    order, and the value at the clamped index. *)
Definition sortedTotals (records : list PRRecord) : list Z :=
  merge_sort Z.le (totalLines <$> records).

Definition thresholdIndex (n percentile : Z) : Z :=
  Z.min (n * percentile / 100) (n - 1).

(** A record with the given total, for the examples. *)
Definition withLines (n : Z) : PRRecord :=
  {| author := "Ada Lovelace"; authorEmail := "ada@example.org"; project := "Engine";
     repository := "notes"; closedDate := "2024-01-03"; prId := n;
     title := "change"; linesAdded := n; linesDeleted := 0 |}.

End Outliers.

(** ** Selection by time range, display names and chart series *)

Module Range.

(** [cutoff.toISOString().split('T')[0]] after
    [cutoff.setDate(cutoff.getDate() - rangeDays)]: [now] is the instant, in
    milliseconds, that [new Date()] reads from the clock, and [setDate]
    moves it back by [rangeDays] days, as it does in UTC and in every time
    zone without clock changes. *)
Definition cutoffStr (now rangeDays : Z) : string :=
  JS.toISODate ((now - rangeDays * JS.msPerDay) / JS.msPerDay).

(** [filterByRange]: [rangeDays] is [null] or an integer, and [!rangeDays]
    holds for [null] and for 0.  The comparison [>=] of two strings is the
    order of their code units. *)
Definition filterByRange (now : Z) (records : list PRRecord) (rangeDays : option Z)
  : list PRRecord :=
  match rangeDays with
  | None => records
  | Some n =>
      if n =? 0 then records
      else filter (λ r, String.le (cutoffStr now n) (closedDate r)) records
  end.

(** The day number of the clock reading. *)
Definition today (now : Z) : Z := now / JS.msPerDay.


(** Records closed on the given days of January 2024, for the examples. *)
Definition january (ds : list string) : list PRRecord :=
  (λ d, Aggregation.pr "alice" d "A" 1 0) <$> ds.
End Range.

Module Display.

(** [getFirstName]: [fullName.split(' ')[0]]. *)
Definition getFirstName (fullName : string) : string :=
  default EmptyString (JS.split " " fullName !! 0%nat).













Section Smoothed.
Context {num : Type}.
Variable zero : num.
Variable add : num → num → num.
Variable div : num → num → num.
Variable ofZ : Z → num.


End Smoothed.
End Display.

(** ** The dashboard: what it derives from the loaded records *)

Module Dashboard.

Inductive RangeKey : Type := week | month | threeMonths | year | all.

(** [RANGES[key].days] of [constants.ts]. *)
Definition rangeDays (key : RangeKey) : option Z :=
  match key with
  | week => Some 7
  | month => Some 30
  | threeMonths => Some 90
  | year => Some 365
  | all => None
  end.

Inductive DashboardMode : Type := velocity | impact.

Section WithClock.
Variable now : Z.

(** [filterByRange(allRecords, RANGES[selectedRange].days)] *)
Definition filteredRecords (allRecords : list PRRecord) (selectedRange : RangeKey)
  : list PRRecord :=
  Range.filterByRange now allRecords (rangeDays selectedRange).

(** [removeOutliers(filteredRecords, 99)] *)
Definition filteredRecordsForImpact (allRecords : list PRRecord) (selectedRange : RangeKey)
  : option (list PRRecord) :=
  Outliers.removeOutliers (filteredRecords allRecords selectedRange) 99.

Definition data (allRecords : list PRRecord) (selectedRange : RangeKey)
  : Aggregation.ProcessedData :=
  Aggregation.processData (filteredRecords allRecords selectedRange).

Definition impactData (allRecords : list PRRecord) (selectedRange : RangeKey)
  : option Aggregation.ImpactData :=
  filteredRecordsForImpact allRecords selectedRange ≫= Aggregation.processImpactData.

(** [mode === 'impact' ? impactData.authorList : data.authorList]; both
    views are computed whatever the mode, so there is a list only when
    [impactData] is there. *)
Definition activeAuthorList (allRecords : list PRRecord) (selectedRange : RangeKey)
    (mode : DashboardMode) : option (list string) :=
  out ← impactData allRecords selectedRange;
  Some match mode with
       | impact => Aggregation.impAuthorList out
       | velocity => Aggregation.authorList (data allRecords selectedRange)
       end.
End WithClock.

(** *** handleRefresh: the event stream of a refresh *)

(** What the handler tells apart in the value of [JSON.parse(jsonStr)]:
    its [type] is [progress], [complete], [error] or anything else; the
    argument is the value of [data.repo], [data.csv] or [data.message]. *)
Inductive RefreshEvent (value : Type) : Type :=
| Progress (repo : value)
| Complete (csv : value)
| Failure (message : value)
| Other.
Arguments Progress {value} repo.
Arguments Complete {value} csv.
Arguments Failure {value} message.
Arguments Other {value}.

(** [buffer], [csvContent] and [serverError] of the read loop, with the
    arguments of the calls of [setRefreshingRepo] in the loop, the latest
    last.  [None] is the initial [''] of [csvContent] and the initial
    [null] of [serverError]. *)
Record RefreshState (value : Type) : Type := {
  buffer : string;
  csvContent : option value;
  serverError : option value;
  refreshingRepo : list value
}.
Arguments buffer {value} _.
Arguments csvContent {value} _.
Arguments serverError {value} _.
Arguments refreshingRepo {value} _.

(** What [handleRefresh] does after the loop: it throws the server error,
    which ends in [setError], or loads the content, or does neither. *)
Inductive RefreshOutcome (value : Type) : Type :=
| RefreshFailed (message : value)
| RefreshLoaded (csv : value)
| RefreshIdle.
Arguments RefreshFailed {value} message.
Arguments RefreshLoaded {value} csv.
Arguments RefreshIdle {value}.

Definition dataPrefix : string := "data: ".

(** [line.slice(n)] for [n] at least 0. *)
Fixpoint slice (n : nat) (line : string) : string :=
  match n, line with
  | O, _ => line
  | S n', String _ line' => slice n' line'
  | S _, EmptyString => EmptyString
  end.

Section Refresh.
Context {value : Type}.

(** [JSON.parse(jsonStr)] read as the handler reads it; [None] when it
    throws, or gives [null], whose [type] cannot be read: both end in the
    [catch] that skips the line. *)
Variable parse : string → option (RefreshEvent value).

(** The truth value of [data.csv] and [data.message] in [if (...)]. *)
Variable truthyValue : value → bool.

Definition refreshInit : RefreshState value :=
  {| buffer := EmptyString; csvContent := None; serverError := None; refreshingRepo := [] |}.

Definition setBuffer (text : string) (st : RefreshState value) : RefreshState value :=
  {| buffer := text; csvContent := csvContent st; serverError := serverError st;
     refreshingRepo := refreshingRepo st |}.

(** The body of [for (const line of lines)]. *)
Definition handleLine (st : RefreshState value) (line : string) : RefreshState value :=
  if String.prefix dataPrefix line then
    match parse (slice 6 line) with
    | Some (Progress repo) =>
        {| buffer := buffer st; csvContent := csvContent st; serverError := serverError st;
           refreshingRepo := refreshingRepo st ++ [repo] |}
    | Some (Complete csv) =>
        {| buffer := buffer st; csvContent := Some csv; serverError := serverError st;
           refreshingRepo := refreshingRepo st |}
    | Some (Failure message) =>
        {| buffer := buffer st; csvContent := csvContent st; serverError := Some message;
           refreshingRepo := refreshingRepo st |}
    | Some Other => st
    | None => st
    end
  else st.

(** [lines.pop() || '']: the last piece. *)
Definition lastPiece (lines : list string) : string := default EmptyString (last lines).

(** One turn of the loop on the text of a chunk: [buffer += chunk], the
    split at the line ends, the last piece kept for the next turn, the
    other pieces handled in turn. *)
Definition readChunk (st : RefreshState value) (chunk : string) : RefreshState value :=
  let lines := JS.split Codec.newline (buffer st +:+ chunk) in
  foldl handleLine (setBuffer (lastPiece lines) st) (removelast lines).

(** The loop over the chunks that [reader.read()] gives until [done]. *)
Definition readAll (st : RefreshState value) (chunks : list string) : RefreshState value :=
  foldl readChunk st chunks.

Definition refreshOutcome (st : RefreshState value) : RefreshOutcome value :=
  match serverError st with
  | Some message =>
      if truthyValue message then RefreshFailed message
      else match csvContent st with
           | Some csv => if truthyValue csv then RefreshLoaded csv else RefreshIdle
           | None => RefreshIdle
           end
  | None =>
      match csvContent st with
      | Some csv => if truthyValue csv then RefreshLoaded csv else RefreshIdle
      | None => RefreshIdle
      end
  end.

(** [handleRefresh] on a response that is read to its end. *)
Definition handleRefresh (chunks : list string) : RefreshOutcome value :=
  refreshOutcome (readAll refreshInit chunks).

(** The chunks as one text. *)
Definition wholeText (chunks : list string) : string := foldr append EmptyString chunks.
End Refresh.
End Dashboard.

(** ** The file of the earlier fetcher *)

Module Legacy.
Import Codec.

(** The encoder of the fetcher before the line counts were added: seven
    columns, the title last. *)
Definition csvHeader : string :=
  "Author,AuthorEmail,Project,Repository,ClosedDate,PRId,Title".

Definition csvLine (r : PRRecord) : string :=
  author r +:+ "," +:+ authorEmail r +:+ "," +:+ project r +:+ "," +:+
  repository r +:+ "," +:+ closedDate r +:+ "," +:+
  JS.numberToString (prId r) +:+ "," +:+ escapedTitle r.

Definition encodeCSV (records : list PRRecord) : string :=
  JS.join (str newline) (csvHeader :: (csvLine <$> records)).

(** What [parseCSV] reads back from a line of seven columns: the two
    line counts are missing and read as 0. *)
Definition decoded (r : PRRecord) : PRRecord :=
  {| author := author r; authorEmail := authorEmail r; project := project r;
     repository := repository r; closedDate := closedDate r; prId := prId r;
     title := withoutQuotes (title r);
     linesAdded := 0; linesDeleted := 0 |}.
End Legacy.

(** ** The run of the fetcher over the repositories and its export *)

Module Run.
Import Fetcher.

(** An item of the repository list: [repo.project?.name], [repo.name] and
    [repo.id]. *)
Record Repository : Type := {
  repoProject : option string;
  repoName : option string;
  repoId : string
}.

Section WithUpstream.
Variable api : Upstream.
Variable cutoffDate : Z.
Variable fetchLOCStats : bool.

(** [for (const repo of repos)]: a repository without a project name or
    without a name is passed over; for every other one [onProgress] is
    called with its name and its pages are read into [allRecords], which
    all repositories share.  [fuel] bounds the iterations of the page loop
    of each repository; [progress] lists the calls of [onProgress]. *)
Fixpoint repoLoop (fuel : nat) (repos : list Repository)
    (allRecords : list PRRecord) (progress : list string)
  : option (list PRRecord * list string) :=
  match repos with
  | [] => Some (allRecords, progress)
  | repo :: rest =>
      match repoProject repo, repoName repo with
      | Some (String c p), Some (String c' n) =>
          match pageLoop api cutoffDate fetchLOCStats fuel (String c p) (String c' n)
                         (repoId repo) 0 allRecords [] with
          | Some (allRecords', _) =>
              repoLoop fuel rest allRecords' (progress ++ [String c' n])
          | None => None
          end
      | _, _ => repoLoop fuel rest allRecords progress
      end
  end.

(** The project name and the name of a repository that is not passed
    over. *)
Definition named (repo : Repository) : option (string * string) :=
  match repoProject repo, repoName repo with
  | Some (String c p), Some (String c' n) => Some (String c p, String c' n)
  | _, _ => None
  end.

(** The records that the pages of one repository give. *)
Definition recordsOfPages (repo : Repository) (pages : list (list PullRequest))
  : list PRRecord :=
  match named repo with
  | Some (projectName, name) =>
      omap (recordOf api cutoffDate fetchLOCStats projectName name (repoId repo))
           (concat pages)
  | None => []
  end.

(** The upstream serves the pages of a repository, the last one short, and
    the fuel covers them. *)
Definition servesRepository (fuel : nat) (repo : Repository)
    (pages : list (list PullRequest)) : Prop :=
  match named repo with
  | Some (projectName, _) =>
      servesFrom api projectName (repoId repo) 0 pages ∧
      endsWithShortPage pages ∧ (length pages ≤ fuel)%nat
  | None => True
  end.
End WithUpstream.

(** An upstream that serves the given pages of pull requests in order and
    answers every request behind them with a failure status. *)
Definition failingAfter (pages : list (list PullRequest)) : Upstream :=
  {| listPullRequests := λ _ _ _ skip,
       match pages !! Z.to_nat (skip / top) with
       | Some page => Ok (Some page)
       | None => NotOk
       end;
     listCommits := λ _ _ _, NotOk;
     getCommit := λ _ _ _, NotOk |}.

(** Two repositories for the examples, the second without a project. *)
Definition sampleRepositories : list Repository :=
  [ {| repoProject := Some "Engine"; repoName := Some "notes"; repoId := "r1" |};
    {| repoProject := None; repoName := Some "orphan"; repoId := "r2" |} ].

(** *** Sorting, the summary and the export *)

Record Summary : Type := {
  byAuthor : gmap string Z;
  byProject : gmap string Z;
  byMonth : gmap string Z;
  totalPRs : Z;
  locByAuthor : gmap string (Z * Z);
  totalLinesAdded : Z;
  totalLinesDeleted : Z
}.

(** The state of the loop that builds the summary. *)
Definition summaryInit : Summary :=
  {| byAuthor := ∅; byProject := ∅; byMonth := ∅; totalPRs := 0;
     locByAuthor := ∅; totalLinesAdded := 0; totalLinesDeleted := 0 |}.

(** The body of the second [for (const r of allRecords)]; the month is
    [r.closedDate.substring(0, 7)]. *)
Definition summaryStep (st : Summary) (r : PRRecord) : Summary :=
  let month := String.substring 0 7 (closedDate r) in
  {| byAuthor := Aggregation.countUp (byAuthor st) (author r);
     byProject := Aggregation.countUp (byProject st) (project r);
     byMonth := Aggregation.countUp (byMonth st) month;
     totalPRs := totalPRs st;
     locByAuthor :=
       Aggregation.tallyUp (locByAuthor st) (author r) (linesAdded r) (linesDeleted r);
     totalLinesAdded := totalLinesAdded st + linesAdded r;
     totalLinesDeleted := totalLinesDeleted st + linesDeleted r |}.

(** The object written as the summary: [totalPRs] is [allRecords.length]. *)
Definition summarize (allRecords : list PRRecord) : Summary :=
  let st := foldl summaryStep summaryInit allRecords in
  {| byAuthor := byAuthor st; byProject := byProject st; byMonth := byMonth st;
     totalPRs := Z.of_nat (length allRecords);
     locByAuthor := locByAuthor st;
     totalLinesAdded := totalLinesAdded st;
     totalLinesDeleted := totalLinesDeleted st |}.

Section WithLocale.
(** [a.localeCompare(b)]: negative, zero or positive as the collation of
    the runtime orders [a] and [b]. *)
Variable localeCompare : string → string → Z.

(** [allRecords.sort((a, b) => a.closedDate.localeCompare(b.closedDate))] *)
Definition sortByDate (allRecords : list PRRecord) : list PRRecord :=
  Aggregation.stableSort
    (λ a b, localeCompare (closedDate a) (closedDate b) <=? 0) allRecords.

(** What follows the loop over the repositories: the records are sorted
    by date, written as CSV and summarized; the CSV text is returned. *)
Definition export (allRecords : list PRRecord) : string * Summary :=
  let sorted := sortByDate allRecords in
  (Codec.encodeCSV sorted, summarize sorted).
End WithLocale.

(** The order of the code units as a collation. *)
Definition codeUnitCompare (a b : string) : Z :=
  match String.compare a b with
  | Lt => -1
  | Eq => 0
  | Gt => 1
  end.

(** A collation is a total preorder: its sign is antisymmetric and
    transitive. *)
Definition collation (cmp : string → string → Z) : Prop :=
  (∀ a b, cmp a b ≤ 0 ∨ cmp b a ≤ 0) ∧
  (∀ a b c, cmp a b ≤ 0 → cmp b c ≤ 0 → cmp a c ≤ 0).
End Run.

(** * Properties *)

(** ** The runtime functions on examples *)

Section RuntimeExamples.
Import JS.

Example trim_ex : trim (String " " "a b" +:+ String "010" " ") = "a b".
Proof. reflexivity. Qed.
Example split_ex : split "," "a,,b," = ["a"; EmptyString; "b"; EmptyString].
Proof. reflexivity. Qed.
Example join_ex : join "," ["a"; EmptyString; "b"] = "a,,b".
Proof. reflexivity. Qed.
Example parseInt_ex :
  parseInt " -12ab" = Some (-12) ∧ parseInt "0x1f" = Some 31 ∧
  parseInt EmptyString = None ∧ parseInt "x1" = None ∧ parseInt "007" = Some 7.
Proof. repeat split; reflexivity. Qed.
Example numberToString_ex :
  numberToString 0 = "0" ∧ numberToString 1203 = "1203" ∧ numberToString (-45) = "-45".
Proof. repeat split; reflexivity. Qed.
Example parseISODate_ex :
  parseISODate "1970-01-01" = Some 0 ∧ parseISODate "2024-02-29" = Some 19782 ∧
  parseISODate "2023-02-29" = None ∧ parseISODate "2024-3-01" = None ∧
  parseISODate "2000-03-01" = Some 11017.
Proof. repeat split; reflexivity. Qed.
Example toISODate_ex :
  toISODate 0 = "1970-01-01" ∧ toISODate 19782 = "2024-02-29" ∧
  toISODate 19783 = "2024-03-01" ∧ toISODate (-1) = "1969-12-31" ∧
  toISODate 11016 = "2000-02-29" ∧ toISODate 19723 = "2024-01-01" ∧
  toISODate 20088 = "2024-12-31" ∧ toISODate (-719528) = "0000-01-01".
Proof. repeat split; reflexivity. Qed.
End RuntimeExamples.

(** ** The calendar *)

Section DateProperties.
Import JS.

Lemma isLeapYear_spec y : isLeapYear y = true ↔ (y mod 4 = 0 ∧ (y mod 100 ≠ 0 ∨ y mod 400 = 0)).
Proof.
  unfold isLeapYear. rewrite andb_true_iff, orb_true_iff, negb_true_iff, !Z.eqb_eq, Z.eqb_neq. tauto.
Qed.

Lemma dayFromYear_succ y : dayFromYear (y + 1) = dayFromYear y + daysInYear y.
Proof.
  unfold dayFromYear, daysInYear.
  destruct (isLeapYear y) eqn:Hl.
  - apply isLeapYear_spec in Hl. Z.div_mod_to_equations; lia.
  - assert (Hn : ¬ (y mod 4 = 0 ∧ (y mod 100 ≠ 0 ∨ y mod 400 = 0))).
    { rewrite <- isLeapYear_spec, Hl. discriminate. }
    Z.div_mod_to_equations; lia.
Qed.

Lemma daysInYear_cases y : daysInYear y = 365 ∨ daysInYear y = 366.
Proof. unfold daysInYear. destruct (isLeapYear y); auto. Qed.

Lemma dayFromYear_pred y : dayFromYear (y - 1) = dayFromYear y - daysInYear (y - 1).
Proof. pose proof (dayFromYear_succ (y - 1)) as H. replace (y - 1 + 1) with y in H by lia. lia. Qed.

Lemma yearFromDay_bounds n :
  dayFromYear (yearFromDay n) ≤ n < dayFromYear (yearFromDay n + 1).
Proof.
  unfold yearFromDay.
  set (g := 1970 + 400 * n / 146097).
  assert (Hg : 146097 * (g - 1970) ≤ 400 * n < 146097 * (g - 1970) + 146097).
  { subst g. Z.div_mod_to_equations. lia. }
  clearbody g.
  pose proof (dayFromYear_succ g) as H1.
  pose proof (dayFromYear_succ (g + 1)) as H2.
  pose proof (dayFromYear_pred g) as H3.
  pose proof (daysInYear_cases g). pose proof (daysInYear_cases (g+1)). pose proof (daysInYear_cases (g-1)).
  replace (g + 1 + 1) with (g + 2) in * by lia.
  assert (Hlo : 400 * dayFromYear g - 146097 * (g - 1970) ≤ 146097 - 400 + 600).
  { unfold dayFromYear. Z.div_mod_to_equations; lia. }
  assert (Hhi : - 600 ≤ 400 * dayFromYear g - 146097 * (g - 1970)).
  { unfold dayFromYear. Z.div_mod_to_equations; lia. }
  destruct (Z.leb_spec (dayFromYear (g + 1)) n).
  - replace (g + 1 + 1) with (g + 2) by lia. split; [lia|]. lia.
  - destruct (Z.leb_spec (dayFromYear g) n).
    + lia.
    + replace (g - 1 + 1) with g by lia. split; [|lia]. lia.
Qed.

Lemma dayFromYear_mono y y' : y ≤ y' → dayFromYear y ≤ dayFromYear y'.
Proof. intros H. unfold dayFromYear. Z.div_mod_to_equations; lia. Qed.

Lemma yearFromDay_unique n y :
  dayFromYear y ≤ n < dayFromYear (y + 1) → yearFromDay n = y.
Proof.
  intros Hy. pose proof (yearFromDay_bounds n) as Hb.
  destruct (Z.lt_trichotomy (yearFromDay n) y) as [Hlt|[Heq|Hgt]]; [|exact Heq|].
  - pose proof (dayFromYear_mono (yearFromDay n + 1) y ltac:(lia)). lia.
  - pose proof (dayFromYear_mono (y + 1) (yearFromDay n) ltac:(lia)). lia.
Qed.


Ltac month_cases m :=
  assert (m = 1 ∨ m = 2 ∨ m = 3 ∨ m = 4 ∨ m = 5 ∨ m = 6 ∨
          m = 7 ∨ m = 8 ∨ m = 9 ∨ m = 10 ∨ m = 11 ∨ m = 12) as Hmonth by lia;
  destruct Hmonth as [->|[->|[->|[->|[->|[->|[->|[->|[->|[->|[->| ->]]]]]]]]]]].

Lemma dayInYear_bounds y m d :
  validCivil y m d → 0 ≤ daysBeforeMonth y m + (d - 1) < daysInYear y.
Proof.
  intros [Hm Hd]. unfold daysInMonth, daysBeforeMonth, daysInYear in *.
  month_cases m; cbn in *; destruct (isLeapYear y); lia.
Qed.

Lemma civilOfDay_dayOfCivil y m d :
  validCivil y m d → civilOfDay (dayOfCivil y m d) = (y, m, d).
Proof.
  intros Hv. pose proof (dayInYear_bounds y m d Hv) as Hb.
  unfold civilOfDay, dayOfCivil.
  rewrite (yearFromDay_unique _ y) by (rewrite dayFromYear_succ; lia).
  replace (dayFromYear y + daysBeforeMonth y m + (d - 1) - dayFromYear y)
    with (daysBeforeMonth y m + (d - 1)) by lia.
  destruct Hv as [Hm Hd]. unfold monthFromDayInYear, daysBeforeMonth, daysInMonth, daysInYear in *.
  month_cases m; cbn in *; destruct (isLeapYear y);
    repeat (match goal with |- context [?a <? ?b] => destruct (Z.ltb_spec a b); try lia end);
    cbn; f_equal; lia.
Qed.

Lemma dayOfCivil_civilOfDay n y m d :
  civilOfDay n = (y, m, d) → validCivil y m d ∧ dayOfCivil y m d = n.
Proof.
  unfold civilOfDay. pose proof (yearFromDay_bounds n) as Hb.
  rewrite dayFromYear_succ in Hb.
  set (y0 := yearFromDay n) in *. clearbody y0.
  set (diy := n - dayFromYear y0).
  assert (Hdiy : 0 ≤ diy < daysInYear y0) by (subst diy; lia).
  assert (Hn : n = dayFromYear y0 + diy) by (subst diy; lia).
  clearbody diy. subst n. clear Hb.
  intros [= <- <- <-]. unfold validCivil, dayOfCivil.
  unfold monthFromDayInYear, daysBeforeMonth, daysInMonth, daysInYear in *.
  destruct (isLeapYear y0); cbn in *;
    repeat (match goal with |- context [?a <? ?b] => destruct (Z.ltb_spec a b); cbn end);
    lia.
Qed.

Lemma daysBeforeMonth_mono y m m' :
  1 ≤ m → m < m' → m' ≤ 12 → daysBeforeMonth y m + daysInMonth y m ≤ daysBeforeMonth y m'.
Proof.
  intros H1 H2 H3. unfold daysBeforeMonth, daysInMonth.
  destruct (isLeapYear y); month_cases m; try lia; month_cases m'; try lia; cbn; lia.
Qed.

Lemma dayOfCivil_mono y m d y' m' d' :
  validCivil y m d → validCivil y' m' d' →
  10000 * y + 100 * m + d ≤ 10000 * y' + 100 * m' + d' →
  dayOfCivil y m d ≤ dayOfCivil y' m' d'.
Proof.
  intros Hv Hv' Hkey.
  pose proof (dayInYear_bounds y m d Hv) as Hb.
  pose proof (dayInYear_bounds y' m' d' Hv') as Hb'.
  unfold dayOfCivil.
  assert (Hdim : ∀ y m, daysInMonth y m ≤ 31).
  { intros y0 m0. unfold daysInMonth.
    destruct (m0 =? 2), (isLeapYear y0), ((m0 =? 4) || (m0 =? 6) || (m0 =? 9) || (m0 =? 11)); lia. }
  pose proof (Hdim y m). pose proof (Hdim y' m').
  destruct Hv as [Hm Hd], Hv' as [Hm' Hd'].
  destruct (Z.lt_trichotomy y y') as [Hlt|[<-|Hgt]]; [| |lia].
  - pose proof (dayFromYear_mono (y + 1) y' ltac:(lia)) as Hmono.
    rewrite dayFromYear_succ in Hmono. lia.
  - destruct (Z.lt_trichotomy m m') as [Hlt|[<-|Hgt]]; [| |lia].
    + pose proof (daysBeforeMonth_mono y m m' ltac:(lia) Hlt ltac:(lia)). lia.
    + lia.
Qed.

Lemma digitOf_bounds c : isDigit c = true → 0 ≤ digitOf c ≤ 9.
Proof.
  unfold isDigit, digitOf. rewrite andb_true_iff, !N.leb_le. lia.
Qed.

Lemma digitChar_digitOf c : isDigit c = true → digitChar (digitOf c) = c.
Proof.
  intros H. pose proof (digitOf_bounds c H). unfold digitChar, digitOf in *.
  replace (Z.to_N (48 + (Z.of_N (N_of_ascii c) - 48))) with (N_of_ascii c) by lia.
  apply ascii_N_embedding.
Qed.

Lemma digitOf_digitChar d : 0 ≤ d ≤ 9 → digitOf (digitChar d) = d ∧ isDigit (digitChar d) = true.
Proof.
  intros H. unfold digitOf, isDigit, digitChar.
  rewrite N_ascii_embedding by lia.
  rewrite andb_true_iff, !N.leb_le. lia.
Qed.

Lemma compare_digits c c' : Ascii.compare c c' = (digitOf c ?= digitOf c').
Proof.
  unfold Ascii.compare, digitOf.
  destruct (N.compare_spec (N_of_ascii c) (N_of_ascii c')); symmetry;
    [apply Z.compare_eq_iff | apply Z.compare_lt_iff | apply Z.compare_gt_iff]; lia.
Qed.

(** The shape of a text that [parseISODate] accepts. *)
Lemma parseISODate_Some s n :
  parseISODate s = Some n →
  ∃ y1 y2 y3 y4 m1 m2 d1 d2,
    s = String y1 (String y2 (String y3 (String y4 (String "-"
          (String m1 (String m2 (String "-" (String d1 (String d2 EmptyString))))))))) ∧
    Forall (λ c, isDigit c = true) [y1; y2; y3; y4; m1; m2; d1; d2] ∧
    let y := 1000 * digitOf y1 + 100 * digitOf y2 + 10 * digitOf y3 + digitOf y4 in
    let m := 10 * digitOf m1 + digitOf m2 in
    let d := 10 * digitOf d1 + digitOf d2 in
    validCivil y m d ∧ n = dayOfCivil y m d.
Proof.
  unfold parseISODate.
  destruct s as [|y1 [|y2 [|y3 [|y4 [|h1 [|m1 [|m2 [|h2 [|d1 [|d2 [|? ?]]]]]]]]]]];
    try discriminate.
  destruct (forallb isDigit _ && _ && _) eqn:Hshape; [|discriminate].
  apply andb_true_iff in Hshape as [Hshape Hh2].
  apply andb_true_iff in Hshape as [Hdigits Hh1].
  apply Ascii.eqb_eq in Hh1 as ->. apply Ascii.eqb_eq in Hh2 as ->.
  destruct (_ && _ && _ && _) eqn:Hvalid; [|discriminate].
  intros [= <-]. exists y1, y2, y3, y4, m1, m2, d1, d2.
  split; [reflexivity|]. split.
  { apply Forall_forall. intros c Hc. apply (proj1 (forallb_forall _ _) Hdigits).
    apply list_elem_of_In. exact Hc. }
  cbv zeta. split; [|reflexivity].
  rewrite !andb_true_iff, !Z.leb_le in Hvalid. unfold validCivil. lia.
Qed.

Lemma padDigits_2 a b :
  0 ≤ a ≤ 9 → 0 ≤ b ≤ 9 →
  padDigits 2 (10 * a + b) EmptyString = String (digitChar a) (String (digitChar b) EmptyString).
Proof.
  intros Ha Hb. cbn [padDigits].
  replace ((10 * a + b) mod 10) with b by (Z.div_mod_to_equations; lia).
  replace ((10 * a + b) / 10 mod 10) with a by (Z.div_mod_to_equations; lia).
  reflexivity.
Qed.

Lemma padDigits_4 a b c e :
  0 ≤ a ≤ 9 → 0 ≤ b ≤ 9 → 0 ≤ c ≤ 9 → 0 ≤ e ≤ 9 →
  padDigits 4 (1000 * a + 100 * b + 10 * c + e) EmptyString =
  String (digitChar a) (String (digitChar b) (String (digitChar c) (String (digitChar e) EmptyString))).
Proof.
  intros Ha Hb Hc He. cbn [padDigits].
  set (y := 1000 * a + 100 * b + 10 * c + e).
  replace (y mod 10) with e by (subst y; Z.div_mod_to_equations; lia).
  replace (y / 10 mod 10) with c by (subst y; Z.div_mod_to_equations; lia).
  replace (y / 10 / 10 mod 10) with b by (subst y; Z.div_mod_to_equations; lia).
  replace (y / 10 / 10 / 10 mod 10) with a by (subst y; Z.div_mod_to_equations; lia).
  reflexivity.
Qed.

(** Printing the day that a date text denotes gives the text back. *)
Lemma toISODate_parseISODate s n : parseISODate s = Some n → toISODate n = s.
Proof.
  intros Hs. apply parseISODate_Some in Hs
    as (y1 & y2 & y3 & y4 & m1 & m2 & d1 & d2 & -> & Hdigits & Hv & ->).
  cbv zeta in Hv.
  repeat (let Hd := fresh "Hd" in
          apply Forall_cons in Hdigits as [Hd Hdigits];
          pose proof (digitOf_bounds _ Hd)).
  unfold toISODate. rewrite (civilOfDay_dayOfCivil _ _ _ Hv).
  set (y := 1000 * digitOf y1 + _ + _ + _).
  destruct ((0 <=? y) && (y <=? 9999)) eqn:Hy.
  2:{ rewrite andb_false_iff, !Z.leb_gt in Hy. subst y. lia. }
  subst y. rewrite padDigits_4, !padDigits_2 by assumption.
  rewrite !digitChar_digitOf by assumption. reflexivity.
Qed.

Lemma parseISODate_digits a b c e f g h i :
  0 ≤ a ≤ 9 → 0 ≤ b ≤ 9 → 0 ≤ c ≤ 9 → 0 ≤ e ≤ 9 →
  0 ≤ f ≤ 9 → 0 ≤ g ≤ 9 → 0 ≤ h ≤ 9 → 0 ≤ i ≤ 9 →
  validCivil (1000 * a + 100 * b + 10 * c + e) (10 * f + g) (10 * h + i) →
  parseISODate
    (String (digitChar a) (String (digitChar b) (String (digitChar c) (String (digitChar e)
      (String "-" (String (digitChar f) (String (digitChar g)
        (String "-" (String (digitChar h) (String (digitChar i) EmptyString)))))))))) =
  Some (dayOfCivil (1000 * a + 100 * b + 10 * c + e) (10 * f + g) (10 * h + i)).
Proof.
  intros Ha Hb Hc He Hf Hg Hh Hi Hv. unfold parseISODate. cbn [forallb].
  destruct (digitOf_digitChar a Ha) as [-> ->], (digitOf_digitChar b Hb) as [-> ->],
    (digitOf_digitChar c Hc) as [-> ->], (digitOf_digitChar e He) as [-> ->],
    (digitOf_digitChar f Hf) as [-> ->], (digitOf_digitChar g Hg) as [-> ->],
    (digitOf_digitChar h Hh) as [-> ->], (digitOf_digitChar i Hi) as [-> ->].
  cbn [andb Ascii.eqb]. change (Ascii.eqb "-" "-") with true. cbn [andb].
  destruct Hv as [Hm Hd].
  destruct (_ && _ && _ && _) eqn:Hvalid; [reflexivity|].
  rewrite !andb_false_iff, !Z.leb_gt in Hvalid. lia.
Qed.

(** Reading the text printed for a day of the years 0 to 9999 gives the
    day back. *)
Lemma parseISODate_toISODate n :
  0 ≤ yearFromDay n ≤ 9999 → parseISODate (toISODate n) = Some n.
Proof.
  intros Hy. unfold toISODate.
  destruct (civilOfDay n) as [[y m] d] eqn:Hc.
  assert (y = yearFromDay n) as Hyy by (unfold civilOfDay in Hc; congruence).
  apply dayOfCivil_civilOfDay in Hc as [Hv <-].
  destruct ((0 <=? y) && (y <=? 9999)) eqn:Hrange.
  2:{ rewrite andb_false_iff, !Z.leb_gt in Hrange. lia. }
  assert (Hdim : daysInMonth y m ≤ 31).
  { unfold daysInMonth.
    destruct (m =? 2), (isLeapYear y), ((m =? 4) || (m =? 6) || (m =? 9) || (m =? 11)); lia. }
  destruct Hv as [Hm Hd].
  assert (Ey : y = 1000 * (y / 10 / 10 / 10 mod 10) + 100 * (y / 10 / 10 mod 10)
                   + 10 * (y / 10 mod 10) + y mod 10)
    by (Z.div_mod_to_equations; lia).
  assert (Em : m = 10 * (m / 10 mod 10) + m mod 10) by (Z.div_mod_to_equations; lia).
  assert (Ed : d = 10 * (d / 10 mod 10) + d mod 10) by (Z.div_mod_to_equations; lia).
  cbv [padDigits String.append].
  rewrite parseISODate_digits; try (Z.div_mod_to_equations; lia).
  - rewrite <- Ey, <- Em, <- Ed. reflexivity.
  - rewrite <- Ey, <- Em, <- Ed. split; assumption.
Qed.

(** On date texts the order of the code units is the order of the days. *)
Lemma parseISODate_mono s s' n n' :
  parseISODate s = Some n → parseISODate s' = Some n' → String.le s s' → n ≤ n'.
Proof.
  intros Hs Hs' Hle.
  apply parseISODate_Some in Hs
    as (y1 & y2 & y3 & y4 & m1 & m2 & d1 & d2 & -> & Hdigits & Hv & ->).
  apply parseISODate_Some in Hs'
    as (y1' & y2' & y3' & y4' & m1' & m2' & d1' & d2' & -> & Hdigits' & Hv' & ->).
  cbv zeta in Hv, Hv'.
  repeat (apply Forall_cons in Hdigits as [?%digitOf_bounds Hdigits]).
  repeat (apply Forall_cons in Hdigits' as [?%digitOf_bounds Hdigits']).
  apply dayOfCivil_mono; [exact Hv | exact Hv' |].
  unfold String.le, String.leb in Hle. cbn [String.compare] in Hle.
  change (Ascii.compare "-" "-") with Eq in Hle. cbv iota in Hle.
  rewrite !compare_digits in Hle.
  repeat (match type of Hle with
          | context [?a ?= ?b] => destruct (Z.compare_spec a b); try lia
          end).
  all: try (cbn in Hle; destruct Hle).
Qed.

End DateProperties.

(** ** calculateMovingAverage *)

Section MovingAverageProperties.
Import MovingAverage.
Context {num : Type}.
Variable zero : num.
Variable add : num → num → num.
Variable div : num → num → num.
Variable ofZ : Z → num.

Lemma windowStep_foldl (data : list num) (n : nat) :
  ∀ (a : Z) (s : num) (c : Z),
    foldl (windowStep add data) (s, c) (seqZ a (Z.of_nat n)) =
    (foldl add s (inBounds data a (a + Z.of_nat n - 1)),
     c + Z.of_nat (length (inBounds data a (a + Z.of_nat n - 1)))).
Proof.
  induction n as [|n IH]; intros a s c.
  - unfold inBounds.
    replace (Z.to_nat (Z.min _ _ - _ + 1)) with 0%nat by lia.
    rewrite take_0. cbn [foldl length]. rewrite Z.add_0_r. reflexivity.
  - rewrite Nat2Z.inj_succ, seqZ_cons by lia.
    replace (Z.pred (Z.succ (Z.of_nat n))) with (Z.of_nat n) by lia.
    cbn [foldl]. unfold windowStep at 2. cbn [fst snd].
    destruct (Z.leb_spec 0 a) as [Ha|Ha]; cbn [andb].
    + destruct (Z.ltb_spec a (Z.of_nat (length data))) as [Hb|Hb].
      * destruct (data !! Z.to_nat a) as [x|] eqn:Hx.
        2:{ apply lookup_ge_None in Hx. lia. }
        rewrite IH. unfold inBounds.
        replace (Z.succ a + Z.of_nat n - 1) with (a + Z.succ (Z.of_nat n) - 1) by lia.
        replace (Z.max a 0) with a by lia.
        replace (Z.max (Z.succ a) 0) with (Z.succ a) by lia.
        set (hi := Z.min _ _).
        replace (Z.to_nat (hi - a + 1)) with (S (Z.to_nat (hi - Z.succ a + 1)))
          by (subst hi; lia).
        replace (Z.to_nat (Z.succ a)) with (S (Z.to_nat a)) by lia.
        rewrite (drop_S _ _ _ Hx). cbn [take foldl length]. f_equal. lia.
      * rewrite IH. unfold inBounds.
        rewrite !drop_ge by lia. rewrite !take_nil. cbn. f_equal.
    + rewrite IH. unfold inBounds.
      replace (Z.succ a + Z.of_nat n - 1) with (a + Z.succ (Z.of_nat n) - 1) by lia.
      replace (Z.max a 0) with 0 by lia. replace (Z.max (Z.succ a) 0) with 0 by lia.
      reflexivity.
Qed.

Lemma windowLoop_inBounds (data : list num) (h i : Z) :
  0 ≤ h →
  windowLoop zero add data h i =
  (foldl add zero (inBounds data (i - h) (i + h)),
   Z.of_nat (length (inBounds data (i - h) (i + h)))).
Proof.
  intros Hh. unfold windowLoop.
  replace (i + h - (i - h) + 1) with (Z.of_nat (Z.to_nat (2 * h + 1))) by lia.
  rewrite windowStep_foldl.
  replace (i - h + Z.of_nat (Z.to_nat (2 * h + 1)) - 1) with (i + h) by lia.
  f_equal.
Qed.

Lemma inBounds_length (data : list num) (lo hi : Z) :
  Z.of_nat (length (inBounds data lo hi)) =
  Z.max 0 (Z.min hi (Z.of_nat (length data) - 1) - Z.max lo 0 + 1).
Proof. unfold inBounds. rewrite length_take, length_drop. lia. Qed.

(** C5: for a window size above one, the smoothed series has the length
    of the input and its element at every index [i] is the arithmetic mean
    of exactly the input elements whose index lies in
    [i - floor(windowSize/2), i + floor(windowSize/2)] and inside the
    series; that window is never empty, and at the edges it holds fewer
    elements rather than padding. *)
Theorem moving_average_centered_window (data : list num) (windowSize : Z) :
  1 < windowSize →
  length (calculateMovingAverage zero add div ofZ data windowSize) = length data ∧
  ∀ i : nat, (i < length data)%nat →
    let halfWindow := windowSize / 2 in
    let window := inBounds data (Z.of_nat i - halfWindow) (Z.of_nat i + halfWindow) in
    calculateMovingAverage zero add div ofZ data windowSize !! i = Some (mean zero add div ofZ window) ∧
    Z.of_nat (length window) =
      Z.min (Z.of_nat i + halfWindow) (Z.of_nat (length data) - 1)
      - Z.max (Z.of_nat i - halfWindow) 0 + 1 ∧
    (0 < length window)%nat.
Proof.
  intros Hw. unfold calculateMovingAverage.
  destruct (Z.leb_spec windowSize 1) as [?|_]; [lia|].
  assert (Hh : 0 < windowSize / 2) by (apply Z.div_str_pos; lia).
  split.
  { rewrite length_fmap, length_seqZ. lia. }
  intros i Hi. cbv zeta.
  set (halfWindow := windowSize / 2) in *.
  set (window := inBounds data (Z.of_nat i - halfWindow) (Z.of_nat i + halfWindow)).
  assert (Hlen : Z.of_nat (length window) =
      Z.min (Z.of_nat i + halfWindow) (Z.of_nat (length data) - 1)
      - Z.max (Z.of_nat i - halfWindow) 0 + 1).
  { subst window. rewrite inBounds_length. subst halfWindow. lia. }
  split; [|split; [exact Hlen | subst halfWindow; lia]].
  rewrite list_lookup_fmap, lookup_seqZ_lt by lia. cbn [fmap option_fmap option_map].
  f_equal. unfold smoothedAt. rewrite Z.add_0_l.
  rewrite windowLoop_inBounds by lia. fold halfWindow. fold window.
  destruct (Z.ltb_spec 0 (Z.of_nat (length window))) as [_|?]; [reflexivity|].
  subst halfWindow. lia.
Qed.

(** C6: for a window size of at most one the series is returned
    unchanged. *)
Theorem moving_average_identity (data : list num) (windowSize : Z) :
  windowSize ≤ 1 → calculateMovingAverage zero add div ofZ data windowSize = data.
Proof.
  intros Hw. unfold calculateMovingAverage.
  destruct (Z.leb_spec windowSize 1); [reflexivity | lia].
Qed.
End MovingAverageProperties.

Lemma moving_average_centered_window_witness :
  let smoothed := MovingAverage.calculateMovingAverage 0%Q Qplus Qdiv inject_Z MovingAverage.sampleSeries 3 in
  length smoothed = 4%nat ∧
  smoothed !! 0%nat =
    Some (MovingAverage.mean 0%Q Qplus Qdiv inject_Z (inject_Z <$> [1; 2])) ∧
  smoothed !! 2%nat =
    Some (MovingAverage.mean 0%Q Qplus Qdiv inject_Z (inject_Z <$> [2; 4; 8])) ∧
  smoothed !! 3%nat =
    Some (MovingAverage.mean 0%Q Qplus Qdiv inject_Z (inject_Z <$> [4; 8])).
Proof.
  destruct (moving_average_centered_window 0%Q Qplus Qdiv inject_Z MovingAverage.sampleSeries 3
              ltac:(lia)) as [Hlen Hat].
  cbv zeta. split; [exact Hlen|].
  split; [|split].
  - exact (proj1 (Hat 0%nat ltac:(cbn; lia))).
  - exact (proj1 (Hat 2%nat ltac:(cbn; lia))).
  - exact (proj1 (Hat 3%nat ltac:(cbn; lia))).
Defined.

Lemma moving_average_identity_witness :
  MovingAverage.calculateMovingAverage 0%Q Qplus Qdiv inject_Z MovingAverage.sampleSeries 1 = MovingAverage.sampleSeries ∧
  MovingAverage.calculateMovingAverage 0%Q Qplus Qdiv inject_Z MovingAverage.sampleSeries (-3) = MovingAverage.sampleSeries.
Proof.
  split.
  - apply (moving_average_identity 0%Q Qplus Qdiv inject_Z MovingAverage.sampleSeries 1). lia.
  - apply (moving_average_identity 0%Q Qplus Qdiv inject_Z MovingAverage.sampleSeries (-3)). lia.
Defined.

(** ** The record codec *)

Section CodecProperties.
Import Codec.

Example encodeCSV_ex :
  encodeCSV [sampleRecord "Fix a, b"] =
  csvHeader +:+ str newline +:+
  "Ada Lovelace,ada@example.org,Engine,notes,2024-01-03,17," +:+
  str dquote +:+ "Fix a, b" +:+ str dquote +:+ ",120,0".
Proof. reflexivity. Qed.

Example parseCSV_comma_ex :
  parseCSV (encodeCSV [sampleRecord "Fix a, b"; sampleRecord EmptyString]) =
  [sampleRecord "Fix a, b"; sampleRecord EmptyString].
Proof. reflexivity. Qed.

Example parseCSV_short_line_ex :
  parseCSV ("h" +:+ str newline +:+ "a,b,c,d" +:+ str newline +:+ "a,b,c,d,e" +:+ str newline) =
  [ {| author := "a"; authorEmail := "b"; project := "c"; repository := "d";
       closedDate := "e"; prId := 0; title := EmptyString; linesAdded := 0;
       linesDeleted := 0 |} ].
Proof. reflexivity. Qed.
End CodecProperties.

Section NumberText.
Import JS.

Ltac eval_digit :=
  match goal with
  | |- context [digitValue ?r (Ascii ?a ?b ?c ?d ?e ?f ?g ?h)] =>
      let v := eval vm_compute in (digitValue r (Ascii a b c d e f g h)) in
      change (digitValue r (Ascii a b c d e f g h)) with v; cbv iota beta
  end.

Lemma readDigits_uint (d : Decimal.uint) :
  ∀ acc : positive,
    readDigits 10 (Some (Z.pos acc)) (NilEmpty.string_of_uint d) =
    Some (Z.pos (Pos.of_uint_acc d acc)).
Proof.
  induction d; intros acc; cbn [NilEmpty.string_of_uint readDigits Pos.of_uint_acc];
    [reflexivity|..];
    (etrans; [|apply IHd]); eval_digit; cbn [default]; unfold id; do 2 f_equal; lia.
Qed.

Lemma readDigits_uint_0 (d : Decimal.uint) (acc : option Z) :
  default 0 acc = 0 → (acc = None → d ≠ Decimal.Nil) →
  readDigits 10 acc (NilEmpty.string_of_uint d) = Some (Z.of_N (Pos.of_uint d)).
Proof.
  revert acc. induction d; intros acc Hacc Hnil;
    cbn [NilEmpty.string_of_uint readDigits Pos.of_uint].
  - destruct acc as [z|]; [cbn in Hacc; subst; reflexivity | destruct (Hnil eq_refl eq_refl)].
  - eval_digit. rewrite Hacc. apply IHd; [reflexivity | discriminate].
  - eval_digit. rewrite Hacc. apply (readDigits_uint d 1).
  - eval_digit. rewrite Hacc. apply (readDigits_uint d 2).
  - eval_digit. rewrite Hacc. apply (readDigits_uint d 3).
  - eval_digit. rewrite Hacc. apply (readDigits_uint d 4).
  - eval_digit. rewrite Hacc. apply (readDigits_uint d 5).
  - eval_digit. rewrite Hacc. apply (readDigits_uint d 6).
  - eval_digit. rewrite Hacc. apply (readDigits_uint d 7).
  - eval_digit. rewrite Hacc. apply (readDigits_uint d 8).
  - eval_digit. rewrite Hacc. apply (readDigits_uint d 9).
Qed.

Lemma isWhiteSpace_digit c : isDigit c = true → isWhiteSpace c = false.
Proof.
  unfold isDigit, isWhiteSpace. rewrite andb_true_iff, !N.leb_le. intros [? ?].
  rewrite !orb_false_iff, andb_false_iff, !N.leb_gt, !N.eqb_neq. lia.
Qed.

(** The text of an unsigned decimal: digits only. *)
Lemma string_of_uint_digits (d : Decimal.uint) :
  Forall (λ c, isDigit c = true) (chars (NilEmpty.string_of_uint d)).
Proof. induction d; cbn; constructor; (reflexivity || assumption). Qed.

Lemma parseMagnitude_unsigned (d : Decimal.uint) :
  parseMagnitude (NilZero.string_of_uint d) = Some (Z.of_uint d).
Proof.
  unfold parseMagnitude, Z.of_uint.
  destruct d as [|d|d|d|d|d|d|d|d|d|d]; try reflexivity;
    cbn [NilZero.string_of_uint NilEmpty.string_of_uint].
  1: destruct d; cbn [NilEmpty.string_of_uint].
  all: cbv beta iota zeta.
  all: cbn [readDigits]; repeat eval_digit; cbn [default]; unfold id.
  all: repeat match goal with
         | |- context [readDigits _ (Some (?a * ?b + ?c))] =>
             let v := eval vm_compute in (a * b + c) in change (a * b + c) with v
         end.
  all: try reflexivity.
  all: try (rewrite readDigits_uint_0 by (cbn; (reflexivity || discriminate));
            cbn [Pos.of_uint]; f_equal; lia).
  all: try (rewrite (readDigits_uint d); cbn [Pos.of_uint]; f_equal; lia).
Qed.

Lemma string_of_uint_head (d : Decimal.uint) :
  ∃ c rest, NilZero.string_of_uint d = String c rest ∧ isDigit c = true.
Proof. destruct d; cbn; eexists _, _; split; reflexivity. Qed.

Lemma parseInt_digit_head (c : ascii) (rest : string) :
  isDigit c = true →
  parseInt (String c rest) = (λ v, 1 * v) <$> parseMagnitude (String c rest).
Proof.
  intros Hc. unfold parseInt. cbn [trimStart]. rewrite (isWhiteSpace_digit c Hc).
  destruct c as [[|] [|] [|] [|] [|] [|] [|] [|]]; try discriminate Hc; reflexivity.
Qed.

(** Reading the text of an integer gives the integer. *)
Lemma parseInt_numberToString (z : Z) : parseInt (numberToString z) = Some z.
Proof.
  unfold numberToString. rewrite <- (DecimalZ.of_to z) at 2.
  destruct (Z.to_int z) as [d|d]; cbn [NilZero.string_of_int Z.of_int].
  - destruct (string_of_uint_head d) as (c & rest & Hs & Hc).
    rewrite Hs, (parseInt_digit_head c rest Hc), <- Hs, parseMagnitude_unsigned.
    cbn [fmap option_fmap option_map]. f_equal. apply Z.mul_1_l.
  - unfold parseInt. cbn [trimStart]. change (isWhiteSpace "-") with false. cbv iota beta zeta.
    rewrite parseMagnitude_unsigned. cbn [fmap option_fmap option_map].
    destruct (Z.of_uint d); reflexivity.
Qed.

(** The text of an integer: digits behind an optional minus sign, at least
    one digit. *)
Lemma numberToString_chars (z : Z) :
  ∃ sign digits,
    chars (numberToString z) = sign ++ digits ∧
    (sign = [] ∨ sign = ["-"%char]) ∧ digits ≠ [] ∧
    Forall (λ c, isDigit c = true) digits.
Proof.
  unfold numberToString.
  assert (Hu : ∀ d, chars (NilZero.string_of_uint d) ≠ [] ∧
                    Forall (λ c, isDigit c = true) (chars (NilZero.string_of_uint d))).
  { intros d. split.
    - destruct (string_of_uint_head d) as (c & rest & -> & _). discriminate.
    - destruct d; try apply (string_of_uint_digits (_ d)).
      cbn. repeat constructor. }
  destruct (Z.to_int z) as [d|d]; cbn [NilZero.string_of_int chars].
  - exists [], (chars (NilZero.string_of_uint d)). destruct (Hu d). auto.
  - exists ["-"%char], (chars (NilZero.string_of_uint d)). destruct (Hu d). auto.
Qed.
End NumberText.

Section CodecRoundTrip.
Import Codec.

Lemma append_cons (c : ascii) (a b : string) : String c a +:+ b = String c (a +:+ b).
Proof. reflexivity. Qed.

Lemma append_nil_l (a : string) : EmptyString +:+ a = a.
Proof. reflexivity. Qed.

Lemma chars_app (a b : string) : chars (a +:+ b) = chars a ++ chars b.
Proof.
  induction a as [|c a IH]; [reflexivity|].
  rewrite append_cons. cbn [chars app]. f_equal. exact IH.
Qed.

Lemma append_assoc (a b c : string) : (a +:+ b) +:+ c = a +:+ (b +:+ c).
Proof.
  induction a as [|x a IH]; [reflexivity|]. rewrite !append_cons. f_equal. exact IH.
Qed.

Lemma append_nil_r (a : string) : a +:+ EmptyString = a.
Proof.
  induction a as [|x a IH]; [reflexivity|]. rewrite append_cons. f_equal. exact IH.
Qed.

Ltac norm_append := repeat (rewrite append_cons || rewrite append_nil_l).

Lemma scanLine_field (f : string) :
  ∀ (rest cur : string) (inQuotes : bool),
    Forall (λ c, c ≠ comma ∧ c ≠ dquote) (chars f) →
    scanLine (f +:+ rest) cur inQuotes = scanLine rest (cur +:+ f) inQuotes.
Proof.
  induction f as [|c f IH]; intros rest cur inQuotes Hf.
  - rewrite append_nil_r. reflexivity.
  - apply Forall_cons in Hf as [[Hc Hq] Hf]. rewrite append_cons. cbn [scanLine].
    rewrite (proj2 (Ascii.eqb_neq c dquote) Hq), (proj2 (Ascii.eqb_neq c comma) Hc).
    cbn [andb]. rewrite (IH _ _ _ Hf). f_equal.
    unfold str. rewrite append_assoc. reflexivity.
Qed.

Lemma scanLine_comma (rest cur : string) :
  scanLine (String comma rest) cur false = cur :: scanLine rest EmptyString false.
Proof. reflexivity. Qed.

(** Inside the quotes: a doubled quote leaves the state as it is and adds
    nothing, every other character is added. *)
Lemma scanLine_escaped (t : string) :
  ∀ (rest cur : string),
    scanLine (JS.replaceAll dquote (String dquote (str dquote)) t +:+ rest) cur true =
    scanLine rest (cur +:+ withoutQuotes t) true.
Proof.
  induction t as [|c t IH]; intros rest cur.
  - cbn [JS.replaceAll withoutQuotes]. rewrite append_nil_r. reflexivity.
  - cbn [JS.replaceAll withoutQuotes]. destruct (Ascii.eqb_spec c dquote) as [->|Hq].
    + unfold str. norm_append. cbn [scanLine]. change (Ascii.eqb dquote dquote) with true.
      cbv iota. cbn [negb]. apply IH.
    + rewrite append_cons. cbn [scanLine].
      rewrite (proj2 (Ascii.eqb_neq c dquote) Hq). cbn [negb andb].
      rewrite andb_false_r. rewrite IH. f_equal. unfold str.
      rewrite append_assoc. reflexivity.
Qed.

Lemma scanLine_title (r : PRRecord) (rest cur : string) :
  scanLine (escapedTitle r +:+ rest) cur false =
  scanLine rest (cur +:+ withoutQuotes (title r)) false.
Proof.
  unfold escapedTitle, str. rewrite !append_assoc. norm_append. cbn [scanLine].
  change (Ascii.eqb dquote dquote) with true. cbv iota. cbn [negb].
  rewrite scanLine_escaped. norm_append. cbn [scanLine].
  change (Ascii.eqb dquote dquote) with true. reflexivity.
Qed.

Lemma plain_field (s : string) :
  plain s → Forall (λ c, c ≠ comma ∧ c ≠ dquote) (chars s).
Proof. intros H. eapply Forall_impl; [exact H|]. cbn. tauto. Qed.

Lemma plain_oneLine (s : string) : plain s → oneLine s.
Proof. intros H. eapply Forall_impl; [exact H|]. cbn. tauto. Qed.

Lemma numberToString_plain (z : Z) : plain (JS.numberToString z).
Proof.
  destruct (numberToString_chars z) as (sign & digits & Hc & Hsign & _ & Hdigits).
  unfold plain. rewrite Hc. apply Forall_app. split.
  - destruct Hsign as [-> | ->]; repeat constructor; discriminate.
  - eapply Forall_impl; [exact Hdigits|]. intros c Hd.
    repeat split; intros ->; discriminate Hd.
Qed.

(** The values that the character loop reads from the line of a record. *)
Lemma scanLine_csvLine (r : PRRecord) :
  wellFormed r →
  scanLine (csvLine r) EmptyString false =
  [ author r; authorEmail r; project r; repository r; closedDate r;
    JS.numberToString (prId r); withoutQuotes (title r);
    JS.numberToString (linesAdded r); JS.numberToString (linesDeleted r) ].
Proof.
  intros (Ha & He & Hp & Hr & Hd & _). unfold csvLine.
  change ("," : string) with (String comma EmptyString).
  repeat (rewrite scanLine_field by (apply plain_field; first
            [ assumption | apply numberToString_plain ]);
          norm_append; rewrite scanLine_comma; f_equal).
  rewrite scanLine_title. norm_append. rewrite scanLine_comma. f_equal.
  rewrite scanLine_field by (apply plain_field, numberToString_plain).
  norm_append. rewrite scanLine_comma. f_equal.
  rewrite <- (append_nil_r (JS.numberToString (linesDeleted r))) at 1.
  rewrite scanLine_field by (apply plain_field, numberToString_plain). reflexivity.
Qed.

Lemma parseLine_csvLine (r : PRRecord) :
  wellFormed r → parseLine (csvLine r) = Some (decoded r).
Proof.
  intros Hr. unfold parseLine. rewrite (scanLine_csvLine r Hr).
  cbn [lookup list_lookup]. unfold JS.parseIntOr0, orEmpty.
  rewrite !parseInt_numberToString. reflexivity.
Qed.

(** *** Lines *)

Lemma split_oneLine (l : string) : oneLine l → JS.split newline l = [l].
Proof.
  induction l as [|c l IH]; intros Hl; [reflexivity|].
  apply Forall_cons in Hl as [Hc Hl]. cbn [JS.split].
  rewrite (proj2 (Ascii.eqb_neq c newline) Hc), (IH Hl). reflexivity.
Qed.

Lemma split_line_feed (l rest : string) :
  oneLine l → JS.split newline (l +:+ String newline rest) = l :: JS.split newline rest.
Proof.
  induction l as [|c l IH]; intros Hl.
  - norm_append. cbn [JS.split]. change (Ascii.eqb newline newline) with true. reflexivity.
  - apply Forall_cons in Hl as [Hc Hl]. norm_append. cbn [JS.split].
    rewrite (proj2 (Ascii.eqb_neq c newline) Hc), (IH Hl). reflexivity.
Qed.

Lemma join_cons_cons (sep l l' : string) (lines : list string) :
  JS.join sep (l :: l' :: lines) = l +:+ sep +:+ JS.join sep (l' :: lines).
Proof. reflexivity. Qed.

Lemma split_join (l : string) (lines : list string) :
  Forall oneLine (l :: lines) →
  JS.split newline (JS.join (str newline) (l :: lines)) = l :: lines.
Proof.
  revert l. induction lines as [|l' lines IH]; intros l Hall.
  - apply Forall_cons in Hall as [Hl _]. cbn [JS.join]. apply split_oneLine, Hl.
  - apply Forall_cons in Hall as [Hl Hall]. rewrite join_cons_cons. unfold str at 1.
    norm_append. rewrite (split_line_feed _ _ Hl), (IH l' Hall). reflexivity.
Qed.

Lemma oneLine_app (a b : string) : oneLine a → oneLine b → oneLine (a +:+ b).
Proof. unfold oneLine. rewrite chars_app, Forall_app. auto. Qed.

Lemma oneLine_escaped (t : string) :
  oneLine t → oneLine (JS.replaceAll dquote (String dquote (str dquote)) t).
Proof.
  induction t as [|c t IH]; intros Ht; [constructor|].
  apply Forall_cons in Ht as [Hc Ht]. cbn [JS.replaceAll].
  destruct (Ascii.eqb c dquote).
  - unfold str. norm_append. repeat (constructor; [discriminate|]). exact (IH Ht).
  - constructor; [exact Hc | exact (IH Ht)].
Qed.

Lemma oneLine_csvLine (r : PRRecord) : wellFormed r → oneLine (csvLine r).
Proof.
  intros (Ha & He & Hp & Hr & Hd & Ht). unfold csvLine, escapedTitle.
  assert (Hcomma : oneLine ",") by (repeat constructor; discriminate).
  assert (Hquote : oneLine (str dquote)) by (repeat constructor; discriminate).
  repeat (apply oneLine_app); auto using plain_oneLine, numberToString_plain, oneLine_escaped.
Qed.

(** *** The ends of the text *)

Lemma trimEnd_last (s : string) (c : ascii) :
  last (chars s) = Some c → JS.isWhiteSpace c = false → JS.trimEnd s = s.
Proof.
  induction s as [|x s IH]; intros Hlast Hc; [reflexivity|].
  cbn [JS.trimEnd]. destruct s as [|y s].
  - cbn in Hlast. injection Hlast as ->. cbn [JS.trimEnd]. rewrite Hc. reflexivity.
  - rewrite (IH Hlast Hc). reflexivity.
Qed.

Lemma last_chars_number (z : Z) :
  ∃ c, last (chars (JS.numberToString z)) = Some c ∧ JS.isWhiteSpace c = false.
Proof.
  destruct (numberToString_chars z) as (sign & digits & Hc & _ & Hne & Hdigits).
  destruct (last digits) as [c|] eqn:Hlast.
  2:{ apply last_None in Hlast. contradiction. }
  exists c. split.
  - rewrite Hc, last_app, Hlast. reflexivity.
  - apply isWhiteSpace_digit. rewrite Forall_forall in Hdigits.
    apply Hdigits. eapply last_Some_elem_of. exact Hlast.
Qed.

Lemma last_chars_app (a b : string) (c : ascii) :
  last (chars b) = Some c → last (chars (a +:+ b)) = Some c.
Proof. intros Hb. rewrite chars_app, last_app, Hb. reflexivity. Qed.

Lemma last_chars_csvLine (r : PRRecord) :
  ∃ c, last (chars (csvLine r)) = Some c ∧ JS.isWhiteSpace c = false.
Proof.
  destruct (last_chars_number (linesDeleted r)) as (c & Hlast & Hc).
  exists c. split; [|exact Hc]. unfold csvLine.
  repeat apply last_chars_app. exact Hlast.
Qed.

Lemma last_chars_join (l : string) (lines : list string) (c : ascii) :
  last (chars (default l (last lines))) = Some c →
  last (chars (JS.join (str newline) (l :: lines))) = Some c.
Proof.
  revert l. induction lines as [|l' lines IH]; intros l Hlast; [exact Hlast|].
  rewrite join_cons_cons. do 2 apply last_chars_app. apply IH.
  assert (E : default l (last (l' :: lines)) = default l' (last lines)).
  { destruct lines as [|l'' lines]; [reflexivity|].
    change (last (l' :: l'' :: lines)) with (last (l'' :: lines)).
    destruct (last (l'' :: lines)) eqn:E; [reflexivity|].
    apply last_None in E. discriminate. }
  rewrite <- E. exact Hlast.
Qed.

Lemma trim_encodeCSV (records : list PRRecord) :
  JS.trim (encodeCSV records) = encodeCSV records.
Proof.
  unfold JS.trim.
  assert (Hstart : JS.trimStart (encodeCSV records) = encodeCSV records).
  { unfold encodeCSV. destruct (csvLine <$> records); reflexivity. }
  rewrite Hstart.
  assert (Hlast : ∃ c, last (chars (encodeCSV records)) = Some c ∧ JS.isWhiteSpace c = false).
  { unfold encodeCSV. destruct (last records) as [r|] eqn:Hr.
    - destruct (last_chars_csvLine r) as (c & Hc & Hw).
      exists c. split; [|exact Hw]. apply last_chars_join.
      rewrite fmap_last, Hr. exact Hc.
    - apply last_None in Hr. subst records. eexists. split; reflexivity. }
  destruct Hlast as (c & Hc & Hw). exact (trimEnd_last _ c Hc Hw).
Qed.

(** Decoding the encoded text gives every record back, its title without
    the double quotes. *)
Lemma parseCSV_encodeCSV (records : list PRRecord) :
  Forall wellFormed records →
  parseCSV (encodeCSV records) = decoded <$> records.
Proof.
  intros Hall. unfold parseCSV. rewrite trim_encodeCSV. unfold encodeCSV.
  rewrite split_join.
  2:{ constructor; [repeat constructor; discriminate|].
      apply Forall_fmap. eapply Forall_impl; [exact Hall|]. apply oneLine_csvLine. }
  change (drop 1 (csvHeader :: (csvLine <$> records))) with (csvLine <$> records).
  induction Hall as [|r records Hr Hall IH]; [reflexivity|].
  cbn [fmap list_fmap omap list_omap]. rewrite (parseLine_csvLine r Hr).
  f_equal. exact IH.
Qed.

Lemma withoutQuotes_id (t : string) :
  Forall (λ c, c ≠ dquote) (chars t) → withoutQuotes t = t.
Proof.
  induction t as [|c t IH]; intros Ht; [reflexivity|].
  apply Forall_cons in Ht as [Hc Ht]. cbn [withoutQuotes].
  rewrite (proj2 (Ascii.eqb_neq c dquote) Hc), (IH Ht). reflexivity.
Qed.

(** The round trip is lossless for the records whose title holds no double
    quote. *)
Lemma parseCSV_encodeCSV_unquoted (records : list PRRecord) :
  Forall wellFormed records →
  Forall (λ r, Forall (λ c, c ≠ dquote) (chars (title r))) records →
  parseCSV (encodeCSV records) = records.
Proof.
  intros Hall Hq. rewrite (parseCSV_encodeCSV records Hall).
  induction Hq as [|r records Hr Hq IH]; [reflexivity|].
  apply Forall_cons in Hall as [_ Hall]. cbn [fmap list_fmap]. rewrite (IH Hall).
  f_equal. destruct r. unfold decoded. cbn in *. rewrite (withoutQuotes_id _ Hr). reflexivity.
Qed.
End CodecRoundTrip.

(** C1 on a record whose title holds double quotes: the encoder doubles
    them, and the reader, which only toggles its quote state on a double
    quote and never keeps one, returns the title without them; the records
    read back differ from the records written. *)
Theorem roundtrip_loses_title_quotes :
  Codec.wellFormed (Codec.sampleRecord Codec.quotedTitle) ∧
  Codec.parseCSV (Codec.encodeCSV [Codec.sampleRecord Codec.quotedTitle]) =
    [Codec.sampleRecord "say hi, all"] ∧
  Codec.parseCSV (Codec.encodeCSV [Codec.sampleRecord Codec.quotedTitle]) ≠
    [Codec.sampleRecord Codec.quotedTitle].
Proof.
  split; [|split].
  - unfold Codec.wellFormed, Codec.plain, Codec.oneLine.
    repeat split; cbn; repeat constructor; discriminate.
  - vm_compute. reflexivity.
  - vm_compute. discriminate.
Qed.

(** ** The fetcher *)

Section ChangeStatsProperties.
Import Fetcher.
Variable api : Upstream.
Variables projectName repoId : string.



End ChangeStatsProperties.


Section PaginationProperties.
Import Fetcher.
Variable api : Upstream.
Variable cutoffDate : Z.
Variable fetchLOCStats : bool.
Variables projectName repoName repoId : string.

Local Abbreviation recordOf' := (recordOf api cutoffDate fetchLOCStats projectName repoName repoId).
Local Abbreviation pageLoop' fuel := (pageLoop api cutoffDate fetchLOCStats fuel projectName repoName repoId).

Lemma servesFrom_tail (skip : Z) (page : list PullRequest) (pages : list (list PullRequest)) :
  servesFrom api projectName repoId skip (page :: pages) →
  servesFrom api projectName repoId (skip + top) pages.
Proof.
  intros Hs i p Hp. destruct (Hs (S i) p Hp) as [value [Hv Hd]].
  exists value. split; [|exact Hd]. rewrite <- Hv. f_equal. lia.
Qed.

Lemma endsWithShortPage_tail (page page' : list PullRequest) (pages : list (list PullRequest)) :
  endsWithShortPage (page :: page' :: pages) → endsWithShortPage (page' :: pages).
Proof.
  intros [Hfull [lastPage [Hlast Hshort]]]. split.
  - intros i p Hp Hi. apply (Hfull (S i) p Hp). cbn [length] in *. lia.
  - exists lastPage. split; [exact Hlast | exact Hshort].
Qed.

Lemma offsetsFrom_S (skip : Z) (n : nat) :
  offsetsFrom skip (S n) = skip :: offsetsFrom (skip + top) n.
Proof.
  unfold offsetsFrom. rewrite Nat2Z.inj_succ, seqZ_cons by lia.
  cbn [fmap list_fmap]. f_equal; [lia|].
  replace (Z.pred (Z.succ (Z.of_nat n))) with (Z.of_nat n) by lia.
  change (Z.succ 0) with (1 + 0). rewrite <- fmap_add_seqZ, <- list_fmap_compose.
  apply list_fmap_ext. intros _ i _. cbn. lia.
Qed.

Lemma pageLoop_run (pages : list (list PullRequest)) :
  ∀ (fuel : nat) (skip : Z) (allRecords : list PRRecord) (requested : list Z),
    servesFrom api projectName repoId skip pages →
    endsWithShortPage pages →
    (length pages ≤ fuel)%nat →
    pageLoop' fuel skip allRecords requested =
    Some (allRecords ++ omap recordOf' (concat pages),
          requested ++ offsetsFrom skip (length pages)).
Proof.
  induction pages as [|page pages IH]; intros fuel skip allRecords requested Hs He Hfuel.
  - destruct He as [_ [lastPage [Hlast _]]]. discriminate.
  - destruct fuel as [|fuel]; [cbn in Hfuel; lia|].
    cbn [pageLoop]. destruct (Hs 0%nat page eq_refl) as [value [Hv Hd]].
    replace (skip + Z.of_nat 0 * top) with skip in Hv by lia.
    rewrite Hv, Hd. cbn [length]. rewrite offsetsFrom_S.
    destruct pages as [|page' pages].
    + destruct He as [_ [lastPage [Hlast Hshort]]]. cbn in Hlast.
      injection Hlast as <-. cbn [concat]. rewrite app_nil_r.
      destruct (Z.eqb_spec (Z.of_nat (length page)) 0) as [H0|H0].
      * destruct page; [|cbn in H0; lia]. cbn. rewrite app_nil_r. reflexivity.
      * destruct (Z.ltb_spec (Z.of_nat (length page)) top); [|lia].
        reflexivity.
    + assert (Hfull : top ≤ Z.of_nat (length page)).
      { destruct He as [Hfull _]. apply (Hfull 0%nat page eq_refl). cbn. lia. }
      unfold top in Hfull.
      destruct (Z.eqb_spec (Z.of_nat (length page)) 0) as [H0|H0]; [lia|].
      destruct (Z.ltb_spec (Z.of_nat (length page)) top) as [Hlt|_];
        [unfold top in Hlt; lia|].
      rewrite (IH fuel (skip + top) _ _ (servesFrom_tail _ _ _ Hs)
                 (endsWithShortPage_tail _ _ _ He)) by (cbn in *; lia).
      change (concat (page :: page' :: pages)) with (page ++ concat (page' :: pages)).
      rewrite omap_app, <- !app_assoc. reflexivity.
Qed.

Lemma pageLoop_needs_fuel (pages : list (list PullRequest)) :
  ∀ (fuel : nat) (skip : Z) (allRecords : list PRRecord) (requested : list Z),
    servesFrom api projectName repoId skip pages →
    endsWithShortPage pages →
    (fuel < length pages)%nat →
    pageLoop' fuel skip allRecords requested = None.
Proof.
  induction pages as [|page pages IH]; intros fuel skip allRecords requested Hs He Hfuel.
  - cbn in Hfuel. lia.
  - destruct fuel as [|fuel]; [reflexivity|].
    destruct pages as [|page' pages]; [cbn in Hfuel; lia|].
    cbn [pageLoop]. destruct (Hs 0%nat page eq_refl) as [value [Hv Hd]].
    replace (skip + Z.of_nat 0 * top) with skip in Hv by lia.
    rewrite Hv, Hd.
    assert (Hfull : top ≤ Z.of_nat (length page)).
    { destruct He as [Hfull _]. apply (Hfull 0%nat page eq_refl). cbn. lia. }
    unfold top in Hfull.
    destruct (Z.eqb_spec (Z.of_nat (length page)) 0) as [H0|H0]; [lia|].
    destruct (Z.ltb_spec (Z.of_nat (length page)) top) as [Hlt|_];
      [unfold top in Hlt; lia|].
    apply IH.
    + exact (servesFrom_tail _ _ _ Hs).
    + exact (endsWithShortPage_tail _ _ _ He).
    + cbn in *. lia.
Qed.

Lemma recordOf_cutoff (pr : PullRequest) (r : PRRecord) :
  recordOf' pr = Some r →
  ∃ closed, prClosedDate pr = Some closed ∧ cutoffDate ≤ closed ∧
            closedDate r = JS.toISODate (closed / JS.msPerDay).
Proof.
  unfold recordOf. destruct (prClosedDate pr) as [closed|]; [|discriminate].
  destruct (Z.leb_spec cutoffDate closed) as [Hle|]; [|discriminate].
  intros [= <-]. exists closed. repeat split. exact Hle.
Qed.

(** The day of an emitted record is the day of its closing instant, which
    is not before the day of the cutoff (for the years that print with four
    digits). *)
Lemma recordOf_day (pr : PullRequest) (r : PRRecord) (closed : Z) :
  recordOf' pr = Some r → prClosedDate pr = Some closed →
  0 ≤ JS.yearFromDay (closed / JS.msPerDay) ≤ 9999 →
  JS.parseISODate (closedDate r) = Some (closed / JS.msPerDay) ∧
  cutoffDate / JS.msPerDay ≤ closed / JS.msPerDay.
Proof.
  intros Hrec Hclosed Hyear.
  destruct (recordOf_cutoff pr r Hrec) as (closed' & Hc & Hle & ->).
  assert (closed' = closed) by congruence. subst closed'. split.
  - apply parseISODate_toISODate, Hyear.
  - apply Z.div_le_mono; [reflexivity | exact Hle].
Qed.

(** C3: when the upstream serves a sequence of pages of which every one but
    the last holds at least [top] items and the last holds fewer (possibly
    none), the paginator requests exactly one page per element of the
    sequence, at the offsets 0, [top], [2 * top], ..., and no further one
    (with less fuel than pages it has not stopped yet); the records it
    gathers are those of the items of all pages, each item decided on its
    own: every record comes from an item closed at or after the cutoff and
    carries that day, an item without a closing date gives no record, and
    every item closed at or after the cutoff gives one, whatever page it
    is on. *)
Theorem pagination_stops_at_short_page (pages : list (list PullRequest)) (fuel : nat) :
  servesFrom api projectName repoId 0 pages →
  endsWithShortPage pages →
  (length pages ≤ fuel)%nat →
  ∃ (records : list PRRecord) (requested : list Z),
    fetchRepository api cutoffDate fetchLOCStats fuel projectName repoName repoId =
      Some (records, requested) ∧
    requested = offsetsFrom 0 (length pages) ∧
    length requested = length pages ∧
    (∀ fuel', (fuel' < length pages)%nat →
       fetchRepository api cutoffDate fetchLOCStats fuel' projectName repoName repoId = None) ∧
    records = omap recordOf' (concat pages) ∧
    (∀ r, r ∈ records →
       ∃ pr closed, pr ∈ concat pages ∧ prClosedDate pr = Some closed ∧
                    cutoffDate ≤ closed ∧
                    closedDate r = JS.toISODate (closed / JS.msPerDay)) ∧
    (∀ pr, pr ∈ concat pages → prClosedDate pr = None → recordOf' pr = None) ∧
    (∀ pr closed, pr ∈ concat pages → prClosedDate pr = Some closed →
       cutoffDate ≤ closed → ∃ r, recordOf' pr = Some r ∧ r ∈ records).
Proof.
  intros Hs He Hfuel.
  exists (omap recordOf' (concat pages)), (offsetsFrom 0 (length pages)).
  split; [|split; [|split; [|split; [|split; [|split; [|split]]]]]].
  - unfold fetchRepository. rewrite (pageLoop_run pages fuel 0 [] [] Hs He Hfuel).
    reflexivity.
  - reflexivity.
  - unfold offsetsFrom. rewrite length_fmap, length_seqZ. lia.
  - intros fuel' Hlt. unfold fetchRepository.
    exact (pageLoop_needs_fuel pages fuel' 0 [] [] Hs He Hlt).
  - reflexivity.
  - intros r Hr. apply list_elem_of_omap in Hr as [pr [Hpr Hrec]].
    destruct (recordOf_cutoff pr r Hrec) as [closed [Hc [Hle Hday]]].
    exists pr, closed. repeat split; assumption.
  - intros pr _ Hnone. unfold recordOf. rewrite Hnone. reflexivity.
  - intros pr closed Hpr Hc Hle. unfold recordOf at 1. rewrite Hc.
    destruct (Z.leb_spec cutoffDate closed) as [_|]; [|lia].
    eexists. split; [reflexivity|].
    apply list_elem_of_omap. exists pr. split; [exact Hpr|].
    unfold recordOf. rewrite Hc.
    destruct (Z.leb_spec cutoffDate closed) as [_|]; [reflexivity|lia].
Qed.
End PaginationProperties.

Lemma samplePages_served :
  Fetcher.servesFrom (Fetcher.pagedUpstream Fetcher.samplePages) "Engine" "r1" 0
                     Fetcher.samplePages.
Proof.
  intros i page Hp. exists (Some page). split; [|reflexivity].
  destruct i as [|[|[|i]]]; [| | |discriminate Hp];
    injection Hp as <-; reflexivity.
Defined.

Lemma samplePages_short_last : Fetcher.endsWithShortPage Fetcher.samplePages.
Proof.
  split.
  - intros i page Hp Hi.
    destruct i as [|[|i]]; [| |cbn in Hi; lia]; injection Hp as <-;
      apply Z.leb_le; vm_compute; reflexivity.
  - eexists. split; [reflexivity|].
    apply Z.ltb_lt. vm_compute. reflexivity.
Defined.

Lemma pagination_stops_at_short_page_witness :
  ∃ (records : list PRRecord) (requested : list Z),
    Fetcher.fetchRepository (Fetcher.pagedUpstream Fetcher.samplePages) 5000 false 3
                            "Engine" "notes" "r1" = Some (records, requested) ∧
    requested = [0; 1000; 2000] ∧
    length requested = 3%nat ∧
    length records = 1100%nat ∧
    (∀ r, r ∈ records → closedDate r = "1970-01-01" ∨ closedDate r = "1970-01-02").
Proof.
  destruct (pagination_stops_at_short_page
              (Fetcher.pagedUpstream Fetcher.samplePages) 5000 false "Engine" "notes" "r1"
              Fetcher.samplePages 3 samplePages_served samplePages_short_last (le_n 3))
    as (records & requested & Hrun & Hreq & Hlen & _ & Hrec & Hcut & _ & _).
  exists records, requested. split; [exact Hrun|].
  split; [rewrite Hreq; reflexivity|]. split; [exact Hlen|].
  split; [rewrite Hrec; vm_compute; reflexivity|].
  intros r Hr. destruct (Hcut r Hr) as (pr & closed & Hpr & Hc & _ & ->).
  unfold Fetcher.samplePages in Hpr. cbn [concat] in Hpr.
  rewrite !elem_of_app in Hpr.
  destruct Hpr as [Hpr|[Hpr|[[Hpr|[Hpr|Hpr]]|Hpr]]];
    try (apply elem_of_replicate in Hpr as [-> _]; cbn in Hc; first
      [ discriminate Hc | injection Hc as <-; vm_compute; auto ]).
  apply elem_of_nil in Hpr. destruct Hpr.
Defined.

(** ** Summary statistics *)

Section StatsProperties.
Import Stats.
Variable toFixed : Z → Z → nat → string.

Lemma weekSpanOf_positive (closedDates : list string) (w : Z) :
  weekSpanOf closedDates = Some w → 1 ≤ w.
Proof.
  unfold weekSpanOf.
  destruct (head _ ≫= JS.parseISODate) as [firstDate|]; [|discriminate].
  destruct (last _ ≫= JS.parseISODate) as [lastDate|]; [|discriminate].
  cbn. intros [= <-]. lia.
Qed.

Lemma average_divisor (toFixed' : Z → Z → nat → string) (n : Z) (w : option Z) (k : nat) :
  (∀ n d k, 1 ≤ d → toFixed n d k = toFixed' n d k) →
  (∀ d, w = Some d → 1 ≤ d) →
  average toFixed n w k = average toFixed' n w k.
Proof.
  intros Hagree Hw. destruct w as [d|]; [|reflexivity].
  cbn. apply Hagree, Hw. reflexivity.
Qed.

(** X24: the quotients are only taken with a divisor of at least one: the
    results of [getStats] and [getImpactStats] do not depend on what
    [toFixed] gives for any other divisor. *)
Lemma stats_divide_by_positive (toFixed' : Z → Z → nat → string)
    (records : list PRRecord) (a : option string) :
  (∀ n d k, 1 ≤ d → toFixed n d k = toFixed' n d k) →
  getStats toFixed records a = getStats toFixed' records a ∧
  getImpactStats toFixed records a = getImpactStats toFixed' records a.
Proof.
  intros Hagree. unfold getStats, getImpactStats.
  destruct (Z.of_nat (length (filterAuthor records a)) =? 0); [split; reflexivity|].
  split; f_equal; apply average_divisor; try exact Hagree;
    intros d Hd; exact (weekSpanOf_positive _ _ Hd).
Qed.

(** C8: when no record is left, because the input is empty or because the
    author filter matches none, [getStats] and [getImpactStats] return their
    all-zero results, without taking any quotient. *)
Theorem stats_of_no_records (records : list PRRecord) (a : option string) :
  filterAuthor records a = [] →
  getStats toFixed records a =
    {| total := 0; avgPerWeek := "0"; topContributor := "N/A"; weeks := Some 0 |} ∧
  getImpactStats toFixed records a =
    {| Impact.totalAdded := 0; Impact.totalDeleted := 0; Impact.netChange := 0;
       Impact.avgPerWeek := "0"; Impact.topContributor := "N/A";
       Impact.weeks := Some 0 |}.
Proof.
  intros Hnone. unfold getStats, getImpactStats. rewrite Hnone.
  split; reflexivity.
Qed.
End StatsProperties.

Lemma stats_of_no_records_witness :
  (Stats.getStats (λ _ _ _, "?") [] None =
     {| Stats.total := 0; Stats.avgPerWeek := "0"; Stats.topContributor := "N/A";
        Stats.weeks := Some 0 |} ∧
   Stats.getImpactStats (λ _ _ _, "?") [] None =
     {| Stats.Impact.totalAdded := 0; Stats.Impact.totalDeleted := 0;
        Stats.Impact.netChange := 0; Stats.Impact.avgPerWeek := "0";
        Stats.Impact.topContributor := "N/A"; Stats.Impact.weeks := Some 0 |}) ∧
  (Stats.getStats (λ _ _ _, "?") [Codec.sampleRecord "t"] (Some "Grace Hopper") =
     {| Stats.total := 0; Stats.avgPerWeek := "0"; Stats.topContributor := "N/A";
        Stats.weeks := Some 0 |} ∧
   Stats.getImpactStats (λ _ _ _, "?") [Codec.sampleRecord "t"] (Some "Grace Hopper") =
     {| Stats.Impact.totalAdded := 0; Stats.Impact.totalDeleted := 0;
        Stats.Impact.netChange := 0; Stats.Impact.avgPerWeek := "0";
        Stats.Impact.topContributor := "N/A"; Stats.Impact.weeks := Some 0 |}).
Proof.
  split.
  - apply (stats_of_no_records (λ _ _ _, "?") [] None). reflexivity.
  - apply (stats_of_no_records (λ _ _ _, "?") [Codec.sampleRecord "t"] (Some "Grace Hopper")).
    vm_compute. reflexivity.
Defined.

(** ** The day axis and the gap filling *)

Section SortedKeysProperties.
Import Aggregation.
Context {V : Type}.
Implicit Types (m : gmap string V) (k : string).




Lemma sortedKeys_length m : length (sortedKeys m) = size m.
Proof.
  unfold sortedKeys. rewrite (Permutation_length (merge_sort_Permutation _ _)).
  rewrite <- size_dom. reflexivity.
Qed.







End SortedKeysProperties.

Section GapFillProperties.
Import Aggregation.



End GapFillProperties.

Section CalendarOrder.
Import JS.

Lemma yearFromDay_mono n n' : n ≤ n' → yearFromDay n ≤ yearFromDay n'.
Proof.
  intros Hn. pose proof (yearFromDay_bounds n) as Hb. pose proof (yearFromDay_bounds n') as Hb'.
  destruct (Z.le_gt_cases (yearFromDay n) (yearFromDay n')) as [?|Hgt]; [assumption|].
  pose proof (dayFromYear_mono (yearFromDay n' + 1) (yearFromDay n) ltac:(lia)). lia.
Qed.



Lemma parseISODate_strict s s' n n' :
  parseISODate s = Some n → parseISODate s' = Some n' → n < n' → strict String.le s s'.
Proof.
  intros Hs Hs' Hlt. split.
  - destruct (total String.le s s') as [?|Hle]; [assumption|].
    pose proof (parseISODate_mono s' s n' n Hs' Hs Hle). lia.
  - intros Hle. pose proof (parseISODate_mono s' s n' n Hs' Hs Hle). lia.
Qed.

End CalendarOrder.


Section ExactAxis.
Import Aggregation.


End ExactAxis.

Section AxisTheorem.
Import Aggregation.



End AxisTheorem.

(** ** The counters of the aggregation *)

Section Sums.
Import Aggregation.

Lemma sumList_app (l1 l2 : list Z) : sumList (l1 ++ l2) = sumList l1 + sumList l2.
Proof.
  unfold sumList. induction l1 as [|x l1 IH]; cbn [foldr app]; [reflexivity | lia].
Qed.




Lemma sumValues_sumOver (m : gmap string Z) : sumValues m = sumOver id m.
Proof. reflexivity. Qed.







End Sums.

(** C9 on the input of one pull request whose author is named [total]:
    the record count and the sums of the author and project counts are 1,
    but the day total of its day is 2, because the author's counter and the
    day total are the same property of the day bucket. *)
Theorem day_total_counts_author_named_total_twice :
  let out := Aggregation.processData Aggregation.authorNamedTotal in
  Aggregation.totalPRs out = 1 ∧
  Aggregation.sumValues (Aggregation.byAuthor out) = 1 ∧
  Aggregation.sumValues (Aggregation.byProject out) = 1 ∧
  Aggregation.days out = ["2024-01-01"] ∧
  Aggregation.byDay out !! "2024-01-01" = Some {[ "total" := 2 ]} ∧
  sumList (Aggregation.dayTotal (Aggregation.byDay out) <$> Aggregation.days out) = 2.
Proof. cbv zeta. repeat split; vm_compute; reflexivity. Qed.

Section ImpactReturns.
Import Aggregation.





End ImpactReturns.




(** ** Sorting with a comparator *)

Section StableSortProperties.
Import Aggregation.
Context {A : Type}.
Variable key : A → Z.

Lemma insertSorted_Permutation (before : A → A → bool) (x : A) (l : list A) :
  insertSorted before x l ≡ₚ x :: l.
Proof.
  induction l as [|y l IH]; cbn [insertSorted]; [reflexivity|].
  destruct (before x y); [reflexivity|].
  rewrite IH. apply Permutation_swap.
Qed.

Lemma stableSort_Permutation (before : A → A → bool) (l : list A) :
  stableSort before l ≡ₚ l.
Proof.
  induction l as [|x l IH]; [reflexivity|].
  unfold stableSort. cbn [foldr]. fold (stableSort before l).
  rewrite insertSorted_Permutation, IH. reflexivity.
Qed.

Lemma stableSort_length (before : A → A → bool) (l : list A) :
  length (stableSort before l) = length l.
Proof. apply Permutation_length, stableSort_Permutation. Qed.

Lemma insertSorted_ascending (x : A) (l : list A) :
  Sorted Z.le (key <$> l) → Sorted Z.le (key <$> insertSorted (ascendingBy key) x l).
Proof.
  induction l as [|y l IH]; intros Hs; cbn [insertSorted fmap list_fmap].
  - repeat constructor.
  - unfold ascendingBy at 1. destruct (Z.leb_spec (key x - key y) 0) as [Hle|Hgt].
    + cbn [fmap list_fmap]. constructor; [exact Hs|]. constructor. lia.
    + cbn [fmap list_fmap]. apply Sorted_inv in Hs as [Hs Hhd].
      constructor; [exact (IH Hs)|].
      destruct l as [|z l]; cbn [insertSorted fmap list_fmap].
      * constructor. lia.
      * destruct (ascendingBy key x z); cbn [fmap list_fmap]; constructor; [lia|].
        apply HdRel_inv in Hhd. exact Hhd.
Qed.

Lemma stableSort_ascending (l : list A) :
  Sorted Z.le (key <$> stableSort (ascendingBy key) l).
Proof.
  induction l as [|x l IH]; [constructor|].
  unfold stableSort. cbn [foldr]. apply insertSorted_ascending. exact IH.
Qed.

Lemma stableSort_keys (l : list A) :
  key <$> stableSort (ascendingBy key) l = merge_sort Z.le (key <$> l).
Proof.
  apply (Sorted_unique Z.le).
  - apply stableSort_ascending.
  - apply (Sorted_merge_sort Z.le).
  - rewrite merge_sort_Permutation. apply fmap_Permutation, stableSort_Permutation.
Qed.
End StableSortProperties.

(** ** The outlier filter *)

Section OutlierProperties.
Import Outliers.

Lemma filter_with_total (t : Z) (records : list PRRecord) :
  fst <$> filter (λ e : PRRecord * Z, e.2 ≤ t)
                 ((λ r, (r, linesAdded r + linesDeleted r)) <$> records) =
  filter (λ r, totalLines r ≤ t) records.
Proof.
  induction records as [|r records IH]; [reflexivity|].
  cbn [fmap list_fmap]. rewrite !filter_cons. cbn [snd]. unfold totalLines at 1.
  destruct (decide (linesAdded r + linesDeleted r ≤ t)); cbn [fmap list_fmap];
    rewrite <- IH; reflexivity.
Qed.

Lemma at_fmap {A B : Type} (f : A → B) (l : list A) (i : Z) :
  at_ (f <$> l) i = f <$> at_ l i.
Proof. unfold at_. destruct (i <? 0); [reflexivity|]. apply list_lookup_fmap. Qed.

(** The code and the specification's reading agree for every non-empty
    input and every percentile. *)
Lemma removeOutliers_spec (records : list PRRecord) (percentile : Z) :
  records ≠ [] →
  removeOutliers records percentile =
  (threshold ← at_ (sortedTotals records)
                   (thresholdIndex (Z.of_nat (length records)) percentile);
   Some (filter (λ r, totalLines r ≤ threshold) records)).
Proof.
  intros Hne. unfold removeOutliers.
  destruct (Z.eqb_spec (Z.of_nat (length records)) 0) as [H0|_].
  { destruct records; [congruence | cbn in H0; lia]. }
  rewrite stableSort_length, length_fmap. fold (thresholdIndex (Z.of_nat (length records)) percentile).
  set (recordsWithTotal := (λ r, (r, linesAdded r + linesDeleted r)) <$> records).
  assert (Hkeys : sortedTotals records =
                  snd <$> Aggregation.stableSort (λ a b : PRRecord * Z, a.2 - b.2 <=? 0)
                                                 recordsWithTotal).
  { etrans; [|symmetry; exact (stableSort_keys snd recordsWithTotal)].
    unfold sortedTotals. f_equal. subst recordsWithTotal.
    rewrite <- list_fmap_compose. reflexivity. }
  rewrite Hkeys, at_fmap.
  destruct (at_ _ _) as [entry|]; [|reflexivity].
  cbn. f_equal. apply filter_with_total.
Qed.

Lemma sortedTotals_ascending (records : list PRRecord) :
  Sorted Z.le (sortedTotals records) ∧ sortedTotals records ≡ₚ totalLines <$> records.
Proof.
  split; [apply (Sorted_merge_sort Z.le) | apply merge_sort_Permutation].
Qed.


(** C10, with the percentile restricted to the non-negative ones: for the
    empty list, or for any list and a percentile of at least zero,
    [removeOutliers] returns a subsequence of its input (the records in
    their order, none twice), which is empty only when the input is. *)
Theorem remove_outliers_nonempty_subsequence (records : list PRRecord) (percentile : Z) :
  records = [] ∨ 0 ≤ percentile →
  ∃ out, removeOutliers records percentile = Some out ∧
         out `sublist_of` records ∧
         (records ≠ [] → out ≠ []) ∧
         (records = [] → out = []).
Proof.
  intros Hdom. destruct records as [|r0 records'] eqn:Hrecords.
  { exists []. repeat split; [reflexivity | congruence]. }
  rewrite <- Hrecords in *. assert (Hne : records ≠ []) by (rewrite Hrecords; discriminate).
  destruct Hdom as [?|Hp]; [congruence|].
  rewrite (removeOutliers_spec records percentile Hne).
  destruct (sortedTotals_ascending records) as [_ Hperm].
  set (n := Z.of_nat (length records)).
  assert (Hn : 0 < n) by (subst n; rewrite Hrecords; cbn; lia).
  assert (Hidx : 0 ≤ thresholdIndex n percentile < n).
  { unfold thresholdIndex. assert (0 ≤ n * percentile / 100) by (apply Z.div_pos; lia). lia. }
  unfold at_. destruct (Z.ltb_spec (thresholdIndex n percentile) 0) as [?|_]; [lia|].
  destruct (sortedTotals records !! Z.to_nat (thresholdIndex n percentile)) as [t|] eqn:Ht.
  2:{ apply lookup_ge_None in Ht. rewrite (Permutation_length Hperm), length_fmap in Ht.
      subst n. lia. }
  cbn. eexists. split; [reflexivity|]. split; [apply sublist_filter|].
  split; [|congruence]. intros _ Hempty.
  assert (Hin : t ∈ totalLines <$> records).
  { rewrite <- Hperm. eapply list_elem_of_lookup_2. exact Ht. }
  apply list_elem_of_fmap in Hin as [r [Ht' Hr]].
  assert (Hf : r ∈ filter (λ r, totalLines r ≤ t) records).
  { apply list_elem_of_filter. split; [lia | exact Hr]. }
  rewrite Hempty in Hf. apply elem_of_nil in Hf. exact Hf.
Qed.
End OutlierProperties.


Lemma remove_outliers_nonempty_subsequence_witness :
  (∃ out, Outliers.removeOutliers [Outliers.withLines 3; Outliers.withLines 900;
                                   Outliers.withLines 5] 50 = Some out ∧
          out `sublist_of` [Outliers.withLines 3; Outliers.withLines 900;
                            Outliers.withLines 5] ∧ out ≠ []) ∧
  (∃ out, Outliers.removeOutliers [] (-1) = Some out ∧ out = []).
Proof.
  split.
  - destruct (remove_outliers_nonempty_subsequence
                [Outliers.withLines 3; Outliers.withLines 900; Outliers.withLines 5] 50
                ltac:(right; lia)) as (out & Hrun & Hsub & Hne & _).
    exists out. split; [exact Hrun|]. split; [exact Hsub|]. apply Hne. discriminate.
  - destruct (remove_outliers_nonempty_subsequence [] (-1) ltac:(left; reflexivity))
      as (out & Hrun & _ & _ & Hempty).
    exists out. split; [exact Hrun | apply Hempty; reflexivity].
Defined.

(** C10 as stated fails: for a negative percentile the index is negative
    and [removeOutliers] ends with a [TypeError] for a non-empty input. *)
Lemma remove_outliers_negative_percentile :
  Outliers.removeOutliers [Outliers.withLines 5] (-1) = None ∧
  ¬ ∃ out, Outliers.removeOutliers [Outliers.withLines 5] (-1) = Some out ∧
           out `sublist_of` [Outliers.withLines 5] ∧ out ≠ [].
Proof.
  split; [reflexivity|]. intros (out & Hrun & _). discriminate Hrun.
Qed.

(** ** The end-to-end scenario *)

Section Scenario.
Import Aggregation.

Example scenario_velocity :
  let out := processData scenario in
  days out = ["2024-01-01"; "2024-01-02"; "2024-01-03"] ∧
  byDay out !! "2024-01-01" = Some (<["alice" := 1]> (<["bob" := 1]> {[ "total" := 2 ]})) ∧
  byDay out !! "2024-01-02" = Some {[ "total" := 0 ]} ∧
  byDay out !! "2024-01-03" = Some (<["alice" := 1]> {[ "total" := 1 ]}) ∧
  authorList out = ["alice"; "bob"] ∧
  byAuthor out = <["alice" := 2]> {[ "bob" := 1 ]} ∧
  byProject out = <["A" := 2]> {[ "B" := 1 ]} ∧
  totalPRs out = 3.
Proof. cbv zeta. repeat split; vm_compute; reflexivity. Qed.

Example scenario_impact :
  impDays <$> processImpactData scenario =
    Some ["2024-01-01"; "2024-01-02"; "2024-01-03"] ∧
  (λ out, impByDay out !! "2024-01-01") <$> processImpactData scenario =
    Some (Some (<["alice" := Tally 10 2]> (<["bob" := Tally 5 5]>
                 (<["totalAdded" := Num 15]> {[ "totalDeleted" := Num 7 ]})))) ∧
  (λ out, impByDay out !! "2024-01-02") <$> processImpactData scenario =
    Some (Some emptyImpactBucket) ∧
  impAuthorList <$> processImpactData scenario = Some ["alice"; "bob"] ∧
  totalLinesAdded <$> processImpactData scenario = Some 16 ∧
  totalLinesDeleted <$> processImpactData scenario = Some 7.
Proof. repeat split; vm_compute; reflexivity. Qed.

(** Authors with equal counts stay in the order of their first record. *)
Example authorList_ties :
  authorList (processData [pr "bob" "2024-01-01" "A" 0 0; pr "alice" "2024-01-01" "A" 0 0;
                           pr "carol" "2024-01-02" "A" 0 0; pr "carol" "2024-01-02" "A" 0 0]) =
  ["carol"; "bob"; "alice"].
Proof. vm_compute. reflexivity. Qed.

(** An author named like one of the totals of an impact bucket: the first
    record turns the total into text, the second one of the same day ends
    with a [TypeError]. *)
Example impact_author_named_totalAdded :
  (λ out, impByDay out !! "2024-01-01") <$>
    processImpactData [pr "totalAdded" "2024-01-01" "A" 5 1] =
    Some (Some (<["totalAdded" := Text]> {[ "totalDeleted" := Num 1 ]})) ∧
  processImpactData [pr "totalAdded" "2024-01-01" "A" 5 1;
                     pr "totalAdded" "2024-01-01" "A" 5 1] = None.
Proof. split; vm_compute; reflexivity. Qed.

Example scenario_stats (toFixed : Z → Z → nat → string) :
  Stats.getStats toFixed scenario (Some "alice") =
    {| Stats.total := 2; Stats.avgPerWeek := toFixed 2 1 1%nat;
       Stats.topContributor := "alice"; Stats.weeks := Some 1 |} ∧
  Stats.getStats toFixed scenario None =
    {| Stats.total := 3; Stats.avgPerWeek := toFixed 3 1 1%nat;
       Stats.topContributor := "alice"; Stats.weeks := Some 1 |} ∧
  Stats.getImpactStats toFixed scenario None =
    {| Stats.Impact.totalAdded := 16; Stats.Impact.totalDeleted := 7;
       Stats.Impact.netChange := 9; Stats.Impact.avgPerWeek := toFixed 9 1 0%nat;
       Stats.Impact.topContributor := "alice"; Stats.Impact.weeks := Some 1 |}.
Proof. repeat split; vm_compute; reflexivity. Qed.
End Scenario.

(** ** The time range filter *)

Section RangeProperties.
Import Range.

Lemma cutoffStr_day (now n : Z) : cutoffStr now n = JS.toISODate (today now - n).
Proof.
  unfold cutoffStr, today. f_equal.
  replace (now - n * JS.msPerDay) with (now + (- n) * JS.msPerDay) by lia.
  rewrite Z.div_add by (unfold JS.msPerDay; lia). lia.
Qed.

(** Against a cutoff that is a date of the years 0 to 9999, the order of the
    texts is the order of the days. *)
Lemma le_cutoff_day (c d : Z) (s : string) :
  0 ≤ JS.yearFromDay c ≤ 9999 → JS.parseISODate s = Some d →
  String.le (JS.toISODate c) s ↔ c ≤ d.
Proof.
  intros Hy Hs. pose proof (parseISODate_toISODate c Hy) as Hc. split.
  - intros Hle. exact (parseISODate_mono _ _ _ _ Hc Hs Hle).
  - intros Hcd. destruct (decide (c = d)) as [->|Hne].
    + rewrite (toISODate_parseISODate _ _ Hs). reflexivity.
    + apply (parseISODate_strict _ _ _ _ Hc Hs). lia.
Qed.

Lemma cutoffStr_mono (now n m : Z) :
  n ≤ m → 0 ≤ JS.yearFromDay (today now - m) →
  JS.yearFromDay (today now - n) ≤ 9999 →
  String.le (cutoffStr now m) (cutoffStr now n).
Proof.
  intros Hnm Hlo Hhi. rewrite !cutoffStr_day.
  assert (JS.yearFromDay (today now - m) ≤ JS.yearFromDay (today now - n))
    by (apply yearFromDay_mono; lia).
  assert (JS.parseISODate (JS.toISODate (today now - n)) = Some (today now - n)) as Hn
    by (apply parseISODate_toISODate; lia).
  apply (proj2 (le_cutoff_day (today now - m) (today now - n) _ ltac:(lia) Hn)). lia.
Qed.


(** X2: widening the range never hides a record.  For [0 < n <= m] the
    records kept for [n] days are a subsequence of the records kept for [m]
    days, which are a subsequence of the records kept without a range; the
    range [null] and the range 0 keep every record. *)
Theorem filterByRange_widens (now n m : Z) (records : list PRRecord) :
  0 < n ≤ m →
  0 ≤ JS.yearFromDay (today now - m) →
  JS.yearFromDay (today now - n) ≤ 9999 →
  (filterByRange now records (Some n) `sublist_of` filterByRange now records (Some m)) ∧
  (filterByRange now records (Some m) `sublist_of` filterByRange now records None) ∧
  filterByRange now records None = records ∧
  filterByRange now records (Some 0) = records.
Proof.
  intros Hnm Hlo Hhi. unfold filterByRange.
  destruct (Z.eqb_spec n 0) as [|_]; [lia|].
  destruct (Z.eqb_spec m 0) as [|_]; [lia|].
  split; [|split; [apply sublist_filter|split; reflexivity]].
  pose proof (cutoffStr_mono now n m ltac:(lia) Hlo Hhi) as Hle.
  generalize dependent (cutoffStr now m). generalize (cutoffStr now n).
  intros cn cm Hle.
  induction records as [|r rs IH]; [reflexivity|].
  rewrite !filter_cons.
  destruct (decide (String.le cn (closedDate r))) as [H|H],
           (decide (String.le cm (closedDate r))) as [H'|H'].
  - by apply sublist_skip.
  - exfalso. apply H'. exact (transitivity Hle H).
  - by apply sublist_cons.
  - exact IH.
Qed.
End RangeProperties.


Lemma filterByRange_widens_witness :
  let records := Range.january ["2024-01-01"; "2024-01-03"; "2024-01-09"] in
  (Range.filterByRange 1704844800000 records (Some 7) `sublist_of`
     Range.filterByRange 1704844800000 records (Some 30)) ∧
  (Range.filterByRange 1704844800000 records (Some 30) `sublist_of`
     Range.filterByRange 1704844800000 records None) ∧
  Range.filterByRange 1704844800000 records None = records ∧
  Range.filterByRange 1704844800000 records (Some 0) = records.
Proof.
  apply (filterByRange_widens 1704844800000 7 30).
  - lia.
  - vm_compute. intros; discriminate.
  - vm_compute. intros; discriminate.
Defined.

(** ** Display names *)

Section DisplayProperties.
Import Display.

Lemma split_head (sep : ascii) (s : string) :
  ∃ p rest, JS.split sep s = p :: rest ∧ (sep ∉ chars p) ∧
            ((rest = [] ∧ s = p) ∨ ∃ s', s = p +:+ String sep s').
Proof.
  induction s as [|c s (p & rest & Hs & Hp & Hrest)]; cbn [JS.split].
  - exists EmptyString, []. split; [done|]. split; [cbn; apply not_elem_of_nil|]. by left.
  - destruct (Ascii.eqb_spec c sep) as [->|Hne].
    + exists EmptyString, (JS.split sep s). split; [done|].
      split; [cbn; apply not_elem_of_nil|]. right. exists s. reflexivity.
    + rewrite Hs. exists (String c p), rest. split; [done|]. split.
      * cbn [chars]. rewrite elem_of_cons. intros [->|?]; [done|]. by apply Hp.
      * destruct Hrest as [[-> ->]|[s' ->]]; [by left|].
        right. exists s'. reflexivity.
Qed.

(** X3: [getFirstName] returns the part of the name before its first
    space: the result holds no space, and the name is either the result
    itself or the result followed by a space and the rest of the name. *)
Theorem getFirstName_up_to_space (fullName : string) :
  (" "%char ∉ chars (getFirstName fullName)) ∧
  (fullName = getFirstName fullName ∨
   ∃ rest, fullName = getFirstName fullName +:+ String " " rest).
Proof.
  unfold getFirstName.
  destruct (split_head " " fullName) as (p & rest & -> & Hp & Hrest). cbn.
  split; [exact Hp|]. destruct Hrest as [[_ ->]|[s' ->]]; [by left|].
  right. by exists s'.
Qed.
End DisplayProperties.

(** ** The text format, read back *)

Section CodecReadBack.
Import Codec.

Ltac norm_append := repeat (rewrite append_cons || rewrite append_nil_l).

(** X4: for records whose fields are well formed (the title may hold commas
    and double quotes, the other text fields hold neither, and no field holds
    a line feed), [parseCSV] reads from the text of the encoder one record
    per record written, in the same order and with every field as it was
    written, except that the double quotes of a title are dropped; when no
    title holds a double quote the records read are the records written. *)
Theorem csv_round_trip_up_to_title_quotes (records : list PRRecord) :
  Forall wellFormed records →
  parseCSV (encodeCSV records) = decoded <$> records ∧
  length (parseCSV (encodeCSV records)) = length records ∧
  (Forall (λ r, Forall (λ c, c ≠ dquote) (chars (title r))) records →
   parseCSV (encodeCSV records) = records).
Proof.
  intros Hall. pose proof (parseCSV_encodeCSV records Hall) as Hdecoded.
  split; [exact Hdecoded|]. split.
  - rewrite Hdecoded. apply length_fmap.
  - intros Hq. exact (parseCSV_encodeCSV_unquoted records Hall Hq).
Qed.

(** A text of one line, the header or nothing at all, gives no record. *)
Lemma parseCSV_one_line (text : string) : oneLine (JS.trim text) → parseCSV text = [].
Proof. intros Hl. unfold parseCSV. rewrite (split_oneLine _ Hl). reflexivity. Qed.

(** The values that the character loop reads from a line of seven
    columns. *)
Lemma scanLine_legacy (r : PRRecord) :
  wellFormed r →
  scanLine (Legacy.csvLine r) EmptyString false =
  [ author r; authorEmail r; project r; repository r; closedDate r;
    JS.numberToString (prId r); withoutQuotes (title r) ].
Proof.
  intros (Ha & He & Hp & Hr & Hd & _). unfold Legacy.csvLine.
  change ("," : string) with (String comma EmptyString).
  repeat (rewrite scanLine_field by (apply plain_field; first
            [ assumption | apply numberToString_plain ]);
          norm_append; rewrite scanLine_comma; f_equal).
  rewrite <- (append_nil_r (escapedTitle r)). rewrite scanLine_title. reflexivity.
Qed.

Lemma parseLine_legacy (r : PRRecord) :
  wellFormed r → parseLine (Legacy.csvLine r) = Some (Legacy.decoded r).
Proof.
  intros Hr. unfold parseLine. rewrite (scanLine_legacy r Hr).
  cbn [lookup list_lookup]. unfold JS.parseIntOr0, orEmpty.
  rewrite !parseInt_numberToString. reflexivity.
Qed.

Lemma oneLine_legacy (r : PRRecord) : wellFormed r → oneLine (Legacy.csvLine r).
Proof.
  intros (Ha & He & Hp & Hr & Hd & Ht). unfold Legacy.csvLine, escapedTitle.
  assert (Hcomma : oneLine ",") by (repeat constructor; discriminate).
  assert (Hquote : oneLine (str dquote)) by (repeat constructor; discriminate).
  repeat (apply oneLine_app); auto using plain_oneLine, numberToString_plain, oneLine_escaped.
Qed.

Lemma trim_legacy (records : list PRRecord) :
  JS.trim (Legacy.encodeCSV records) = Legacy.encodeCSV records.
Proof.
  unfold JS.trim.
  assert (Hstart : JS.trimStart (Legacy.encodeCSV records) = Legacy.encodeCSV records).
  { unfold Legacy.encodeCSV. destruct (Legacy.csvLine <$> records); reflexivity. }
  rewrite Hstart.
  assert (Hlast : ∃ c, last (chars (Legacy.encodeCSV records)) = Some c ∧
                       JS.isWhiteSpace c = false).
  { unfold Legacy.encodeCSV. destruct (last records) as [r|] eqn:Hr.
    - exists dquote. split; [|reflexivity]. apply last_chars_join.
      rewrite fmap_last, Hr. cbn [default from_option id fmap option_fmap option_map].
      unfold Legacy.csvLine, escapedTitle. repeat apply last_chars_app. reflexivity.
    - apply last_None in Hr. subst records. eexists. split; reflexivity. }
  destruct Hlast as (c & Hc & Hw). exact (trimEnd_last _ c Hc Hw).
Qed.

(** X5: [parseCSV] reads the file of seven columns that the earlier
    fetcher wrote, without the two columns of line counts: every well formed
    record comes back with its fields (the title without double quotes) and
    with [linesAdded] and [linesDeleted] equal to 0. *)
Theorem parseCSV_reads_seven_columns (records : list PRRecord) :
  Forall wellFormed records →
  parseCSV (Legacy.encodeCSV records) = Legacy.decoded <$> records ∧
  Forall (λ r, linesAdded r = 0 ∧ linesDeleted r = 0) (parseCSV (Legacy.encodeCSV records)).
Proof.
  intros Hall.
  assert (parseCSV (Legacy.encodeCSV records) = Legacy.decoded <$> records) as Hdecoded.
  { unfold parseCSV. rewrite trim_legacy. unfold Legacy.encodeCSV.
    rewrite split_join.
    2:{ constructor; [repeat constructor; discriminate|].
        apply Forall_fmap. eapply Forall_impl; [exact Hall|]. apply oneLine_legacy. }
    change (drop 1 (Legacy.csvHeader :: (Legacy.csvLine <$> records)))
      with (Legacy.csvLine <$> records).
    induction Hall as [|r records Hr Hall IH]; [reflexivity|].
    cbn [fmap list_fmap omap list_omap]. rewrite (parseLine_legacy r Hr).
    f_equal. exact IH. }
  split; [exact Hdecoded|]. rewrite Hdecoded. apply Forall_fmap, Forall_true.
  intros r. split; reflexivity.
Qed.
(** *** White space around the text *)

Lemma trimStart_white (w : string) :
  Forall (λ c, JS.isWhiteSpace c = true) (chars w) → JS.trimStart w = EmptyString.
Proof.
  induction w as [|c w IH]; intros Hw; [reflexivity|].
  apply Forall_cons in Hw as [Hc Hw]. cbn [JS.trimStart]. rewrite Hc. exact (IH Hw).
Qed.

Lemma trimStart_white_app (w s : string) :
  Forall (λ c, JS.isWhiteSpace c = true) (chars w) → JS.trimStart (w +:+ s) = JS.trimStart s.
Proof.
  induction w as [|c w IH]; intros Hw; [reflexivity|].
  apply Forall_cons in Hw as [Hc Hw]. rewrite append_cons. cbn [JS.trimStart].
  rewrite Hc. exact (IH Hw).
Qed.

Lemma trimEnd_white (w : string) :
  Forall (λ c, JS.isWhiteSpace c = true) (chars w) → JS.trimEnd w = EmptyString.
Proof.
  induction w as [|c w IH]; intros Hw; [reflexivity|].
  apply Forall_cons in Hw as [Hc Hw]. cbn [JS.trimEnd]. rewrite (IH Hw), Hc. reflexivity.
Qed.

Lemma trimEnd_app_white (s w : string) :
  Forall (λ c, JS.isWhiteSpace c = true) (chars w) → JS.trimEnd (s +:+ w) = JS.trimEnd s.
Proof.
  intros Hw. induction s as [|c s IH].
  - rewrite append_nil_l. exact (trimEnd_white w Hw).
  - rewrite append_cons. cbn [JS.trimEnd]. rewrite IH. reflexivity.
Qed.

Lemma trim_app_white (s w : string) :
  Forall (λ c, JS.isWhiteSpace c = true) (chars w) → JS.trim (s +:+ w) = JS.trim s.
Proof.
  intros Hw. unfold JS.trim. induction s as [|c s IH].
  - rewrite append_nil_l, (trimStart_white w Hw). reflexivity.
  - rewrite append_cons. cbn [JS.trimStart]. destruct (JS.isWhiteSpace c); [exact IH|].
    rewrite <- append_cons. exact (trimEnd_app_white _ w Hw).
Qed.

(** X6: white space before and after the text, such as a final line feed,
    does not change what [parseCSV] reads. *)
Theorem parseCSV_ignores_surrounding_white_space (before text after : string) :
  Forall (λ c, JS.isWhiteSpace c = true) (chars before) →
  Forall (λ c, JS.isWhiteSpace c = true) (chars after) →
  parseCSV (before +:+ text +:+ after) = parseCSV text.
Proof.
  intros Hb Ha. unfold parseCSV. do 3 f_equal. unfold JS.trim at 1.
  rewrite (trimStart_white_app before _ Hb). exact (trim_app_white text after Ha).
Qed.
End CodecReadBack.

Lemma sampleRecord_wellFormed (t : string) :
  Codec.oneLine t → Codec.wellFormed (Codec.sampleRecord t).
Proof.
  intros Ht. unfold Codec.wellFormed, Codec.plain.
  cbn [author authorEmail project repository closedDate title Codec.sampleRecord].
  repeat (split; [cbn [chars]; repeat (constructor; [repeat split; discriminate|]); constructor|]).
  exact Ht.
Defined.

Lemma sampleRecords_wellFormed :
  Forall Codec.wellFormed [Codec.sampleRecord "Fix a, b"; Codec.sampleRecord Codec.quotedTitle].
Proof.
  constructor; [|constructor; [|constructor]]; apply sampleRecord_wellFormed;
    cbn; repeat (constructor; [discriminate|]); constructor.
Defined.

Lemma csv_round_trip_up_to_title_quotes_witness :
  let records := [Codec.sampleRecord "Fix a, b"; Codec.sampleRecord Codec.quotedTitle] in
  Codec.parseCSV (Codec.encodeCSV records) = Codec.decoded <$> records ∧
  length (Codec.parseCSV (Codec.encodeCSV records)) = length records ∧
  (Forall (λ r, Forall (λ c, c ≠ Codec.dquote) (chars (title r))) records →
   Codec.parseCSV (Codec.encodeCSV records) = records).
Proof.
  exact (csv_round_trip_up_to_title_quotes
           [Codec.sampleRecord "Fix a, b"; Codec.sampleRecord Codec.quotedTitle]
           sampleRecords_wellFormed).
Defined.

Lemma parseCSV_reads_seven_columns_witness :
  Codec.parseCSV (Legacy.encodeCSV [Codec.sampleRecord "Fix a, b";
                                    Codec.sampleRecord Codec.quotedTitle]) =
  [ {| author := "Ada Lovelace"; authorEmail := "ada@example.org"; project := "Engine";
       repository := "notes"; closedDate := "2024-01-03"; prId := 17; title := "Fix a, b";
       linesAdded := 0; linesDeleted := 0 |};
    {| author := "Ada Lovelace"; authorEmail := "ada@example.org"; project := "Engine";
       repository := "notes"; closedDate := "2024-01-03"; prId := 17; title := "say hi, all";
       linesAdded := 0; linesDeleted := 0 |} ].
Proof.
  exact (proj1 (parseCSV_reads_seven_columns
                  [Codec.sampleRecord "Fix a, b"; Codec.sampleRecord Codec.quotedTitle]
                  sampleRecords_wellFormed)).
Defined.

Lemma parseCSV_ignores_surrounding_white_space_witness :
  Codec.parseCSV (String " " EmptyString +:+ Codec.encodeCSV [Codec.sampleRecord "Fix a, b"]
                    +:+ String Codec.newline EmptyString) =
  Codec.parseCSV (Codec.encodeCSV [Codec.sampleRecord "Fix a, b"]).
Proof.
  apply (parseCSV_ignores_surrounding_white_space (String " " EmptyString)
           (Codec.encodeCSV [Codec.sampleRecord "Fix a, b"]) (String Codec.newline EmptyString));
    repeat constructor.
Defined.

(** ** What the aggregates hold *)

Section CountProperties.
Import Aggregation.









(** *** The ranked list of authors *)

Lemma setAdd_elem (authors : list string) (a b : string) :
  b ∈ setAdd authors a ↔ b ∈ authors ∨ b = a.
Proof.
  unfold setAdd. destruct (decide (a ∈ authors)) as [Hin|Hin].
  - split; [auto|]. intros [?| ->]; assumption.
  - rewrite elem_of_app, list_elem_of_singleton. reflexivity.
Qed.

Lemma setAdd_NoDup (authors : list string) (a : string) :
  NoDup authors → NoDup (setAdd authors a).
Proof.
  intros Hnd. unfold setAdd. destruct (decide (a ∈ authors)) as [Hin|Hin]; [exact Hnd|].
  apply NoDup_app. split; [exact Hnd|]. split.
  - intros x Hx Hx'. apply list_elem_of_singleton in Hx'. subst x. contradiction.
  - apply NoDup_singleton.
Qed.

Lemma pass_authors (records : list PRRecord) :
  ∀ st, NoDup (psAuthors st) →
        NoDup (psAuthors (foldl passStep st records)) ∧
        ∀ a, a ∈ psAuthors (foldl passStep st records) ↔
             a ∈ psAuthors st ∨ a ∈ author <$> records.
Proof.
  induction records as [|r records IH]; intros st Hnd.
  - cbn [foldl fmap list_fmap]. split; [exact Hnd|]. intros a.
    rewrite elem_of_nil. tauto.
  - cbn [foldl]. destruct (IH (passStep st r)) as [Hnd' Hel].
    { cbn [passStep psAuthors]. apply setAdd_NoDup, Hnd. }
    split; [exact Hnd'|]. intros a. rewrite Hel. cbn [passStep psAuthors].
    rewrite setAdd_elem, fmap_cons, elem_of_cons. tauto.
Qed.




Lemma authorList_elem (records : list PRRecord) (a : string) :
  a ∈ authorList (processData records) ↔ a ∈ author <$> records.
Proof.
  destruct (pass_authors records passInit (NoDup_nil_2 : NoDup (psAuthors passInit)))
    as [_ Hel].
  unfold processData. cbn [authorList]. rewrite stableSort_Permutation, Hel.
  cbn [passInit psAuthors]. rewrite elem_of_nil. tauto.
Qed.




End CountProperties.

(** ** The series of the velocity chart *)

Section SeriesProperties.
Import Aggregation Display.












(** *** Sums over the axis *)






End SeriesProperties.



(** ** The top contributor and the span of weeks *)

Section TopContributor.
Import Stats.







Variable toFixed : Z → Z → nat → string.

End TopContributor.

Section WeekSpan.
Import Stats.

Lemma merge_sort_head (l : list string) (h x : string) :
  head (merge_sort String.le l) = Some h → x ∈ l → h ∈ l ∧ String.le h x.
Proof.
  intros Hh Hx. pose proof (StronglySorted_merge_sort String.le l) as Hs.
  pose proof (merge_sort_Permutation String.le l) as Hperm.
  rewrite <- Hperm in Hx. rewrite <- Hperm.
  destruct (merge_sort String.le l) as [|y s]; [discriminate|]. injection Hh as ->.
  split; [left|]. apply elem_of_cons in Hx as [->|Hx]; [reflexivity|].
  apply StronglySorted_inv in Hs as [_ Hall]. rewrite Forall_forall in Hall. exact (Hall _ Hx).
Qed.

Lemma merge_sort_last (l : list string) (t x : string) :
  last (merge_sort String.le l) = Some t → x ∈ l → t ∈ l ∧ String.le x t.
Proof.
  intros Ht Hx. pose proof (StronglySorted_merge_sort String.le l) as Hs.
  pose proof (merge_sort_Permutation String.le l) as Hperm.
  rewrite <- Hperm in Hx. rewrite <- Hperm.
  apply last_Some in Ht as [s Hl]. rewrite Hl in Hs, Hx. rewrite Hl.
  split; [apply elem_of_app; right; left|].
  apply elem_of_app in Hx as [Hx|Hx].
  - apply (StronglySorted_app_1_elem_of String.le s [t] x t Hs Hx). left.
  - apply list_elem_of_singleton in Hx as ->. reflexivity.
Qed.

(** The span of weeks is the least number of weeks, at least one, that
    covers the days from the earliest to the latest closed date. *)
Lemma weekSpanOf_covers (closedDates : list string) :
  closedDates ≠ [] →
  Forall (λ s, is_Some (JS.parseISODate s)) closedDates →
  ∃ w lo hi first last,
    weekSpanOf closedDates = Some w ∧
    first ∈ closedDates ∧ JS.parseISODate first = Some lo ∧
    last ∈ closedDates ∧ JS.parseISODate last = Some hi ∧
    (∀ s d, s ∈ closedDates → JS.parseISODate s = Some d → lo ≤ d ≤ hi) ∧
    1 ≤ w ∧ hi - lo ≤ 7 * w ∧ (1 < w → 7 * (w - 1) < hi - lo).
Proof.
  intros Hne Hvalid. rewrite Forall_forall in Hvalid. unfold weekSpanOf.
  destruct closedDates as [|s0 rest]; [contradiction|]. clear Hne.
  set (l := s0 :: rest) in *.
  assert (s0 ∈ l) as H0 by left.
  destruct (head (merge_sort String.le l)) as [h|] eqn:Hh.
  2:{ exfalso. apply head_None in Hh.
      pose proof (merge_sort_Permutation String.le l) as Hperm. rewrite Hh in Hperm.
      apply Permutation_nil_l in Hperm. discriminate. }
  destruct (list.last (merge_sort String.le l)) as [t|] eqn:Ht.
  2:{ exfalso. apply last_None in Ht.
      pose proof (merge_sort_Permutation String.le l) as Hperm. rewrite Ht in Hperm.
      apply Permutation_nil_l in Hperm. discriminate. }
  destruct (merge_sort_head l h s0 Hh H0) as [Hhin _].
  destruct (merge_sort_last l t s0 Ht H0) as [Htin _].
  destruct (Hvalid h Hhin) as [lo Hlo]. destruct (Hvalid t Htin) as [hi Hhi].
  cbn [mbind option_bind]. rewrite Hlo, Hhi. cbn [mbind option_bind].
  assert (Hbetween : ∀ s d, s ∈ l → JS.parseISODate s = Some d → lo ≤ d ≤ hi).
  { intros s d Hs Hd. split.
    - apply (parseISODate_mono h s lo d Hlo Hd). exact (proj2 (merge_sort_head l h s Hh Hs)).
    - apply (parseISODate_mono s t d hi Hd Hhi). exact (proj2 (merge_sort_last l t s Ht Hs)). }
  exists (Z.max 1 (- ((lo - hi) / 7))), lo, hi, h, t.
  split; [reflexivity|]. repeat (split; [assumption|]).
  pose proof (Hbetween h lo Hhin Hlo) as Hle.
  split; [lia|]. split.
  - apply Z.max_case_strong; intros; Z.div_mod_to_equations; lia.
  - intros Hw. revert Hw. apply Z.max_case_strong; intros; Z.div_mod_to_equations; lia.
Qed.

Lemma foldl_sum (f : PRRecord → Z) (records : list PRRecord) :
  ∀ z, foldl (λ sum r, sum + f r) z records = z + sumList (f <$> records).
Proof.
  induction records as [|r records IH]; intros z; cbn [foldl fmap list_fmap].
  - unfold sumList. cbn [foldr]. lia.
  - rewrite IH. unfold sumList. cbn [foldr]. lia.
Qed.

Variable toFixed : Z → Z → nat → string.

(** X12: when the selected records are not empty and their closed dates
    are calendar dates, [weeks] of [getStats] and of [getImpactStats] is the
    least number of weeks, at least one, that covers the days from the
    earliest to the latest closed date; [total] is the number of selected
    records, [netChange] is the lines added minus the lines deleted, and the
    two averages are the quotients of [total] and of [netChange] by that
    number of weeks, printed by [toFixed] with one and with no decimals. *)
Theorem stats_weeks_cover_the_span (records : list PRRecord) (a : option string) :
  filterAuthor records a ≠ [] →
  Forall (λ r, is_Some (JS.parseISODate (closedDate r))) (filterAuthor records a) →
  let filtered := filterAuthor records a in
  let net := sumList (linesAdded <$> filtered) - sumList (linesDeleted <$> filtered) in
  ∃ w lo hi first last,
    first ∈ filtered ∧ JS.parseISODate (closedDate first) = Some lo ∧
    last ∈ filtered ∧ JS.parseISODate (closedDate last) = Some hi ∧
    (∀ r d, r ∈ filtered → JS.parseISODate (closedDate r) = Some d → lo ≤ d ≤ hi) ∧
    1 ≤ w ∧ hi - lo ≤ 7 * w ∧ (1 < w → 7 * (w - 1) < hi - lo) ∧
    weeks (getStats toFixed records a) = Some w ∧
    Impact.weeks (getImpactStats toFixed records a) = Some w ∧
    total (getStats toFixed records a) = Z.of_nat (length filtered) ∧
    avgPerWeek (getStats toFixed records a) = toFixed (Z.of_nat (length filtered)) w 1 ∧
    Impact.netChange (getImpactStats toFixed records a) = net ∧
    Impact.avgPerWeek (getImpactStats toFixed records a) = toFixed net w 0.
Proof.
  intros Hne Hvalid filtered net.
  assert (Hlen : Z.of_nat (length filtered) =? 0 = false).
  { apply Z.eqb_neq. intros H0. apply Hne, nil_length_inv.
    fold filtered. apply Nat2Z.inj. exact H0. }
  destruct (weekSpanOf_covers (closedDate <$> filtered)) as
    (w & lo & hi & first & last & Hw & Hfirst & Hlo & Hlast & Hhi & Hbetween & H1 & H2 & H3).
  { intros Hnil. apply fmap_nil_inv in Hnil. contradiction. }
  { apply Forall_fmap. exact Hvalid. }
  apply list_elem_of_fmap in Hfirst as (rf & -> & Hrf).
  apply list_elem_of_fmap in Hlast as (rl & -> & Hrl).
  exists w, lo, hi, rf, rl.
  repeat (split; [assumption|]). split.
  { intros r d Hr Hd. apply (Hbetween (closedDate r) d); [|exact Hd].
    apply list_elem_of_fmap. exists r. auto. }
  repeat (split; [assumption|]).
  unfold getStats, getImpactStats. fold filtered. rewrite Hlen.
  cbn [weeks Impact.weeks total avgPerWeek Impact.netChange Impact.avgPerWeek].
  rewrite Hw, !foldl_sum. cbn [average]. fold net.
  repeat split; reflexivity.
Qed.
End WeekSpan.


(** ** What the outlier filter removes *)

Section OutlierBounds.
Import Outliers.




Lemma filter_all {A : Type} (P : A → Prop) `{Pdec : !∀ x, Decision (P x)} (l : list A) :
  (∀ x, x ∈ l → P x) → filter P l = l.
Proof.
  induction l as [|x l IH]; intros Hall; [reflexivity|].
  rewrite filter_cons, decide_True by (apply Hall; left).
  f_equal. apply IH. intros y Hy. apply Hall. right. exact Hy.
Qed.

(** The threshold of a non-empty list for a percentile of at least zero. *)
Lemma threshold_exists (records : list PRRecord) (percentile : Z) :
  records ≠ [] → 0 ≤ percentile →
  let n := Z.of_nat (length records) in
  ∃ t, sortedTotals records !! Z.to_nat (thresholdIndex n percentile) = Some t ∧
       0 ≤ thresholdIndex n percentile < n ∧
       removeOutliers records percentile =
       Some (filter (λ r, totalLines r ≤ t) records).
Proof.
  intros Hne Hp n.
  destruct (sortedTotals_ascending records) as [_ Hperm].
  assert (Hn : 0 < n).
  { subst n. destruct records; [contradiction | cbn [length]; lia]. }
  assert (Hidx : 0 ≤ thresholdIndex n percentile < n).
  { unfold thresholdIndex. assert (0 ≤ n * percentile / 100) by (apply Z.div_pos; lia). lia. }
  destruct (sortedTotals records !! Z.to_nat (thresholdIndex n percentile)) as [t|] eqn:Ht.
  2:{ apply lookup_ge_None in Ht. rewrite (Permutation_length Hperm), length_fmap in Ht.
      subst n. lia. }
  exists t. split; [reflexivity|]. split; [exact Hidx|].
  rewrite (removeOutliers_spec records percentile Hne). fold n. unfold at_.
  destruct (Z.ltb_spec (thresholdIndex n percentile) 0) as [?|_]; [lia|].
  rewrite Ht. reflexivity.
Qed.

(** X13: [removeOutliers] returns its input unchanged whenever
    [n * (100 - percentile) <= 100] for the number [n] of records: for a
    percentile of 100 or more, and for the percentile 99 and up to 100
    records. *)
Theorem removeOutliers_keeps_all_of_a_short_list (records : list PRRecord) (percentile : Z) :
  Z.of_nat (length records) * (100 - percentile) ≤ 100 →
  removeOutliers records percentile = Some records.
Proof.
  intros Hfew. destruct (decide (records = [])) as [->|Hne]; [reflexivity|].
  set (n := Z.of_nat (length records)) in *.
  assert (Hn : 0 < n).
  { subst n. destruct records; [contradiction | cbn [length]; lia]. }
  assert (Hp : 0 ≤ percentile) by nia.
  destruct (threshold_exists records percentile Hne Hp) as (t & Ht & _ & ->).
  fold n in Ht.
  assert (Hidx : thresholdIndex n percentile = n - 1).
  { unfold thresholdIndex. apply Z.min_r.
    apply Z.div_le_lower_bound; lia. }
  rewrite Hidx in Ht. f_equal.
  destruct (sortedTotals_ascending records) as [Hs Hperm].
  apply Sorted_StronglySorted in Hs; [|intros x y z; lia].
  assert (Hlen : length (sortedTotals records) = length records)
    by (rewrite (Permutation_length Hperm); apply length_fmap).
  assert (Hall : ∀ x, x ∈ sortedTotals records → x ≤ t).
  { intros x Hx.
    assert (Hlast : list.last (sortedTotals records) = Some t).
    { rewrite last_lookup, <- Ht. f_equal. rewrite Hlen. subst n. lia. }
    apply last_Some in Hlast as [l Hl]. rewrite Hl in Hs, Hx.
    apply elem_of_app in Hx as [Hx|Hx].
    - apply (StronglySorted_app_1_elem_of Z.le l [t] x t Hs Hx). left.
    - apply list_elem_of_singleton in Hx as ->. lia. }
  apply filter_all. intros r Hr. apply Hall. rewrite Hperm.
  apply list_elem_of_fmap. exists r. auto.
Qed.

End OutlierBounds.

Lemma removeOutliers_keeps_all_of_a_short_list_witness :
  Outliers.removeOutliers [Outliers.withLines 3; Outliers.withLines 900;
                           Outliers.withLines 5] 99 =
  Some [Outliers.withLines 3; Outliers.withLines 900; Outliers.withLines 5].
Proof.
  apply (removeOutliers_keeps_all_of_a_short_list
           [Outliers.withLines 3; Outliers.withLines 900; Outliers.withLines 5] 99).
  vm_compute. discriminate.
Defined.


(** ** The extent of the smoothing window *)

Section WindowExtent.
Import MovingAverage.
Context {num : Type}.
Variable zero : num.
Variable add : num → num → num.
Variable div : num → num → num.
Variable ofZ : Z → num.

Lemma inBounds_all (data : list num) (lo hi : Z) :
  lo ≤ 0 → Z.of_nat (length data) - 1 ≤ hi → inBounds data lo hi = data.
Proof.
  intros Hlo Hhi. unfold inBounds.
  replace (Z.to_nat (Z.max lo 0)) with 0%nat by lia. rewrite drop_0.
  apply take_ge. lia.
Qed.

(** X15: for a window size above one, the smoothing only depends on half
    the window size rounded down: an even size gives the result of the next
    odd size.  When that half covers the series, every point of the result
    is the mean of the whole series. *)
Theorem moving_average_window_extent (data : list num) (windowSize : Z) :
  1 < windowSize →
  calculateMovingAverage zero add div ofZ data windowSize =
    calculateMovingAverage zero add div ofZ data (2 * (windowSize / 2) + 1) ∧
  (Z.of_nat (length data) - 1 ≤ windowSize / 2 →
   calculateMovingAverage zero add div ofZ data windowSize =
     replicate (length data) (mean zero add div ofZ data)).
Proof.
  intros Hw. assert (Hh : 0 < windowSize / 2) by (apply Z.div_str_pos; lia).
  unfold calculateMovingAverage.
  destruct (Z.leb_spec windowSize 1) as [?|_]; [lia|].
  destruct (Z.leb_spec (2 * (windowSize / 2) + 1) 1) as [?|_]; [lia|].
  split.
  - replace ((2 * (windowSize / 2) + 1) / 2) with (windowSize / 2); [reflexivity|].
    rewrite Z.mul_comm, Z.div_add_l by lia. change (1 / 2) with 0. lia.
  - intros Hwide. set (halfWindow := windowSize / 2) in *.
    apply list_eq. intros i. rewrite list_lookup_fmap.
    destruct (decide (i < length data)%nat) as [Hi|Hi].
    + rewrite lookup_seqZ_lt, lookup_replicate_2 by lia.
      cbn [fmap option_fmap option_map]. f_equal.
      unfold smoothedAt. rewrite windowLoop_inBounds by lia.
      rewrite inBounds_all by lia. unfold mean.
      destruct (Z.ltb_spec 0 (Z.of_nat (length data))) as [_|?]; [reflexivity | lia].
    + rewrite lookup_seqZ_ge by lia.
      symmetry. apply lookup_replicate_None. lia.
Qed.
End WindowExtent.

Lemma moving_average_window_extent_witness :
  MovingAverage.calculateMovingAverage 0%Q Qplus Qdiv inject_Z MovingAverage.sampleSeries 6 =
    MovingAverage.calculateMovingAverage 0%Q Qplus Qdiv inject_Z MovingAverage.sampleSeries 7 ∧
  MovingAverage.calculateMovingAverage 0%Q Qplus Qdiv inject_Z MovingAverage.sampleSeries 6 =
    replicate 4 (MovingAverage.mean 0%Q Qplus Qdiv inject_Z MovingAverage.sampleSeries).
Proof.
  destruct (moving_average_window_extent 0%Q Qplus Qdiv inject_Z MovingAverage.sampleSeries 6)
    as [Hodd Hwide]; [lia|].
  split; [exact Hodd|]. apply Hwide. vm_compute. discriminate.
Defined.

(** ** The page loop against any upstream *)

Section PageLoopProperties.
Import Fetcher.
Variable api : Upstream.
Variable cutoffDate : Z.
Variable fetchLOCStats : bool.
Variables projectName repoName repoId : string.

Local Abbreviation recordOf' := (recordOf api cutoffDate fetchLOCStats projectName repoName repoId).
Local Abbreviation pageLoop' fuel := (pageLoop api cutoffDate fetchLOCStats fuel projectName repoName repoId).

Lemma offsetsFrom_0 (skip : Z) : offsetsFrom skip 0 = [].
Proof. reflexivity. Qed.

(** The loop ends at the first request that fails and keeps the records of
    the pages before it. *)
Lemma pageLoop_failure (pages : list (list PullRequest)) :
  ∀ (fuel : nat) (skip : Z) (allRecords : list PRRecord) (requested : list Z),
    servesFrom api projectName repoId skip pages →
    Forall (λ page, top ≤ Z.of_nat (length page)) pages →
    (listPullRequests api projectName repoId top (skip + Z.of_nat (length pages) * top) = NotOk ∨
     listPullRequests api projectName repoId top (skip + Z.of_nat (length pages) * top) = Throws) →
    (length pages < fuel)%nat →
    pageLoop' fuel skip allRecords requested =
    Some (allRecords ++ omap recordOf' (concat pages),
          requested ++ offsetsFrom skip (S (length pages))).
Proof.
  induction pages as [|page pages IH]; intros fuel skip allRecords requested Hs Hfull Hfail Hfuel.
  - destruct fuel as [|fuel]; [cbn in Hfuel; lia|]. cbn [length] in Hfail.
    replace (skip + Z.of_nat 0 * top) with skip in Hfail by lia.
    cbn [pageLoop length concat omap list_omap].
    rewrite offsetsFrom_S, offsetsFrom_0, app_nil_r.
    destruct Hfail as [-> | ->]; reflexivity.
  - destruct fuel as [|fuel]; [cbn in Hfuel; lia|].
    cbn [pageLoop]. destruct (Hs 0%nat page eq_refl) as [value [Hv Hd]].
    replace (skip + Z.of_nat 0 * top) with skip in Hv by lia.
    rewrite Hv, Hd. apply Forall_cons in Hfull as [Hpage Hfull]. unfold top in Hpage.
    destruct (Z.eqb_spec (Z.of_nat (length page)) 0) as [H0|H0]; [lia|].
    destruct (Z.ltb_spec (Z.of_nat (length page)) top) as [Hlt|_];
      [unfold top in Hlt; lia|].
    rewrite (IH fuel (skip + top) _ _ (servesFrom_tail api projectName repoId skip page pages Hs) Hfull).
    + cbn [concat length]. rewrite omap_app, <- !app_assoc.
      rewrite (offsetsFrom_S skip (S (length pages))). reflexivity.
    + cbn [length] in Hfail.
      replace (skip + top + Z.of_nat (length pages) * top)
        with (skip + Z.of_nat (S (length pages)) * top) by lia.
      exact Hfail.
    + cbn [length] in Hfuel. lia.
Qed.

(** X16: when the upstream serves pages that all hold at least [top]
    items and the request behind them fails, with a failure status or by
    throwing, the page loop ends at that request: it has requested the
    offsets 0, [top], ... up to the failing one, and it returns the records
    of the pages served before the failure. *)
Theorem pagination_stops_at_failed_request (pages : list (list PullRequest)) (fuel : nat) :
  servesFrom api projectName repoId 0 pages →
  Forall (λ page, top ≤ Z.of_nat (length page)) pages →
  (listPullRequests api projectName repoId top (Z.of_nat (length pages) * top) = NotOk ∨
   listPullRequests api projectName repoId top (Z.of_nat (length pages) * top) = Throws) →
  (length pages < fuel)%nat →
  fetchRepository api cutoffDate fetchLOCStats fuel projectName repoName repoId =
  Some (omap recordOf' (concat pages), offsetsFrom 0 (S (length pages))).
Proof.
  intros Hs Hfull Hfail Hfuel. unfold fetchRepository.
  exact (pageLoop_failure pages fuel 0 [] [] Hs Hfull Hfail Hfuel).
Qed.

(** What holds of the records and of the offsets whatever the upstream
    answers. *)
Lemma pageLoop_invariant (P : PRRecord → Prop) :
  (∀ pr r, recordOf' pr = Some r → P r) →
  ∀ (fuel : nat) (skip : Z) (allRecords : list PRRecord) (requested : list Z)
    (out : list PRRecord) (requested' : list Z),
    Forall P allRecords →
    pageLoop' fuel skip allRecords requested = Some (out, requested') →
    Forall P out ∧
    ∃ n, (1 ≤ n ≤ fuel)%nat ∧ requested' = requested ++ offsetsFrom skip n.
Proof.
  intros HP. induction fuel as [|fuel IH]; intros skip allRecords requested out requested' Hall;
    [discriminate|].
  cbn [pageLoop].
  assert (Hone : requested ++ [skip] = requested ++ offsetsFrom skip 1)
    by (rewrite offsetsFrom_S, offsetsFrom_0; reflexivity).
  destruct (listPullRequests api projectName repoId top skip) as [| |value].
  - intros [= <- <-]. split; [exact Hall|]. exists 1%nat. split; [lia | exact Hone].
  - intros [= <- <-]. split; [exact Hall|]. exists 1%nat. split; [lia | exact Hone].
  - assert (Hall' : Forall P (allRecords ++ omap recordOf' (default [] value))).
    { apply Forall_app. split; [exact Hall|]. apply Forall_forall. intros r Hr.
      apply list_elem_of_omap in Hr as [pr [_ Hrec]]. exact (HP pr r Hrec). }
    destruct (Z.of_nat (length (default [] value)) =? 0).
    + intros [= <- <-]. split; [exact Hall|]. exists 1%nat. split; [lia | exact Hone].
    + destruct (Z.of_nat (length (default [] value)) <? top).
      * intros [= <- <-]. split; [exact Hall'|]. exists 1%nat. split; [lia | exact Hone].
      * intros Hrun. destruct (IH _ _ _ _ _ Hall' Hrun) as [Hout [n [Hn ->]]].
        split; [exact Hout|]. exists (S n). split; [lia|].
        rewrite offsetsFrom_S, <- app_assoc. reflexivity.
Qed.

Lemma recordOf_shape (pr : PullRequest) (r : PRRecord) :
  recordOf' pr = Some r →
  project r = projectName ∧ repository r = repoName ∧ author r ≠ EmptyString ∧
  (∃ closed, prClosedDate pr = Some closed ∧ cutoffDate ≤ closed ∧
             closedDate r = JS.toISODate (closed / JS.msPerDay)) ∧
  (fetchLOCStats = false → linesAdded r = 0 ∧ linesDeleted r = 0).
Proof.
  intros Hrec. pose proof (recordOf_cutoff api cutoffDate fetchLOCStats projectName repoName repoId pr r Hrec) as Hcut.
  revert Hrec. unfold recordOf. destruct (prClosedDate pr) as [closed|]; [|discriminate].
  destruct (cutoffDate <=? closed); [|discriminate].
  intros [= <-]. cbn [project repository author linesAdded linesDeleted].
  split; [reflexivity|]. split; [reflexivity|]. split.
  - unfold orString. destruct (createdBy pr ≫= displayName) as [[|c s]|]; discriminate.
  - split; [exact Hcut|]. intros ->. split; reflexivity.
Qed.

(** X17: whatever the upstream answers, when the page loop of a repository
    ends, every record it returns carries the project and the repository
    asked for, an author that is not empty, and as closed date the day of an
    instant at or after the cutoff; without the line counts both counts are
    0; and the offsets requested are 0, [top], [2 * top], ... without a gap,
    at least one and at most one per unit of fuel. *)
Theorem fetched_records_whatever_the_upstream_answers (fuel : nat)
    (records : list PRRecord) (requested : list Z) :
  fetchRepository api cutoffDate fetchLOCStats fuel projectName repoName repoId =
    Some (records, requested) →
  Forall (λ r, project r = projectName ∧ repository r = repoName ∧
               author r ≠ EmptyString ∧
               (∃ closed, cutoffDate ≤ closed ∧
                          closedDate r = JS.toISODate (closed / JS.msPerDay)) ∧
               (fetchLOCStats = false → linesAdded r = 0 ∧ linesDeleted r = 0)) records ∧
  ∃ n, (1 ≤ n ≤ fuel)%nat ∧ requested = offsetsFrom 0 n.
Proof.
  unfold fetchRepository. intros Hrun.
  refine (pageLoop_invariant _ _ fuel 0 [] [] records requested (Forall_nil_2 _) Hrun).
  intros pr r Hrec. destruct (recordOf_shape pr r Hrec) as (Hp & Hn & Ha & Hc & Hl).
  repeat (split; [assumption|]). split; [|exact Hl].
  destruct Hc as (closed & _ & Hle & Hd). exists closed. split; assumption.
Qed.
End PageLoopProperties.

(** Without the line counts no record depends on the commit endpoints. *)
Section WithoutLineCounts.
Import Fetcher.
Variables api api' : Upstream.
Variable cutoffDate : Z.
Variables projectName repoName repoId : string.

Lemma pageLoop_without_loc (fuel : nat) :
  (∀ skip, listPullRequests api projectName repoId top skip =
           listPullRequests api' projectName repoId top skip) →
  ∀ (skip : Z) (allRecords : list PRRecord) (requested : list Z),
    pageLoop api cutoffDate false fuel projectName repoName repoId skip allRecords requested =
    pageLoop api' cutoffDate false fuel projectName repoName repoId skip allRecords requested.
Proof.
  intros Hsame. induction fuel as [|fuel IH]; intros skip allRecords requested; [reflexivity|].
  cbn [pageLoop]. rewrite <- Hsame.
  destruct (listPullRequests api projectName repoId top skip) as [| |value]; try reflexivity.
  destruct (Z.of_nat (length (default [] value)) =? 0); [reflexivity|].
  change (recordOf api' cutoffDate false projectName repoName repoId)
    with (recordOf api cutoffDate false projectName repoName repoId).
  destruct (Z.of_nat (length (default [] value)) <? top); [reflexivity|]. apply IH.
Qed.

(** X18: without the line counts the result for a repository depends on
    the upstream only through the lists of pull requests: two upstreams that
    answer these requests alike give the same records and the same
    requests, whatever their commit endpoints answer. *)
Theorem without_loc_only_the_pull_request_lists_are_read (fuel : nat) :
  (∀ skip, listPullRequests api projectName repoId top skip =
           listPullRequests api' projectName repoId top skip) →
  fetchRepository api cutoffDate false fuel projectName repoName repoId =
  fetchRepository api' cutoffDate false fuel projectName repoName repoId.
Proof.
  intros Hsame. unfold fetchRepository. apply pageLoop_without_loc. exact Hsame.
Qed.
End WithoutLineCounts.

Lemma pagination_stops_at_failed_request_witness :
  Fetcher.fetchRepository (Run.failingAfter [replicate 1000 (Fetcher.closedAt 2 5000)])
                          5000 false 2 "Engine" "notes" "r1" =
  Some (omap (Fetcher.recordOf (Run.failingAfter [replicate 1000 (Fetcher.closedAt 2 5000)])
                               5000 false "Engine" "notes" "r1")
             (concat [replicate 1000 (Fetcher.closedAt 2 5000)]),
        Fetcher.offsetsFrom 0 2).
Proof.
  apply (pagination_stops_at_failed_request
           (Run.failingAfter [replicate 1000 (Fetcher.closedAt 2 5000)])
           5000 false "Engine" "notes" "r1" [replicate 1000 (Fetcher.closedAt 2 5000)] 2).
  - intros i page Hp. destruct i as [|i]; [|discriminate Hp].
    injection Hp as <-. eexists. split; reflexivity.
  - constructor; [|constructor]. apply Z.leb_le. vm_compute. reflexivity.
  - left. reflexivity.
  - repeat constructor.
Defined.

Lemma fetched_records_whatever_the_upstream_answers_witness :
  ∃ records requested,
    Fetcher.fetchRepository
      (Fetcher.pagedUpstream [[Fetcher.closedAt 3 86400000; Fetcher.neverClosed 4;
                               Fetcher.closedAt 5 0]])
      5000 false 1 "Engine" "notes" "r1" = Some (records, requested) ∧
    length records = 1%nat ∧
    Forall (λ r, project r = "Engine" ∧ repository r = "notes" ∧
                 author r ≠ EmptyString ∧
                 (∃ closed, 5000 ≤ closed ∧
                            closedDate r = JS.toISODate (closed / JS.msPerDay)) ∧
                 (false = false → linesAdded r = 0 ∧ linesDeleted r = 0)) records ∧
    ∃ n, (1 ≤ n ≤ 1)%nat ∧ requested = Fetcher.offsetsFrom 0 n.
Proof.
  eexists _, _. split; [vm_compute; reflexivity|]. split; [reflexivity|].
  apply (fetched_records_whatever_the_upstream_answers
           (Fetcher.pagedUpstream [[Fetcher.closedAt 3 86400000; Fetcher.neverClosed 4;
                                    Fetcher.closedAt 5 0]])
           5000 false "Engine" "notes" "r1" 1).
  vm_compute. reflexivity.
Defined.

Lemma without_loc_only_the_pull_request_lists_are_read_witness :
  Fetcher.fetchRepository (Fetcher.pagedUpstream Fetcher.samplePages)
                          5000 false 3 "Engine" "notes" "r1" =
  Fetcher.fetchRepository
    {| Fetcher.listPullRequests :=
         Fetcher.listPullRequests (Fetcher.pagedUpstream Fetcher.samplePages);
       Fetcher.listCommits := Fetcher.listCommits Fetcher.sampleUpstream;
       Fetcher.getCommit := Fetcher.getCommit Fetcher.sampleUpstream |}
    5000 false 3 "Engine" "notes" "r1".
Proof.
  apply (without_loc_only_the_pull_request_lists_are_read
           (Fetcher.pagedUpstream Fetcher.samplePages)
           {| Fetcher.listPullRequests :=
                Fetcher.listPullRequests (Fetcher.pagedUpstream Fetcher.samplePages);
              Fetcher.listCommits := Fetcher.listCommits Fetcher.sampleUpstream;
              Fetcher.getCommit := Fetcher.getCommit Fetcher.sampleUpstream |}
           5000 "Engine" "notes" "r1" 3).
  intros skip. reflexivity.
Defined.

(** ** The loop over the repositories *)

Section RepositoryLoop.
Import Fetcher Run.
Variable api : Upstream.
Variable cutoffDate : Z.
Variable fetchLOCStats : bool.

(** X19: when the upstream serves, for every repository that has a project
    name and a name, pages that end with a short page, the loop over the
    repositories returns the records already gathered followed by the
    records of the pages of each such repository, in the order of the
    repository list; a repository without a project name or without a name
    adds nothing; and [onProgress] is called once for each repository that
    is read, in that order, and for no other. *)
Theorem repositories_are_read_in_turn (fuel : nat) (repos : list Repository)
    (pagesOf : list (list (list PullRequest)))
    (allRecords : list PRRecord) (progress : list string) :
  Forall2 (servesRepository api fuel) repos pagesOf →
  repoLoop api cutoffDate fetchLOCStats fuel repos allRecords progress =
  Some (allRecords ++
          concat (zip_with (recordsOfPages api cutoffDate fetchLOCStats) repos pagesOf),
        progress ++ omap (λ repo, snd <$> named repo) repos).
Proof.
  intros Hserved. revert allRecords progress.
  induction Hserved as [|repo pages repos pagesOf Hrepo _ IH]; intros allRecords progress.
  - cbn [repoLoop zip_with concat omap list_omap]. rewrite !app_nil_r. reflexivity.
  - cbn [repoLoop zip_with concat omap list_omap].
    unfold servesRepository in Hrepo. unfold recordsOfPages at 1.
    unfold named in *.
    destruct (repoProject repo) as [[|c p]|]; [| |];
      [ rewrite IH; reflexivity | | rewrite IH; reflexivity ].
    destruct (repoName repo) as [[|c' n]|]; [| |];
      [ rewrite IH; reflexivity | | rewrite IH; reflexivity ].
    destruct Hrepo as (Hs & He & Hfuel).
    rewrite (pageLoop_run api cutoffDate fetchLOCStats (String c p) (String c' n)
               (repoId repo) pages fuel 0 allRecords [] Hs He Hfuel).
    rewrite IH. cbn [fmap option_fmap option_map snd]. rewrite <- !app_assoc. reflexivity.
Qed.
End RepositoryLoop.

Lemma repositories_are_read_in_turn_witness :
  Run.repoLoop (Fetcher.pagedUpstream Fetcher.samplePages) 5000 false 3
               Run.sampleRepositories [] [] =
  Some ([] ++ concat (zip_with (Run.recordsOfPages (Fetcher.pagedUpstream Fetcher.samplePages)
                                                  5000 false)
                               Run.sampleRepositories [Fetcher.samplePages; []]),
        [] ++ omap (λ repo, snd <$> Run.named repo) Run.sampleRepositories).
Proof.
  apply (repositories_are_read_in_turn (Fetcher.pagedUpstream Fetcher.samplePages) 5000 false 3
           Run.sampleRepositories [Fetcher.samplePages; []] [] []).
  constructor; [|constructor; [exact I | constructor]].
  exact (conj samplePages_served (conj samplePages_short_last (le_n 3))).
Defined.

(** ** The export: order, text and summary *)

Section SortByCollation.
Import Aggregation.
Context {A : Type}.
Variable key : A → string.
Variable cmp : string → string → Z.
Hypothesis collated : Run.collation cmp.

Lemma insertSorted_collated (x : A) (l : list A) :
  StronglySorted (λ a b, cmp (key a) (key b) ≤ 0) l →
  StronglySorted (λ a b, cmp (key a) (key b) ≤ 0)
                 (insertSorted (λ a b, cmp (key a) (key b) <=? 0) x l).
Proof.
  destruct collated as [Htotal Htrans].
  induction 1 as [|y l Hl IH Hy]; cbn [insertSorted].
  - repeat constructor.
  - destruct (Z.leb_spec (cmp (key x) (key y)) 0) as [Hle|Hgt].
    + constructor; [constructor; assumption|]. constructor; [exact Hle|].
      eapply Forall_impl; [exact Hy|]. cbn. intros z Hz. exact (Htrans _ _ _ Hle Hz).
    + constructor; [exact IH|].
      rewrite (insertSorted_Permutation _ x l). constructor; [|exact Hy].
      destruct (Htotal (key x) (key y)); [lia | assumption].
Qed.

Lemma stableSort_collated (l : list A) :
  StronglySorted (λ a b, cmp (key a) (key b) ≤ 0)
                 (stableSort (λ a b, cmp (key a) (key b) <=? 0) l).
Proof.
  induction l as [|x l IH]; [constructor|].
  cbn [stableSort foldr]. apply insertSorted_collated, IH.
Qed.

(** The elements of one key keep their order. *)
Lemma insertSorted_stable (d : string) (x : A) (l : list A) :
  filter (λ a, key a = d) (insertSorted (λ a b, cmp (key a) (key b) <=? 0) x l) =
  filter (λ a, key a = d) (x :: l).
Proof.
  destruct collated as [Htotal _].
  induction l as [|y l IH]; cbn [insertSorted]; [reflexivity|].
  destruct (Z.leb_spec (cmp (key x) (key y)) 0) as [Hle|Hgt]; [reflexivity|].
  assert (Hne : key x ≠ key y).
  { intros Heq. rewrite Heq in Hgt. destruct (Htotal (key y) (key y)); lia. }
  rewrite (filter_cons _ y), IH, !(filter_cons _ x), (filter_cons _ y).
  destruct (decide (key y = d)) as [Hy|Hy], (decide (key x = d)) as [Hx|Hx];
    try reflexivity. congruence.
Qed.

Lemma stableSort_stable (d : string) (l : list A) :
  filter (λ a, key a = d) (stableSort (λ a b, cmp (key a) (key b) <=? 0) l) =
  filter (λ a, key a = d) l.
Proof.
  induction l as [|x l IH]; [reflexivity|].
  cbn [stableSort foldr]. rewrite insertSorted_stable, !filter_cons.
  fold (stableSort (λ a b, cmp (key a) (key b) <=? 0) l). rewrite IH. reflexivity.
Qed.
End SortByCollation.

Section ExportProperties.
Import Run.
Variable localeCompare : string → string → Z.

(** X20: for a collation that is a total preorder, the text that the
    export writes is the encoding of the gathered records rearranged in
    ascending order of their closed dates; no record is lost or repeated,
    and the records of one closed date keep the order in which they were
    gathered. *)
Theorem export_lists_the_records_by_date (allRecords : list PRRecord) :
  collation localeCompare →
  let sorted := sortByDate localeCompare allRecords in
  (export localeCompare allRecords).1 = Codec.encodeCSV sorted ∧
  sorted ≡ₚ allRecords ∧
  StronglySorted (λ a b, localeCompare (closedDate a) (closedDate b) ≤ 0) sorted ∧
  ∀ d, filter (λ r, closedDate r = d) sorted = filter (λ r, closedDate r = d) allRecords.
Proof.
  intros Hc sorted. split; [reflexivity|]. split; [apply stableSort_Permutation|]. split.
  - exact (stableSort_collated closedDate localeCompare Hc allRecords).
  - intros d. exact (stableSort_stable closedDate localeCompare Hc d allRecords).
Qed.
End ExportProperties.

Lemma codeUnitCompare_le (a b : string) : Run.codeUnitCompare a b ≤ 0 ↔ String.le a b.
Proof.
  unfold Run.codeUnitCompare, String.le, String.leb.
  destruct (String.compare a b); cbn; split; intros; try lia; try tauto.
Qed.

Lemma codeUnitCompare_collation : Run.collation Run.codeUnitCompare.
Proof.
  split.
  - intros a b. rewrite !codeUnitCompare_le. apply total. apply _.
  - intros a b c. rewrite !codeUnitCompare_le. intros Hab Hbc. by etrans.
Defined.

Lemma export_lists_the_records_by_date_witness :
  let allRecords := Range.january ["2024-01-09"; "2024-01-01"; "2024-01-03"] in
  let sorted := Run.sortByDate Run.codeUnitCompare allRecords in
  (Run.export Run.codeUnitCompare allRecords).1 = Codec.encodeCSV sorted ∧
  sorted ≡ₚ allRecords ∧
  StronglySorted (λ a b, Run.codeUnitCompare (closedDate a) (closedDate b) ≤ 0) sorted ∧
  ∀ d, filter (λ r, closedDate r = d) sorted = filter (λ r, closedDate r = d) allRecords.
Proof.
  apply (export_lists_the_records_by_date Run.codeUnitCompare
           (Range.january ["2024-01-09"; "2024-01-01"; "2024-01-03"])).
  exact codeUnitCompare_collation.
Defined.

(** ** The tallies of lines *)

Section TallyProperties.
Import Aggregation.





(** The pass of [processImpactData], when it ends, leaves the tallies
    and the authors that the records determine. *)
Lemma impactPass_tallies (records : list PRRecord) :
  ∀ st st' : ImpactPassState,
    impactPass st records = Some st' →
    ipByAuthor st' =
      foldl (λ m r, tallyUp m (author r) (linesAdded r) (linesDeleted r))
            (ipByAuthor st) records ∧
    ipByProject st' =
      foldl (λ m r, tallyUp m (project r) (linesAdded r) (linesDeleted r))
            (ipByProject st) records ∧
    ipAuthors st' = foldl setAdd (ipAuthors st) (author <$> records).
Proof.
  induction records as [|r records IH]; intros st st'.
  - intros [= <-]. repeat split.
  - cbn [impactPass]. destruct (impactPassStep st r) as [st1|] eqn:Hstep; [|discriminate].
    cbn [mbind option_bind]. intros Hrest. destruct (IH st1 st' Hrest) as (Ha & Hp & Hs).
    unfold impactPassStep in Hstep.
    destruct (bumpImpactBucket _ _ _ _) as [bucket'|]; [|discriminate].
    cbn [mbind option_bind] in Hstep. injection Hstep as <-.
    cbn [ipByAuthor ipByProject ipAuthors] in Ha, Hp, Hs.
    rewrite Ha, Hp, Hs. repeat split.
Qed.

Lemma foldl_setAdd (authors : list string) :
  ∀ seen, NoDup seen →
    NoDup (foldl setAdd seen authors) ∧
    ∀ a, a ∈ foldl setAdd seen authors ↔ a ∈ seen ∨ a ∈ authors.
Proof.
  induction authors as [|x authors IH]; intros seen Hnd.
  - cbn [foldl]. split; [exact Hnd|]. intros a. rewrite elem_of_nil. tauto.
  - cbn [foldl]. destruct (IH (setAdd seen x) (setAdd_NoDup seen x Hnd)) as [Hnd' Hel].
    split; [exact Hnd'|]. intros a. rewrite Hel, setAdd_elem, elem_of_cons. tauto.
Qed.

Lemma impAuthorList_elem (records : list PRRecord) (out : ImpactData) (a : string) :
  processImpactData records = Some out →
  (a ∈ impAuthorList out ↔ a ∈ author <$> records).
Proof.
  unfold processImpactData.
  destruct (impactPass impactPassInit records) as [st|] eqn:Hpass; [|discriminate].
  cbn [mbind option_bind]. intros [= <-].
  destruct (impactPass_tallies records impactPassInit st Hpass) as (_ & _ & Hs).
  destruct (foldl_setAdd (author <$> records) [] (NoDup_nil_2 : NoDup ([] : list string)))
    as [_ Hel].
  cbn [impAuthorList]. rewrite stableSort_Permutation, Hs. cbn [impactPassInit ipAuthors].
  rewrite Hel, elem_of_nil. tauto.
Qed.

End TallyProperties.


Section SummaryProperties.
Import Run.



Variable localeCompare : string → string → Z.

End SummaryProperties.


(** ** The stat cards against the leaderboard *)

Section CardsAndLeaderboard.
Import Aggregation Stats.
Variable toFixed : Z → Z → nat → string.



End CardsAndLeaderboard.

Lemma stats_weeks_cover_the_span_witness :
  let records := Range.january ["2024-01-20"; "2024-01-01"; "2024-01-09"] in
  let filtered := Stats.filterAuthor records None in
  let net := sumList (linesAdded <$> filtered) - sumList (linesDeleted <$> filtered) in
  ∃ w lo hi first last,
    first ∈ filtered ∧ JS.parseISODate (closedDate first) = Some lo ∧
    last ∈ filtered ∧ JS.parseISODate (closedDate last) = Some hi ∧
    (∀ r d, r ∈ filtered → JS.parseISODate (closedDate r) = Some d → lo ≤ d ≤ hi) ∧
    1 ≤ w ∧ hi - lo ≤ 7 * w ∧ (1 < w → 7 * (w - 1) < hi - lo) ∧
    Stats.weeks (Stats.getStats (λ _ _ _, "?") records None) = Some w ∧
    Stats.Impact.weeks (Stats.getImpactStats (λ _ _ _, "?") records None) = Some w ∧
    Stats.total (Stats.getStats (λ _ _ _, "?") records None) = Z.of_nat (length filtered) ∧
    Stats.avgPerWeek (Stats.getStats (λ _ _ _, "?") records None) =
      (λ _ _ _, "?") (Z.of_nat (length filtered)) w 1%nat ∧
    Stats.Impact.netChange (Stats.getImpactStats (λ _ _ _, "?") records None) = net ∧
    Stats.Impact.avgPerWeek (Stats.getImpactStats (λ _ _ _, "?") records None) =
      (λ _ _ _, "?") net w 0%nat.
Proof.
  apply (stats_weeks_cover_the_span (λ _ _ _, "?")
           (Range.january ["2024-01-20"; "2024-01-01"; "2024-01-09"]) None).
  - discriminate.
  - repeat constructor; vm_compute; eauto.
Defined.

Lemma stats_divide_by_positive_witness :
  Stats.getStats (λ _ d _, if d <? 1 then "Infinity" else "ok") Aggregation.scenario None =
    Stats.getStats (λ _ _ _, "ok") Aggregation.scenario None ∧
  Stats.getImpactStats (λ _ d _, if d <? 1 then "Infinity" else "ok")
                       Aggregation.scenario None =
    Stats.getImpactStats (λ _ _ _, "ok") Aggregation.scenario None.
Proof.
  apply (stats_divide_by_positive (λ _ d _, if d <? 1 then "Infinity" else "ok")
           (λ _ _ _, "ok") Aggregation.scenario None).
  intros n d k Hd. destruct (Z.ltb_spec d 1); [lia | reflexivity].
Defined.

(** ** The two views of the dashboard *)

Section DashboardProperties.
Import Dashboard.
Variable now : Z.

(** X25: what the dashboard shows in impact mode is drawn from what it
    shows in velocity mode.  For every loaded list and every range,
    [removeOutliers(filteredRecords, 99)] returns; the records it keeps are
    records of [filteredRecords], in their order, which are records of the
    loaded list, in their order; it keeps at least one record when
    [filteredRecords] has one; and in either mode every name of
    [activeAuthorList] is in the author list of the velocity view and is the
    author of a loaded record. *)
Theorem impact_view_is_within_the_velocity_view (allRecords : list PRRecord)
    (selectedRange : RangeKey) :
  ∃ kept,
    filteredRecordsForImpact now allRecords selectedRange = Some kept ∧
    (kept `sublist_of` filteredRecords now allRecords selectedRange) ∧
    (filteredRecords now allRecords selectedRange `sublist_of` allRecords) ∧
    (filteredRecords now allRecords selectedRange ≠ [] → kept ≠ []) ∧
    ∀ mode authors,
      activeAuthorList now allRecords selectedRange mode = Some authors →
      ∀ a, a ∈ authors →
           a ∈ Aggregation.authorList (data now allRecords selectedRange) ∧
           a ∈ author <$> allRecords.
Proof.
  set (filtered := filteredRecords now allRecords selectedRange).
  assert (Hsub : filtered `sublist_of` allRecords).
  { subst filtered. unfold filteredRecords, Range.filterByRange.
    destruct (rangeDays selectedRange) as [n|]; [|reflexivity].
    destruct (n =? 0); [reflexivity | apply sublist_filter]. }
  assert (Hkept : ∃ kept, filteredRecordsForImpact now allRecords selectedRange = Some kept ∧
                          (kept `sublist_of` filtered) ∧ (filtered ≠ [] → kept ≠ [])).
  { unfold filteredRecordsForImpact. fold filtered.
    destruct (decide (filtered = [])) as [Hnil|Hne].
    - exists []. rewrite Hnil. repeat split; [reflexivity | congruence].
    - destruct (threshold_exists filtered 99 Hne ltac:(lia)) as (t & Ht & _ & Hout).
      eexists. split; [exact Hout|]. split; [apply sublist_filter|].
      intros _ Hempty. destruct (sortedTotals_ascending filtered) as [_ Hperm].
      assert (Hin : t ∈ Outliers.totalLines <$> filtered).
      { rewrite <- Hperm. eapply list_elem_of_lookup_2. exact Ht. }
      apply list_elem_of_fmap in Hin as [r [Ht' Hr]].
      assert (Hf : r ∈ filter (λ r, Outliers.totalLines r ≤ t) filtered).
      { apply list_elem_of_filter. split; [lia | exact Hr]. }
      rewrite Hempty in Hf. exact (not_elem_of_nil _ Hf). }
  destruct Hkept as (kept & Hrun & Hks & Hne). exists kept.
  split; [exact Hrun|]. split; [exact Hks|]. split; [exact Hsub|]. split; [exact Hne|].
  intros mode authors Hactive a Ha.
  assert (Hfiltered : a ∈ author <$> filtered).
  { unfold activeAuthorList, impactData in Hactive. rewrite Hrun in Hactive.
    cbn [mbind option_bind] in Hactive.
    destruct (Aggregation.processImpactData kept) as [out|] eqn:Hout; [|discriminate].
    cbn [mbind option_bind] in Hactive. injection Hactive as <-.
    destruct mode.
    - apply authorList_elem in Ha. exact Ha.
    - apply (impAuthorList_elem kept out a Hout) in Ha.
      apply list_elem_of_fmap in Ha as (r & -> & Hr).
      apply list_elem_of_fmap. exists r. split; [reflexivity|].
      exact (elem_of_sublist _ _ _ Hr Hks). }
  split.
  - apply authorList_elem. exact Hfiltered.
  - apply list_elem_of_fmap in Hfiltered as (r & -> & Hr).
    apply list_elem_of_fmap. exists r. split; [reflexivity|].
    exact (elem_of_sublist _ _ _ Hr Hsub).
Qed.
End DashboardProperties.

(** ** The series of the impact chart *)

Section ImpactSeries.
Import Aggregation Display.








End ImpactSeries.


(** ** The event stream of a refresh *)

Section RefreshProperties.
Import Dashboard.
Context {value : Type}.
Variable parse : string → option (RefreshEvent value).
Variable truthyValue : value → bool.

Lemma split_nonempty (sep : ascii) (s : string) : JS.split sep s ≠ [].
Proof.
  destruct s as [|c s]; cbn [JS.split]; [discriminate|].
  destruct (Ascii.eqb c sep); [discriminate|]. destruct (JS.split sep s); discriminate.
Qed.

Lemma removelast_cons {A : Type} (x : A) (l : list A) :
  l ≠ [] → removelast (x :: l) = x :: removelast l.
Proof. destruct l; [congruence | reflexivity]. Qed.

Lemma lastPiece_cons (p : string) (l : list string) :
  l ≠ [] → lastPiece (p :: l) = lastPiece l.
Proof. destruct l; [congruence | reflexivity]. Qed.

(** Splitting a text in two parts: the pieces of the first part but the
    last, then the pieces of the last one followed by the second part. *)
Lemma split_append (sep : ascii) (a b : string) :
  JS.split sep (a +:+ b) =
  removelast (JS.split sep a) ++ JS.split sep (lastPiece (JS.split sep a) +:+ b).
Proof.
  induction a as [|c a IH].
  - reflexivity.
  - rewrite append_cons. cbn [JS.split]. destruct (Ascii.eqb c sep) eqn:Hc.
    + rewrite removelast_cons, lastPiece_cons by apply split_nonempty.
      rewrite IH. reflexivity.
    + rewrite IH. destruct (JS.split sep a) as [|p rest] eqn:Ha.
      { exfalso. exact (split_nonempty sep a Ha). }
      destruct rest as [|q rest].
      * cbn [removelast app lastPiece last default from_option id].
        rewrite append_cons. cbn [JS.split]. rewrite Hc. reflexivity.
      * rewrite !removelast_cons, !lastPiece_cons by discriminate. reflexivity.
Qed.

Lemma lastPiece_oneLine (s : string) :
  Codec.oneLine (lastPiece (JS.split Codec.newline s)).
Proof.
  induction s as [|c s IH]; cbn [JS.split].
  - constructor.
  - destruct (Ascii.eqb_spec c Codec.newline) as [->|Hne].
    + rewrite lastPiece_cons by apply split_nonempty. exact IH.
    + destruct (JS.split Codec.newline s) as [|p rest] eqn:Hs.
      { exfalso. exact (split_nonempty _ s Hs). }
      destruct rest as [|q rest].
      * cbn [lastPiece last default from_option id] in *. constructor; assumption.
      * rewrite lastPiece_cons in * by discriminate. exact IH.
Qed.

Lemma handleLine_buffer (st : RefreshState value) (line text : string) :
  handleLine parse (setBuffer text st) line = setBuffer text (handleLine parse st line).
Proof.
  unfold handleLine. destruct (String.prefix dataPrefix line); [|reflexivity].
  destruct (parse (slice 6 line)) as [[repo|csv|message|]|]; reflexivity.
Qed.

Lemma foldl_handleLine_buffer (lines : list string) :
  ∀ (st : RefreshState value) (text : string),
    foldl (handleLine parse) (setBuffer text st) lines =
    setBuffer text (foldl (handleLine parse) st lines).
Proof.
  induction lines as [|l lines IH]; intros st text; [reflexivity|].
  cbn [foldl]. rewrite handleLine_buffer. apply IH.
Qed.

Lemma setBuffer_twice (st : RefreshState value) (a b : string) :
  setBuffer a (setBuffer b st) = setBuffer a st.
Proof. reflexivity. Qed.

(** The loop from a state whose buffer holds no line end. *)
Lemma readAll_lines (chunks : list string) :
  ∀ st : RefreshState value,
    Codec.oneLine (buffer st) →
    let pieces := JS.split Codec.newline (buffer st +:+ wholeText chunks) in
    readAll parse st chunks =
    setBuffer (lastPiece pieces) (foldl (handleLine parse) st (removelast pieces)).
Proof.
  induction chunks as [|chunk chunks IH]; intros st Hone pieces; subst pieces.
  - cbn [wholeText foldr readAll foldl]. rewrite append_nil_r.
    rewrite (split_oneLine _ Hone). cbn [removelast foldl lastPiece last default from_option id].
    destruct st; reflexivity.
  - cbn [wholeText foldr]. fold (wholeText chunks). unfold readAll. cbn [foldl].
    fold (readAll parse (readChunk parse st chunk) chunks).
    assert (Hbuf : buffer (readChunk parse st chunk) =
                   lastPiece (JS.split Codec.newline (buffer st +:+ chunk))).
    { unfold readChunk. cbv zeta. rewrite foldl_handleLine_buffer. reflexivity. }
    rewrite IH by (rewrite Hbuf; apply lastPiece_oneLine). cbv zeta.
    rewrite Hbuf, <- append_assoc.
    rewrite (split_append Codec.newline (buffer st +:+ chunk) (wholeText chunks)).
    set (first := JS.split Codec.newline (buffer st +:+ chunk)).
    set (rest := JS.split Codec.newline (lastPiece first +:+ wholeText chunks)).
    assert (Hrest : rest ≠ []) by apply split_nonempty.
    assert (Hlast : lastPiece (removelast first ++ rest) = lastPiece rest).
    { unfold lastPiece. rewrite last_app. destruct (last rest) eqn:Hl; [reflexivity|].
      apply last_None in Hl. contradiction. }
    rewrite Hlast, removelast_app, foldl_app by exact Hrest.
    unfold readChunk. cbv zeta. fold first.
    rewrite !foldl_handleLine_buffer, setBuffer_twice. reflexivity.
Qed.

(** X27: the read loop of [handleRefresh] does not depend on how the
    response is cut into chunks.  After the last chunk the lines handled
    are, in order, the pieces of the whole text between line ends except the
    piece after the last line end, which stays in the buffer and is never
    handled; the state is the one that a single chunk holding the whole
    text leaves, and so is what [handleRefresh] does next. *)
Theorem refresh_handles_the_lines_whatever_the_chunks (chunks : list string) :
  let pieces := JS.split Codec.newline (wholeText chunks) in
  readAll parse refreshInit chunks =
    setBuffer (lastPiece pieces) (foldl (handleLine parse) refreshInit (removelast pieces)) ∧
  readAll parse refreshInit chunks = readChunk parse refreshInit (wholeText chunks) ∧
  handleRefresh parse truthyValue chunks =
    refreshOutcome truthyValue (foldl (handleLine parse) refreshInit (removelast pieces)).
Proof.
  intros pieces. subst pieces.
  pose proof (readAll_lines chunks refreshInit (Forall_nil_2 _)) as Hall.
  cbv zeta in Hall. cbn [refreshInit buffer] in Hall. rewrite append_nil_l in Hall.
  split; [exact Hall|]. split.
  - rewrite Hall. unfold readChunk. cbv zeta. cbn [refreshInit buffer].
    rewrite append_nil_l, foldl_handleLine_buffer. reflexivity.
  - unfold handleRefresh. rewrite Hall. reflexivity.
Qed.
End RefreshProperties.
